(** * nonebot-plugin-parser: link resolution and media normalisation

    A shallow embedding of the two parsers of the plugin,

      - [src/nonebot_plugin_parser/parsers/douyin/__init__.py]  ([Module Douyin])
      - [src/nonebot_plugin_parser/parsers/xiaohongshu.py]      ([Module XiaoHongShu])

    together with the parts of the Python runtime they lean on: [str]
    operations, the two regular expressions, [json.loads], [msgspec.convert],
    [asyncio.gather] and [list.sort].

    Conventions.
      - A Python [str] is a list of code points ([list N]); [bytes] is a list
        of [Byte.byte].
      - Exception messages that are literals of the source are kept as Rocq
        strings (their UTF-8 text, as in the source file).
      - A coroutine is a function from the trace of observable events so far
        to an outcome (a value or a raised exception) and the extended trace.
      - The network is an oracle ([env]): one answer per page request, one
        conversion outcome per (image URL, index), and the choices that fix in
        which order concurrently running conversions finish. *)

From Stdlib Require Import ZArith NArith Lia Bool.
From Stdlib Require Import Strings.String Strings.Ascii Strings.Byte DecimalString.
From stdpp Require Import base tactics option list.

Set Default Proof Using "Type".

(** ** Text *)

Module Text.

(** A string literal of the source as a list of code points.  The literals
    that go through this function are ASCII, but for the two messages in
    Chinese that [names_marker] searches for an ASCII marker: these are read
    as their UTF-8 bytes, where an ASCII text occurs exactly when it occurs
    in the code points. *)
Definition lit (s : string) : list N :=
  map N_of_ascii (list_ascii_of_string s).

(** The same, with every apostrophe read as a double quote (code point 34):
    JSON text is written ['like this'] in the examples below. *)
Definition litq (s : string) : list N :=
  map (fun c => if N.eqb c 39 then 34%N else c) (lit s).

(** [s.startswith(p)]; also a literal inside a regular expression tried at
    the current position. *)
Fixpoint starts_with (p s : list N) : bool :=
  match p, s with
  | [], _ => true
  | a :: p', b :: s' => N.eqb a b && starts_with p' s'
  | _ :: _, [] => false
  end.

(** [p in s] *)
Fixpoint contains (p s : list N) : bool :=
  starts_with p s ||
  match s with
  | [] => false
  | _ :: s' => contains p s'
  end.

(** [p] occurs in [s] as a substring. *)
Definition occurs (p s : list N) : Prop :=
  exists a b, s = a ++ p ++ b.

(** [str.isspace] of one character, which is also what [\s] matches in a
    [str] pattern: the Unicode white space of CPython. *)
Definition is_space (c : N) : bool :=
  (N.leb 9 c && N.leb c 13) || (N.leb 28 c && N.leb c 32)
  || N.eqb c 133 || N.eqb c 160 || N.eqb c 5760
  || (N.leb 8192 c && N.leb c 8202)
  || N.eqb c 8232 || N.eqb c 8233 || N.eqb c 8239 || N.eqb c 8287
  || N.eqb c 12288.

Fixpoint lstrip (s : list N) : list N :=
  match s with
  | c :: s' => if is_space c then lstrip s' else s
  | [] => []
  end.

Definition rstrip (s : list N) : list N := rev (lstrip (rev s)).

(** [s.strip()] *)
Definition strip (s : list N) : list N := rstrip (lstrip s).

(** [s.replace(old, new)] for a non-empty [old]: the occurrences are found
    from left to right and do not overlap.  [skip] counts the characters of
    an occurrence that are still to be passed over. *)
Fixpoint replace_from (old new : list N) (skip : nat) (s : list N) : list N :=
  match s with
  | [] => []
  | c :: s' =>
      match skip with
      | S k => replace_from old new k s'
      | O =>
          if starts_with old s
          then new ++ replace_from old new (length old - 1) s'
          else c :: replace_from old new 0 s'
      end
  end.

(** [s.replace(old, new)].  With an empty [old] Python puts [new] before
    every character and at the end. *)
Definition str_replace (old new s : list N) : list N :=
  match old with
  | [] => new ++ flat_map (fun c => c :: new) s
  | _ :: _ => replace_from old new 0 s
  end.

(** [s.replace(old, new, 1)]: the first occurrence only. *)
Fixpoint str_replace_first (old new s : list N) : list N :=
  if starts_with old s then new ++ drop (length old) s
  else match s with
       | [] => []
       | c :: s' => c :: str_replace_first old new s'
       end.

(** [str(n)] for a non-negative integer. *)
Definition decimal (n : N) : string :=
  NilZero.string_of_uint (N.to_uint n).

End Text.

Import Text.

(** ** The two regular expressions *)

Module Re.

(** [(.*?)] followed by a literal, under [re.DOTALL]: the shortest run of
    characters up to the first place where [stop] starts. *)
Fixpoint lazy_until (stop s : list N) : option (list N) :=
  if starts_with stop s then Some []
  else match s with
       | [] => None
       | c :: s' => cons c <$> lazy_until stop s'
       end.

(** The same without [re.DOTALL]: [.] does not match a line feed. *)
Fixpoint lazy_until_in_line (stop s : list N) : option (list N) :=
  if starts_with stop s then Some []
  else match s with
       | [] => None
       | c :: s' =>
           if N.eqb c 10 then None
           else cons c <$> lazy_until_in_line stop s'
       end.

Definition script_end : list N := lit "</script>".

(** [window\._ROUTER_DATA\s*=\s*(.*?)</script>] with [re.DOTALL], tried at
    the start of [s]; the result is group 1.  Both [\s*] are greedy, and
    giving characters back never helps: after the first only [=] may come,
    and [</script>] does not start with white space. *)
Definition router_data_match (s : list N) : option (list N) :=
  if starts_with (lit "window._ROUTER_DATA") s then
    match lstrip (drop 19 s) with
    | c :: t => if N.eqb c 61 then lazy_until script_end (lstrip t) else None
    | [] => None
    end
  else None.

(** [pattern.search(text)] of [DouyinParser.parse_video]: the match at the
    leftmost position that has one. *)
Fixpoint router_data_search (s : list N) : option (list N) :=
  match router_data_match s with
  | Some g => Some g
  | None => match s with
            | [] => None
            | _ :: s' => router_data_search s'
            end
  end.

(** [window\.__INITIAL_STATE__=(.*?)</script>] (no flags), tried at the
    start of [s]. *)
Definition initial_state_match (s : list N) : option (list N) :=
  if starts_with (lit "window.__INITIAL_STATE__=") s
  then lazy_until_in_line script_end (drop 25 s)
  else None.

(** [re.search(pattern, html)] of
    [XiaoHongShuParser._extract_initial_state_json]. *)
Fixpoint initial_state_search (s : list N) : option (list N) :=
  match initial_state_match s with
  | Some g => Some g
  | None => match s with
            | [] => None
            | _ :: s' => initial_state_search s'
            end
  end.

End Re.

(** ** Python values, exceptions and coroutines *)

Module Py.

(** A [float] made by [float(lexeme)], kept as the decimal [m * 10^e] it was
    read from; [nan] and the infinities apart. *)
Inductive pyfloat :=
| FDec (m e : Z)
| FNaN
| FInf (negative : bool).

(** The values [json.loads] builds.  A [dict] keeps its keys in insertion
    order. *)
#[warnings="-register-all"]
Inductive pyval :=
| PNone
| PBool (b : bool)
| PInt (z : Z)
| PFloat (f : pyfloat)
| PStr (s : list N)
| PList (l : list pyval)
| PDict (d : list (list N * pyval)).

Definition str_eqb (a b : list N) : bool :=
  bool_decide (a = b).

(** [d.get(k)] on the items of a dict: [None] when the key is absent. *)
Fixpoint dict_get (d : list (list N * pyval)) (k : list N) : option pyval :=
  match d with
  | [] => None
  | (k', v) :: d' => if str_eqb k' k then Some v else dict_get d' k
  end.

(** [d[k] = v]: an existing key keeps its place. *)
Fixpoint dict_set (d : list (list N * pyval)) (k : list N) (v : pyval)
  : list (list N * pyval) :=
  match d with
  | [] => [(k, v)]
  | (k', v') :: d' =>
      if str_eqb k' k then (k', v) :: d' else (k', v') :: dict_set d' k v
  end.

(** [float(lexeme) == 0.0].  The conversion rounds to nearest, ties to even:
    a decimal rounds to zero exactly when its magnitude is at most
    [2^-1075], half of the smallest positive float. *)
Definition float_is_zero (f : pyfloat) : bool :=
  match f with
  | FDec m e =>
      (Z.abs m * 2 ^ 1075 * 10 ^ (Z.max e 0) <=? 10 ^ (Z.max (- e) 0))%Z
  | FNaN | FInf _ => false
  end.

(** [bool(v)] *)
Definition truthy (v : pyval) : bool :=
  match v with
  | PNone => false
  | PBool b => b
  | PInt z => negb (z =? 0)%Z
  | PFloat f => negb (float_is_zero f)
  | PStr s => negb (bool_decide (s = []))
  | PList l => negb (bool_decide (length l = 0))
  | PDict d => negb (bool_decide (length d = 0))
  end.

(** [bool(l)] for [l : list | None] *)
Definition nonempty {A} (l : list A) : bool :=
  match l with
  | [] => false
  | _ :: _ => true
  end.

(** The exceptions the two parsers can meet.  [ParseException] is the
    plugin's own class; the others belong to libraries, and none of them is
    a subclass of it. *)
Inductive exn :=
| ParseException (msg : string)
| HTTPError               (* httpx: transport failure or [raise_for_status] *)
| DecodeError             (* msgspec.DecodeError *)
| ValidationError         (* msgspec.ValidationError *)
| JSONDecodeError         (* json.JSONDecodeError *)
| AttributeError
| KeyError
| IndexError.

(** [isinstance(e, ParseException)] *)
Definition is_ParseException (e : exn) : bool :=
  match e with
  | ParseException _ => true
  | _ => false
  end.

Inductive outcome (A : Type) :=
| Ok (a : A)
| Raise (e : exn).
Arguments Ok {A} a.
Arguments Raise {A} e.

(** [obj.get(key, default)]: only a dict has the method. *)
Definition py_get (obj : pyval) (key : list N) (default : pyval) : outcome pyval :=
  match obj with
  | PDict d =>
      match dict_get d key with
      | Some v => Ok v
      | None => Ok default
      end
  | _ => Raise AttributeError
  end.

End Py.

Import Py.

(** ** [json.loads]

    The decoder of CPython's [json] module (its C scanner, in strict mode),
    as a lexer followed by a pushdown parser.  [None] stands for
    [JSONDecodeError].  [allow_undefined] adds the literal [undefined], read
    as [None]: JSON as JavaScript serialises a state object that holds
    [undefined] values.  The interpreter's recursion limit is not modelled. *)

Module Json.

Inductive token :=
| TLBrace | TRBrace | TLBracket | TRBracket | TComma | TColon
| TAtom (v : pyval).

Definition is_ws (c : N) : bool :=
  N.eqb c 32 || N.eqb c 9 || N.eqb c 10 || N.eqb c 13.

Definition is_digit (c : N) : bool := N.leb 48 c && N.leb c 57.

(** The length of the longest prefix of [s] whose characters satisfy [p]. *)
Fixpoint span_len (p : N -> bool) (s : list N) : nat :=
  match s with
  | c :: s' => if p c then S (span_len p s') else 0
  | [] => 0
  end.

(** *** Strings *)

(** The length of the raw text of a string literal, from the character after
    its opening quote up to its closing quote: the first quote that no
    backslash escapes. *)
Fixpoint string_end (escaped : bool) (s : list N) : option nat :=
  match s with
  | [] => None
  | c :: s' =>
      if escaped then S <$> string_end false s'
      else if N.eqb c 34 then Some 0
      else if N.eqb c 92 then S <$> string_end true s'
      else S <$> string_end false s'
  end.

Definition hex_digit (c : N) : option N :=
  if is_digit c then Some (c - 48)%N
  else if N.leb 97 c && N.leb c 102 then Some (c - 87)%N
  else if N.leb 65 c && N.leb c 70 then Some (c - 55)%N
  else None.

Definition hex4 (a b c d : N) : option N :=
  x ← hex_digit a; y ← hex_digit b; z ← hex_digit c; w ← hex_digit d;
  Some (((x * 16 + y) * 16 + z) * 16 + w)%N.

(** The one-letter escapes. *)
Definition escape_char (e : N) : option N :=
  if N.eqb e 34 then Some 34%N          (* a quote *)
  else if N.eqb e 92 then Some 92%N     (* a backslash *)
  else if N.eqb e 47 then Some 47%N     (* a slash *)
  else if N.eqb e 98 then Some 8%N      (* b: backspace *)
  else if N.eqb e 102 then Some 12%N    (* f: form feed *)
  else if N.eqb e 110 then Some 10%N    (* n: line feed *)
  else if N.eqb e 114 then Some 13%N    (* r: carriage return *)
  else if N.eqb e 116 then Some 9%N     (* t: tab *)
  else None.

Definition is_high_surrogate (u : N) : bool := N.leb 55296 u && N.leb u 56319.
Definition is_low_surrogate (u : N) : bool := N.leb 56320 u && N.leb u 57343.
Definition join_surrogates (hi lo : N) : N :=
  (65536 + ((hi - 55296) * 1024 + (lo - 56320)))%N.

(** The value of the raw text of a string literal: control characters are
    refused, escapes are decoded, and a high surrogate escape directly
    followed by a low one makes one character. *)
Fixpoint unescape (s : list N) : option (list N) :=
  match s with
  | [] => Some []
  | c :: s1 =>
      if N.ltb c 32 then None
      else if negb (N.eqb c 92) then cons c <$> unescape s1
      else
        match s1 with
        | [] => None
        | e :: s2 =>
            if negb (N.eqb e 117) then
              match escape_char e with
              | Some x => cons x <$> unescape s2
              | None => None
              end
            else
              match s2 with
              | h1 :: h2 :: h3 :: h4 :: s3 =>
                  match hex4 h1 h2 h3 h4 with
                  | None => None
                  | Some hi =>
                      match s3 with
                      | b :: u :: l1 :: l2 :: l3 :: l4 :: s4 =>
                          match
                            (if is_high_surrogate hi && N.eqb b 92 && N.eqb u 117
                             then hex4 l1 l2 l3 l4 else None)
                          with
                          | Some lo =>
                              if is_low_surrogate lo
                              then cons (join_surrogates hi lo) <$> unescape s4
                              else cons hi <$> unescape s3
                          | None => cons hi <$> unescape s3
                          end
                      | _ => cons hi <$> unescape s3
                      end
                  end
              | _ => None
              end
        end
  end.

(** A string literal whose opening quote has just been read: its value and
    the number of characters up to and including the closing quote. *)
Definition scan_string (s : list N) : option (list N * nat) :=
  n ← string_end false s;
  v ← unescape (take n s);
  Some (v, S n).

(** *** Numbers

    An optional minus sign and either a single 0 or a digit from 1 to 9 with
    any number of digits after it; then, optionally, a point with at least
    one digit; then, optionally, e or E, an optional sign and at least one
    digit. *)

Definition is_num_char (c : N) : bool :=
  is_digit c || N.eqb c 45 || N.eqb c 43 || N.eqb c 46
  || N.eqb c 101 || N.eqb c 69.

(** The length of the integer part, sign included. *)
Definition int_len (s : list N) : option nat :=
  let sign := if starts_with [45%N] s then 1 else 0 in
  match drop sign s with
  | c :: t =>
      if N.eqb c 48 then Some (sign + 1)
      else if is_digit c then Some (sign + 1 + span_len is_digit t)
      else None
  | [] => None
  end.

(** The length of the fraction, its point included; 0 when there is none. *)
Definition frac_len (s : list N) : nat :=
  match s with
  | c :: t =>
      if N.eqb c 46 && negb (span_len is_digit t =? 0)
      then 1 + span_len is_digit t else 0
  | [] => 0
  end.

(** The length of the exponent, its letter included; 0 when there is none. *)
Definition exp_len (s : list N) : nat :=
  match s with
  | c :: t =>
      if N.eqb c 101 || N.eqb c 69 then
        let sg := if starts_with [43%N] t || starts_with [45%N] t then 1 else 0 in
        let k := span_len is_digit (drop sg t) in
        if k =? 0 then 0 else 1 + sg + k
      else 0
  | [] => 0
  end.

Definition digits_value (s : list N) : Z :=
  fold_left (fun acc c => acc * 10 + Z.of_N (c - 48))%Z s 0%Z.

Definition signed (negative : bool) (z : Z) : Z :=
  if negative then (- z)%Z else z.

(** The number that starts the run [w] of number characters, and its
    length: an [int] when it has neither fraction nor exponent, a [float]
    otherwise. *)
Definition number_of (w : list N) : option (pyval * nat) :=
  i ← int_len w;
  let f := frac_len (drop i w) in
  let x := exp_len (drop (i + f) w) in
  let negative := starts_with [45%N] w in
  let int_digits := drop (if negative then 1 else 0) (take i w) in
  if (f =? 0) && (x =? 0)
  then Some (PInt (signed negative (digits_value int_digits)), i)
  else
    let frac_digits := drop 1 (take f (drop i w)) in
    let exp_text := drop 1 (take x (drop (i + f) w)) in
    let exp_digits :=
      drop (if starts_with [43%N] exp_text || starts_with [45%N] exp_text
            then 1 else 0) exp_text in
    let exp_value := signed (starts_with [45%N] exp_text) (digits_value exp_digits) in
    Some (PFloat (FDec (signed negative (digits_value (int_digits ++ frac_digits)))
                       (exp_value - Z.of_nat (length frac_digits))),
          i + f + x).

(** The regular expression only ever reads number characters, so it sees the
    same on [s] as on the longest run of them that starts [s]. *)
Definition scan_number (s : list N) : option (pyval * nat) :=
  number_of (take (span_len is_num_char s) s).

(** *** The lexer *)

(** The token at the start of [s] ([None] for one character of white space)
    and the number of characters it takes after its first one. *)
Definition lex_one (allow_undefined : bool) (s : list N)
  : option (option token * nat) :=
  match s with
  | [] => None
  | c :: s' =>
      if is_ws c then Some (None, 0)
      else if N.eqb c 123 then Some (Some TLBrace, 0)
      else if N.eqb c 125 then Some (Some TRBrace, 0)
      else if N.eqb c 91 then Some (Some TLBracket, 0)
      else if N.eqb c 93 then Some (Some TRBracket, 0)
      else if N.eqb c 44 then Some (Some TComma, 0)
      else if N.eqb c 58 then Some (Some TColon, 0)
      else if N.eqb c 34 then
        '(v, n) ← scan_string s'; Some (Some (TAtom (PStr v)), n)
      else if starts_with (lit "null") s then Some (Some (TAtom PNone), 3)
      else if starts_with (lit "true") s then Some (Some (TAtom (PBool true)), 3)
      else if starts_with (lit "false") s then Some (Some (TAtom (PBool false)), 4)
      else if starts_with (lit "NaN") s then Some (Some (TAtom (PFloat FNaN)), 2)
      else if starts_with (lit "Infinity") s
      then Some (Some (TAtom (PFloat (FInf false))), 7)
      else if starts_with (lit "-Infinity") s
      then Some (Some (TAtom (PFloat (FInf true))), 8)
      else if allow_undefined && starts_with (lit "undefined") s
      then Some (Some (TAtom PNone), 8)
      else '(v, n) ← scan_number s; Some (Some (TAtom v), n - 1)
  end.

(** The tokens of [s]; [skip] counts the characters of the current token
    that are still to be passed over. *)
Fixpoint lex (allow_undefined : bool) (skip : nat) (s : list N)
  : option (list token) :=
  match s with
  | [] => Some []
  | _ :: s' =>
      match skip with
      | S k => lex allow_undefined k s'
      | O =>
          '(t, n) ← lex_one allow_undefined s;
          ts ← lex allow_undefined n s';
          Some (match t with Some t => t :: ts | None => ts end)
      end
  end.

(** *** The parser *)

(** An array or object that is still open. *)
Inductive frame :=
| FList (done : list pyval)
| FDict (done : list (list N * pyval))
| FMember (done : list (list N * pyval)) (key : list N).

Inductive pstate :=
| NeedValue
| AfterOpenList
| AfterOpenDict
| NeedKey
| NeedColon (key : list N)
| HaveValue (v : pyval).

Definition open_value (t : token) (stack : list frame)
  : option (pstate * list frame) :=
  match t with
  | TAtom v => Some (HaveValue v, stack)
  | TLBracket => Some (AfterOpenList, FList [] :: stack)
  | TLBrace => Some (AfterOpenDict, FDict [] :: stack)
  | _ => None
  end.

Definition step (st : pstate) (stack : list frame) (t : token)
  : option (pstate * list frame) :=
  match st with
  | NeedValue => open_value t stack
  | AfterOpenList =>
      match t, stack with
      | TRBracket, FList _ :: stack' => Some (HaveValue (PList []), stack')
      | _, _ => open_value t stack
      end
  | AfterOpenDict =>
      match t, stack with
      | TRBrace, FDict _ :: stack' => Some (HaveValue (PDict []), stack')
      | TAtom (PStr k), _ => Some (NeedColon k, stack)
      | _, _ => None
      end
  | NeedKey =>
      match t with
      | TAtom (PStr k) => Some (NeedColon k, stack)
      | _ => None
      end
  | NeedColon k =>
      match t, stack with
      | TColon, FDict d :: stack' => Some (NeedValue, FMember d k :: stack')
      | _, _ => None
      end
  | HaveValue v =>
      match stack, t with
      | FList l :: stack', TComma => Some (NeedValue, FList (l ++ [v]) :: stack')
      | FList l :: stack', TRBracket => Some (HaveValue (PList (l ++ [v])), stack')
      | FMember d k :: stack', TComma =>
          Some (NeedKey, FDict (dict_set d k v) :: stack')
      | FMember d k :: stack', TRBrace =>
          Some (HaveValue (PDict (dict_set d k v)), stack')
      | _, _ => None
      end
  end.

Fixpoint run (st : pstate) (stack : list frame) (ts : list token)
  : option pyval :=
  match ts with
  | [] =>
      match st, stack with
      | HaveValue v, [] => Some v
      | _, _ => None
      end
  | t :: ts' =>
      '(st', stack') ← step st stack t;
      run st' stack' ts'
  end.

Definition loads_with (allow_undefined : bool) (s : list N) : option pyval :=
  lex allow_undefined 0 s ≫= run NeedValue [].

(** [json.loads(s)] *)
Definition json_loads (s : list N) : option pyval := loads_with false s.

(** The reading of the same text in which [undefined] is a value, [None]. *)
Definition js_loads (s : list N) : option pyval := loads_with true s.

End Json.

(** ** Coroutines, the network and [asyncio.gather] *)

Module Async.

(** The [AsyncClient] a request goes through, named after the function that
    builds it (each has its own headers and redirect policy). *)
Inductive client :=
| ClientVideo        (* DouyinParser.parse_video: ios_headers, no redirects *)
| ClientSlides       (* DouyinParser.parse_slides: android_headers *)
| ClientExplore      (* XiaoHongShuParser.parse_explore: headers *)
| ClientDiscovery.   (* XiaoHongShuParser.parse_discovery: ios_headers, redirects *)

Record request := {
  req_client : client;
  req_url : list N;
  req_params : list (list N * list N)
}.

(** What [await client.get(...)] gives: an exception of httpx (no answer), or
    a response with its status code and body. *)
Inductive reply :=
| Unreachable
| Response (status_code : N) (body : list N).

(** The world one resolution runs in. *)
Record env := {
  (** the answer to a page or API request *)
  http_get : request -> reply;
  (** the [try] body of [_convert_webp_to_jpg] for an image URL and index:
      the JPEG bytes, or [None] when any step of it raises *)
  convert_image : list N -> nat -> option (list byte);
  (** the scheduler's choices: which of the tasks still running finishes
      next *)
  finish_choices : list nat
}.

(** What an observer of one resolution can see: the page requests and the
    log lines. *)
Inductive event :=
| Requested (r : request)
| LogStatus (url : list N) (status_code : N)
| LogFound (count : nat)
| LogConverted (index : nat) (url : list N) (size : nat)
| LogConvertFailed (index : nat) (url : list N)
| LogSuccessCount (success_count total : nat)
| LogParseFailed (url : list N) (e : exn)
| LogFallback.

Definition coro (A : Type) : Type := list event -> outcome A * list event.

Definition ret {A} (a : A) : coro A := fun tr => (Ok a, tr).

Definition raise {A} (e : exn) : coro A := fun tr => (Raise e, tr).

Definition lift {A} (o : outcome A) : coro A := fun tr => (o, tr).

Definition emit (ev : event) : coro unit := fun tr => (Ok tt, tr ++ [ev]).

Definition bind {A B} (m : coro A) (k : A -> coro B) : coro B :=
  fun tr =>
    match m tr with
    | (Ok a, tr') => k a tr'
    | (Raise e, tr') => (Raise e, tr')
    end.

(** [try: m  except <class> as e: handler(e)] *)
Definition try_except {A} (m : coro A) (caught : exn -> bool)
    (handler : exn -> coro A) : coro A :=
  fun tr =>
    match m tr with
    | (Ok a, tr') => (Ok a, tr')
    | (Raise e, tr') => if caught e then handler e tr' else (Raise e, tr')
    end.

Notation "'let*' x := m 'in' k" := (bind m (fun x => k))
  (at level 10, x name, m at level 100, k at level 200, only parsing).

(** The order in which the tasks [running] finish: each choice of the
    scheduler picks one of those that still run. *)
Fixpoint completion_order (choices running : list nat) (fuel : nat) : list nat :=
  match fuel with
  | O => []
  | S fuel' =>
      match running !! (hd 0 choices `mod` length running) with
      | Some i =>
          i :: completion_order (tail choices)
                 (delete (hd 0 choices `mod` length running) running) fuel'
      | None => []
      end
  end.

(** The tasks run to their end in the order [order]; each one leaves its
    result in the slot of its own position. *)
Fixpoint finish_in_order {A} (tasks : list (coro A)) (order : list nat)
    (slots : list (option A)) : coro (list (option A)) :=
  match order with
  | [] => ret slots
  | i :: rest =>
      match tasks !! i with
      | Some task => let* x := task in finish_in_order tasks rest (<[i := Some x]> slots)
      | None => finish_in_order tasks rest slots
      end
  end.

(** [await asyncio.gather] of the tasks: the results, in the order of
    [tasks]. *)
Definition gather {A} (choices : list nat) (tasks : list (coro A)) : coro (list A) :=
  let* slots := finish_in_order tasks
             (completion_order choices (seq 0 (length tasks)) (length tasks))
             (replicate (length tasks) None) in
  ret (omap id slots).

(** [l.sort(key=...)] is stable: [x] goes before the first element whose key
    is not smaller. *)
Fixpoint insert_by_key {A} (key : A -> nat) (x : A) (l : list A) : list A :=
  match l with
  | [] => [x]
  | y :: l' => if key x <=? key y then x :: l else y :: insert_by_key key x l'
  end.

Fixpoint sort_by_key {A} (key : A -> nat) (l : list A) : list A :=
  match l with
  | [] => []
  | x :: l' => insert_by_key key x (sort_by_key key l')
  end.

End Async.

(** ** The result types of [parsers/base.py] and [parsers/data.py] *)

Module Base.

(** Modelled from the spec: [Author] of the data model (section 3), built by
    [BaseParser.create_author], which is not under src/. *)
Record Author := {
  display_name : list N;
  avatar_url : option (list N)
}.

(** What an [ImageContent] waits for: the file [_create_jpg_task] writes the
    JPEG bytes to, or the download of the original URL. *)
Inductive image_task :=
| SaveJpg (jpg_data : list byte)
| DownloadImg (url : list N).

(** Modelled from the spec: the content descriptor of section 3,
    [Video(url, cover_url, duration)], [Image(source)], [Dynamic(url)];
    the classes themselves are in [parsers/data.py], not under src/. *)
Inductive content :=
| VideoContent (url : pyval) (cover_url : option (list N)) (duration : option Z)
| ImageContent (task : image_task)
| DynamicContent (url : list N).

(** Modelled from the spec: [ParsedResult] of section 3. *)
Record ParseResult := {
  title : list N;
  text : option (list N);
  author : Author;
  contents : list content;
  timestamp : option Z
}.

(** Modelled from the spec: [BaseParser.create_author]. *)
Definition create_author (name : list N) (avatar : option (list N)) : Author :=
  {| display_name := name; avatar_url := avatar |}.

(** Modelled from the spec: [BaseParser.create_video_content]. *)
Definition create_video_content (url : pyval) (cover : option (list N))
    (duration : option Z) : content :=
  VideoContent url cover duration.

(** Modelled from the spec: [BaseParser.create_dynamic_contents]. *)
Definition create_dynamic_contents (urls : list (list N)) : list content :=
  map DynamicContent urls.

(** Modelled from the spec: [BaseParser.result], the assembler of section
    4.6; it puts its arguments into a [ParsedResult] and checks nothing. *)
Definition result (title : list N) (text : option (list N)) (author : Author)
    (contents : list content) (timestamp : option Z) : ParseResult :=
  {| title := title; text := text; author := author;
     contents := contents; timestamp := timestamp |}.

Definition is_video (c : content) : bool :=
  match c with VideoContent _ _ _ => true | _ => false end.

Definition is_image (c : content) : bool :=
  match c with ImageContent _ => true | _ => false end.

End Base.

(** ** Image conversion

    [_convert_webp_to_jpg], [create_image_contents] and the conversion block
    of the parse functions.  Both parser classes define the two methods with
    the same body (up to the headers of the client and the tag of the log
    lines), and [DouyinParser.parse_video] (lines 168-192),
    [DouyinParser.parse_slides] (227-248), [XiaoHongShuParser.parse_explore]
    (184-206) and [XiaoHongShuParser.parse_discovery] (285-306) repeat the
    same block. *)

Module Media.
Import Async Base.

(** An element of [image_sources]: [bytes] or [str]. *)
Inductive source :=
| SrcBytes (jpg_data : list byte)
| SrcUrl (url : list N).

(** [_convert_webp_to_jpg(url, index)]: whatever the [try] body does, the
    coroutine returns [(index, jpg_data)] or [(index, None)] and logs one
    line. *)
Definition _convert_webp_to_jpg (w : env) (url : list N) (index : nat)
  : coro (nat * option (list byte)) :=
  match convert_image w url index with
  | Some jpg_data =>
      let* _ := emit (LogConverted index (take 60 url) (length jpg_data)) in
      ret (index, Some jpg_data)
  | None =>
      let* _ := emit (LogConvertFailed index (take 60 url)) in
      ret (index, None)
  end.

(** [bool(jpg_data)] for [jpg_data : bytes | None] *)
Definition jpg_truthy (jpg_data : option (list byte)) : bool :=
  match jpg_data with
  | Some (_ :: _) => true
  | _ => false
  end.

(** The loop [for idx, jpg_data in results] with its two accumulators. *)
Fixpoint collect_sources (image_urls : list (list N))
    (results : list (nat * option (list byte)))
    (image_sources : list source) (success_count : nat)
  : outcome (list source * nat) :=
  match results with
  | [] => Ok (image_sources, success_count)
  | (idx, jpg_data) :: rest =>
      if jpg_truthy jpg_data then
        collect_sources image_urls rest
          (image_sources ++ [SrcBytes (default [] jpg_data)]) (S success_count)
      else
        match image_urls !! idx with
        | Some url =>
            collect_sources image_urls rest (image_sources ++ [SrcUrl url])
              success_count
        | None => Raise IndexError
        end
  end.

(** The conversion block: from [image_urls] to [image_sources]. *)
Definition convert_images (w : env) (image_urls : list (list N))
  : coro (list source) :=
  let* _ := emit (LogFound (length image_urls)) in
  let* results := gather (finish_choices w)
               (imap (fun i img_url => _convert_webp_to_jpg w img_url i) image_urls) in
  let* collected := lift (collect_sources image_urls (sort_by_key fst results) [] 0) in
  let* _ := emit (LogSuccessCount (snd collected) (length image_urls)) in
  ret (fst collected).

(** [create_image_contents(image_sources)] *)
Definition create_image_contents (image_sources : list source) : list content :=
  map (fun source =>
         match source with
         | SrcBytes jpg_data => ImageContent (SaveJpg jpg_data)
         | SrcUrl url => ImageContent (DownloadImg url)
         end) image_sources.

End Media.

(** ** [msgspec.convert]

    Conversion of a decoded JSON value to a typed schema, type by type;
    [None] stands for [msgspec.ValidationError].  A [Struct] is converted
    from a dict: a field that is declared and present is converted to its
    type, a field with a default may be absent, and keys that are not
    declared are ignored. *)

Module Msgspec.

(** [str] *)
Definition as_str (v : pyval) : option (list N) :=
  match v with
  | PStr s => Some s
  | _ => None
  end.

(** [int]: a [bool] or a [float] is not accepted. *)
Definition as_int (v : pyval) : option Z :=
  match v with
  | PInt z => Some z
  | _ => None
  end.

(** [dict[str, Any]] *)
Definition as_dict (v : pyval) : option (list (list N * pyval)) :=
  match v with
  | PDict d => Some d
  | _ => None
  end.

(** [list[T]] *)
Definition as_list {A} (elem : pyval -> option A) (v : pyval) : option (list A) :=
  match v with
  | PList l => mapM elem l
  | _ => None
  end.

(** [T | None] *)
Definition as_optional {A} (inner : pyval -> option A) (v : pyval)
  : option (option A) :=
  match v with
  | PNone => Some None
  | _ => Some <$> inner v
  end.

(** A field without a default. *)
Definition required {A} (d : list (list N * pyval)) (name : string)
    (ty : pyval -> option A) : option A :=
  dict_get d (lit name) ≫= ty.

(** A field with a default. *)
Definition optional {A} (d : list (list N * pyval)) (name : string)
    (ty : pyval -> option A) (default : A) : option A :=
  match dict_get d (lit name) with
  | Some v => ty v
  | None => Some default
  end.

(** [convert(obj, type=T)] *)
Definition convert {A} (ty : pyval -> option A) (obj : pyval) : outcome A :=
  match ty obj with
  | Some x => Ok x
  | None => Raise ValidationError
  end.

End Msgspec.

(** ** [parsers/douyin/__init__.py] *)

Module Douyin.
Import Async Base Media.

(** The schema module [parsers/douyin/video.py] is not under src/.  A
    [VideoData] is taken with the attributes [parse_video] reads. *)
Module video.

Record Video := { duration : Z }.

Record VideoData := {
  image_urls : list (list N);
  video_url : option (list N);
  cover_url : option (list N);
  video : option Video;
  author_nickname : list N;       (* video_data.author.nickname *)
  avatar_url : option (list N);
  desc : list N;
  create_time : Z
}.

End video.

(** The schema module [parsers/douyin/slides.py] is not under src/ either. *)
Module slides.

Record SlidesData := {
  image_urls : list (list N);
  dynamic_urls : list (list N);
  name : list N;
  avatar_url : option (list N);
  desc : list N;
  create_time : Z
}.

End slides.

(** [bool(s)] for [s : str | None] *)
Definition str_truthy (s : option (list N)) : bool :=
  match s with
  | Some (_ :: _) => true
  | _ => false
  end.

(** [_build_iesdouyin_url(ty, vid)] *)
Definition _build_iesdouyin_url (ty vid : list N) : list N :=
  lit "https://www.iesdouyin.com/share/" ++ ty ++ lit "/" ++ vid.

(** [_build_m_douyin_url(ty, vid)] *)
Definition _build_m_douyin_url (ty vid : list N) : list N :=
  lit "https://m.douyin.com/share/" ++ ty ++ lit "/" ++ vid.

Definition all_failed_message : string :=
  "分享已删除或资源直链提取失败, 请稍后再试".

Definition no_router_data_message : string :=
  "can't find _ROUTER_DATA in html".

Section parser.

(** [msgspec.json.decode(text, type=RouterData).video_data]: the schema
    decides what comes out, a [VideoData] or an exception. *)
Variable decode_RouterData : list N -> outcome video.VideoData.

(** [msgspec.json.decode(content, type=SlidesInfo).aweme_details] *)
Variable decode_SlidesInfo : list N -> outcome (list slides.SlidesData).

Variable w : env.

(** The request [parse_video(url)] sends. *)
Definition video_request (url : list N) : request :=
  {| req_client := ClientVideo; req_url := url; req_params := [] |}.

(** [parse_video], lines 142-164: the page is fetched, the embedded state
    is found and decoded. *)
Definition fetch_video_data (url : list N) : coro video.VideoData :=
  let* _ := emit (Requested (video_request url)) in
  match http_get w (video_request url) with
  | Unreachable => raise HTTPError
  | Response status_code text =>
      if negb (N.eqb status_code 200) then
        raise (ParseException ("status: " ++ decimal status_code))
      else
        match Re.router_data_search text with
        | None | Some [] => raise (ParseException no_router_data_message)
        | Some group1 => lift (decode_RouterData (strip group1))
        end
  end.

(** [parse_video], lines 165-198: the contents for a decoded [video_data].
    The image branch comes first; the video is looked at only when there is
    no image. *)
Definition video_contents (video_data : video.VideoData) : coro (list content) :=
  if nonempty (video.image_urls video_data) then
    let* image_sources := convert_images w (video.image_urls video_data) in
    ret (create_image_contents image_sources)
  else if str_truthy (video.video_url video_data) then
    let cover_url := video.cover_url video_data in
    let duration :=
      match video.video video_data with
      | Some v => video.duration v
      | None => 0%Z
      end in
    ret [create_video_content (PStr (default [] (video.video_url video_data)))
           cover_url (Some duration)]
  else ret [].

(** [parse_video], lines 165-208: the result for a decoded [video_data]. *)
Definition video_result (video_data : video.VideoData) : coro ParseResult :=
  let* contents := video_contents video_data in
  let author :=
    create_author (video.author_nickname video_data) (video.avatar_url video_data) in
  ret (result (video.desc video_data) None author contents
         (Some (video.create_time video_data))).

(** [parse_video(url)] *)
Definition parse_video (url : list N) : coro ParseResult :=
  let* video_data := fetch_video_data url in
  video_result video_data.

(** [response.raise_for_status()] passes a 2xx status only. *)
Definition is_success (status_code : N) : bool :=
  N.leb 200 status_code && N.ltb status_code 300.

(** The request [parse_slides(video_id)] sends. *)
Definition slides_request (video_id : list N) : request :=
  {| req_client := ClientSlides;
     req_url := lit "https://www.iesdouyin.com/web/api/v2/aweme/slidesinfo/";
     req_params := [(lit "aweme_ids", lit "[" ++ video_id ++ lit "]");
                    (lit "request_source", lit "200")] |}.

(** [parse_slides], lines 212-223: the API is asked and the first entry of
    its answer is taken. *)
Definition fetch_slides_data (video_id : list N) : coro slides.SlidesData :=
  let* _ := emit (Requested (slides_request video_id)) in
  match http_get w (slides_request video_id) with
  | Unreachable => raise HTTPError
  | Response status_code content =>
      if negb (is_success status_code) then raise HTTPError
      else
        let* aweme_details := lift (decode_SlidesInfo content) in
        match aweme_details with
        | [] => raise IndexError
        | slides_data :: _ => ret slides_data
        end
  end.

(** [parse_slides], lines 224-262: the images, then the dynamic contents. *)
Definition slides_result (slides_data : slides.SlidesData) : coro ParseResult :=
  let* images :=
    (if nonempty (slides.image_urls slides_data) then
       let* image_sources := convert_images w (slides.image_urls slides_data) in
       ret (create_image_contents image_sources)
     else ret []) in
  let dynamic :=
    if nonempty (slides.dynamic_urls slides_data)
    then create_dynamic_contents (slides.dynamic_urls slides_data)
    else [] in
  let author :=
    create_author (slides.name slides_data) (slides.avatar_url slides_data) in
  ret (result (slides.desc slides_data) None author (images ++ dynamic)
         (Some (slides.create_time slides_data))).

(** [parse_slides(video_id)] *)
Definition parse_slides (video_id : list N) : coro ParseResult :=
  let* slides_data := fetch_slides_data video_id in
  slides_result slides_data.

(** The loop of [_parse_douyin] over the URLs of its strategies, with the
    [raise] that follows it. *)
Fixpoint try_urls (urls : list (list N)) : coro ParseResult :=
  match urls with
  | [] => raise (ParseException all_failed_message)
  | url :: rest =>
      try_except (parse_video url) is_ParseException
        (fun e => let* _ := emit (LogParseFailed url e) in try_urls rest)
  end.

(** [_parse_douyin(searched)], with the groups [ty] and [vid] of the match. *)
Definition _parse_douyin (ty vid : list N) : coro ParseResult :=
  if str_eqb ty (lit "slides") then parse_slides vid
  else try_urls [_build_m_douyin_url ty vid; _build_iesdouyin_url ty vid].

End parser.

End Douyin.

(** ** [parsers/xiaohongshu.py] *)

Module XiaoHongShu.
Import Async Base Media Msgspec.

(** [class Stream(Struct)] *)
Module Stream.

Record t := {
  h264 : option (list (list (list N * pyval)));
  h265 : option (list (list (list N * pyval)));
  av1 : option (list (list (list N * pyval)));
  h266 : option (list (list (list N * pyval)))
}.

Definition of_py (v : pyval) : option t :=
  d ← as_dict v;
  a ← optional d "h264" (as_optional (as_list as_dict)) None;
  b ← optional d "h265" (as_optional (as_list as_dict)) None;
  c ← optional d "av1" (as_optional (as_list as_dict)) None;
  e ← optional d "h266" (as_optional (as_list as_dict)) None;
  Some {| h264 := a; h265 := b; av1 := c; h266 := e |}.

End Stream.

(** [class Media(Struct)] *)
Module Media.

Record t := { stream : Stream.t }.

Definition of_py (v : pyval) : option t :=
  d ← as_dict v;
  s ← required d "stream" Stream.of_py;
  Some {| stream := s |}.

End Media.

(** [class Video(Struct)] *)
Module Video.

Record t := { media : Media.t }.

Definition of_py (v : pyval) : option t :=
  d ← as_dict v;
  m ← required d "media" Media.of_py;
  Some {| media := m |}.

(** [bool(l)] for a stream list, [list | None] *)
Definition has_stream (l : option (list (list (list N * pyval)))) : bool :=
  match l with
  | Some (_ :: _) => true
  | _ => false
  end.

(** [l[0]["masterUrl"]] for a stream list that is not empty. *)
Definition first_master_url (l : option (list (list (list N * pyval))))
  : outcome pyval :=
  match l with
  | Some (first :: _) =>
      match dict_get first (lit "masterUrl") with
      | Some url => Ok url
      | None => Raise KeyError
      end
  | _ => Raise IndexError
  end.

(** The property [Video.video_url]; Python's [None] is [PNone]. *)
Definition video_url (self : t) : outcome pyval :=
  let stream := Media.stream (media self) in
  if has_stream (Stream.h265 stream) then first_master_url (Stream.h265 stream)
  else if has_stream (Stream.h264 stream) then first_master_url (Stream.h264 stream)
  else if has_stream (Stream.av1 stream) then first_master_url (Stream.av1 stream)
  else if has_stream (Stream.h266 stream) then first_master_url (Stream.h266 stream)
  else Ok PNone.

End Video.

Definition link_dead_message : string :=
  "小红书分享链接失效或内容已删除".

Definition undefined : list N := lit "undefined".
Definition null : list N := lit "null".

(** [_extract_initial_state_json(html)] *)
Definition _extract_initial_state_json (html : list N) : outcome pyval :=
  match Re.initial_state_search html with
  | None => Raise (ParseException link_dead_message)
  | Some group1 =>
      match Json.json_loads (str_replace undefined null group1) with
      | Some json_obj => Ok json_obj
      | None => Raise JSONDecodeError
      end
  end.

(** The classes that [parse_explore] declares. *)
Module Explore.

Module Image.
Record t := { urlDefault : list N }.
Definition of_py (v : pyval) : option t :=
  d ← as_dict v;
  u ← required d "urlDefault" as_str;
  Some {| urlDefault := u |}.
End Image.

Module User.
Record t := { nickname : list N; avatar : list N }.
Definition of_py (v : pyval) : option t :=
  d ← as_dict v;
  n ← required d "nickname" as_str;
  a ← required d "avatar" as_str;
  Some {| nickname := n; avatar := a |}.
End User.

Module NoteDetail.

Record t := {
  type : list N;
  title : list N;
  desc : list N;
  user : User.t;
  imageList : list Image.t;
  video : option Video.t
}.

Definition of_py (v : pyval) : option t :=
  d ← as_dict v;
  ty ← required d "type" as_str;
  ti ← required d "title" as_str;
  de ← required d "desc" as_str;
  us ← required d "user" User.of_py;
  il ← optional d "imageList" (as_list Image.of_py) [];
  vi ← optional d "video" (as_optional Video.of_py) None;
  Some {| type := ty; title := ti; desc := de; user := us;
          imageList := il; video := vi |}.

Definition nickname (self : t) : list N := User.nickname (user self).

Definition avatar_url (self : t) : list N := User.avatar (user self).

Definition image_urls (self : t) : list (list N) :=
  map Image.urlDefault (imageList self).

Definition video_url (self : t) : outcome pyval :=
  match video self with
  | Some v => if negb (str_eqb (type self) (lit "video")) then Ok PNone
              else Video.video_url v
  | None => Ok PNone
  end.

End NoteDetail.

End Explore.

(** The classes that [parse_discovery] declares. *)
Module Discovery.

Module Image.
Record t := { url : list N; urlSizeLarge : option (list N) }.
Definition of_py (v : pyval) : option t :=
  d ← as_dict v;
  u ← required d "url" as_str;
  l ← optional d "urlSizeLarge" (as_optional as_str) None;
  Some {| url := u; urlSizeLarge := l |}.
End Image.

Module User.
Record t := { nickName : list N; avatar : list N }.
Definition of_py (v : pyval) : option t :=
  d ← as_dict v;
  n ← required d "nickName" as_str;
  a ← required d "avatar" as_str;
  Some {| nickName := n; avatar := a |}.
End User.

Module NoteData.

Record t := {
  type : list N;
  title : list N;
  desc : list N;
  user : User.t;
  time : Z;
  lastUpdateTime : Z;
  imageList : list Image.t;
  video : option Video.t
}.

Definition of_py (v : pyval) : option t :=
  d ← as_dict v;
  ty ← required d "type" as_str;
  ti ← required d "title" as_str;
  de ← required d "desc" as_str;
  us ← required d "user" User.of_py;
  tm ← required d "time" as_int;
  lu ← required d "lastUpdateTime" as_int;
  il ← optional d "imageList" (as_list Image.of_py) [];
  vi ← optional d "video" (as_optional Video.of_py) None;
  Some {| type := ty; title := ti; desc := de; user := us; time := tm;
          lastUpdateTime := lu; imageList := il; video := vi |}.

Definition image_urls (self : t) : list (list N) :=
  map Image.url (imageList self).

Definition video_url (self : t) : outcome pyval :=
  match video self with
  | Some v => if negb (str_eqb (type self) (lit "video")) then Ok PNone
              else Video.video_url v
  | None => Ok PNone
  end.

End NoteData.

Module NormalNotePreloadData.

Record t := {
  title : list N;
  desc : list N;
  imagesList : list Image.t
}.

Definition of_py (v : pyval) : option t :=
  d ← as_dict v;
  ti ← required d "title" as_str;
  de ← required d "desc" as_str;
  il ← optional d "imagesList" (as_list Image.of_py) [];
  Some {| title := ti; desc := de; imagesList := il |}.

(** [item.urlSizeLarge or item.url] for every item *)
Definition image_urls (self : t) : list (list N) :=
  map (fun item =>
         match Image.urlSizeLarge item with
         | Some (c :: large) => c :: large
         | _ => Image.url item
         end) (imagesList self).

End NormalNotePreloadData.

End Discovery.

Definition no_note_detail_message : string :=
  "can't find note detail in json_obj".
Definition no_note_data_message : string :=
  "can't find noteData in json_obj".
Definition no_inner_note_data_message : string :=
  "can't find noteData in noteData.data".

Section parser.

Variable w : env.

(** The image branch shared by [parse_explore] and [parse_discovery]. *)
Definition image_contents (image_urls : list (list N)) : coro (list content) :=
  if nonempty image_urls then
    let* image_sources := convert_images w image_urls in
    ret (create_image_contents image_sources)
  else ret [].

Definition explore_request (url : list N) : request :=
  {| req_client := ClientExplore; req_url := url; req_params := [] |}.

Definition discovery_request (url : list N) : request :=
  {| req_client := ClientDiscovery; req_url := url; req_params := [] |}.

(** [parse_explore], lines 126-174: the page is fetched, the note is looked
    up in the embedded state and converted. *)
Definition explore_note_detail (url xhs_id : list N) : coro Explore.NoteDetail.t :=
  let* _ := emit (Requested (explore_request url)) in
  match http_get w (explore_request url) with
  | Unreachable => raise HTTPError
  | Response status_code html =>
      let* _ := emit (LogStatus url status_code) in
      let* json_obj := lift (_extract_initial_state_json html) in
      let* note := lift (py_get json_obj (lit "note") (PDict [])) in
      let* detail_map := lift (py_get note (lit "noteDetailMap") (PDict [])) in
      let* entry := lift (py_get detail_map xhs_id (PDict [])) in
      let* note_data := lift (py_get entry (lit "note") (PDict [])) in
      if negb (truthy note_data) then raise (ParseException no_note_detail_message)
      else lift (convert Explore.NoteDetail.of_py note_data)
  end.

(** [parse_explore], lines 176-216: the result for a converted note.  The
    video comes first; the first image is its cover. *)
Definition explore_result (note_detail : Explore.NoteDetail.t) : coro ParseResult :=
  let* video_url := lift (Explore.NoteDetail.video_url note_detail) in
  let* contents :=
    (if truthy video_url then
       let cover_url := head (Explore.NoteDetail.image_urls note_detail) in
       ret [create_video_content video_url cover_url None]
     else image_contents (Explore.NoteDetail.image_urls note_detail)) in
  let author :=
    create_author (Explore.NoteDetail.nickname note_detail)
      (Some (Explore.NoteDetail.avatar_url note_detail)) in
  ret (result (Explore.NoteDetail.title note_detail)
         (Some (Explore.NoteDetail.desc note_detail)) author contents None).

(** [parse_explore(url, xhs_id)] *)
Definition parse_explore (url xhs_id : list N) : coro ParseResult :=
  let* note_detail := explore_note_detail url xhs_id in
  explore_result note_detail.

(** [parse_discovery], lines 219-275: the page is fetched; the preload data
    (as found, not yet converted) and the converted note come out. *)
Definition discovery_note_data (url : list N)
  : coro (pyval * Discovery.NoteData.t) :=
  let* _ := emit (Requested (discovery_request url)) in
  match http_get w (discovery_request url) with
  | Unreachable => raise HTTPError
  | Response status_code html =>
      let* json_obj := lift (_extract_initial_state_json html) in
      let* outer := lift (py_get json_obj (lit "noteData") PNone) in
      if negb (truthy outer) then raise (ParseException no_note_data_message)
      else
        let* preload_data := lift (py_get outer (lit "normalNotePreloadData") (PDict [])) in
        let* data := lift (py_get outer (lit "data") (PDict [])) in
        let* inner := lift (py_get data (lit "noteData") (PDict [])) in
        if negb (truthy inner) then raise (ParseException no_inner_note_data_message)
        else
          let* note_data := lift (convert Discovery.NoteData.of_py inner) in
          ret (preload_data, note_data)
  end.

(** [parse_discovery], lines 277-314: the result for a converted note. *)
Definition discovery_result (preload_data : pyval) (note_data : Discovery.NoteData.t)
  : coro ParseResult :=
  let* video_url := lift (Discovery.NoteData.video_url note_data) in
  let* contents :=
    (if truthy video_url then
       let* img_urls :=
         (if truthy preload_data then
            let* preload :=
              lift (convert Discovery.NormalNotePreloadData.of_py preload_data) in
            ret (Discovery.NormalNotePreloadData.image_urls preload)
          else ret (Discovery.NoteData.image_urls note_data)) in
       match img_urls with
       | cover :: _ => ret [create_video_content video_url (Some cover) None]
       | [] => raise IndexError
       end
     else image_contents (Discovery.NoteData.image_urls note_data)) in
  ret (result (Discovery.NoteData.title note_data)
         (Some (Discovery.NoteData.desc note_data))
         (create_author
            (Discovery.User.nickName (Discovery.NoteData.user note_data))
            (Some (Discovery.User.avatar (Discovery.NoteData.user note_data))))
         contents
         (Some (Discovery.NoteData.time note_data / 1000)%Z)).

(** [parse_discovery(url)] *)
Definition parse_discovery (url : list N) : coro ParseResult :=
  let* found := discovery_note_data url in
  discovery_result (fst found) (snd found).

Definition site : list N := lit "https://www.xiaohongshu.com/".

(** [_parse_discovery(searched)], with group 0 ([route]) and the group
    [xhs_id] of the match. *)
Definition _parse_discovery (route xhs_id : list N) : coro ParseResult :=
  let explore_route := str_replace_first (lit "discovery/item") (lit "explore") route in
  try_except (parse_explore (site ++ explore_route) xhs_id) is_ParseException
    (fun _ => let* _ := emit LogFallback in parse_discovery (site ++ route)).

(** [_parse_explore(searched)] *)
Definition _parse_explore (route xhs_id : list N) : coro ParseResult :=
  parse_explore (site ++ route) xhs_id.

End parser.

End XiaoHongShu.

(** * The vocabulary of the statements *)

Section statements.
Import Async Base Media.

(** The page requests of a trace, in order. *)
Definition requests (tr : list event) : list request :=
  omap (fun ev => match ev with Requested r => Some r | _ => None end) tr.

(** A coroutine that only adds log lines to the trace. *)
Definition logs_only {A} (m : coro A) : Prop :=
  forall tr, exists evs, snd (m tr) = tr ++ evs /\ requests evs = [].

(** A request followed by log lines only. *)
Definition one_request {A} (r : request) (m : coro A) : Prop :=
  forall tr, exists evs,
    snd (m tr) = tr ++ Requested r :: evs /\ requests evs = [].

(** Every task ends with the value [vals] holds at its position, whatever
    the trace it starts from. *)
Definition returns {A} (tasks : list (coro A)) (vals : list A) : Prop :=
  length tasks = length vals /\
  forall i task, tasks !! i = Some task ->
    exists v, vals !! i = Some v /\ forall tr, fst (task tr) = Ok v.

(** What the loop appends for one result. *)
Definition picked (image_urls : list (list N)) (r : nat * option (list byte))
  : source :=
  if jpg_truthy r.2 then SrcBytes (default [] r.2)
  else SrcUrl (default [] (image_urls !! r.1)).

(** The element of [image_sources] that the claim promises for the image at
    position [i]. *)
Definition expected_source (w : env) (i : nat) (url : list N) : source :=
  match convert_image w url i with
  | Some jpg_data => SrcBytes jpg_data
  | None => SrcUrl url
  end.

(** A JPEG stream is never empty: it starts with the SOI marker. *)
Definition jpeg_nonempty (w : env) : Prop :=
  forall url i, convert_image w url i <> Some [].

(** The same world with other choices of the scheduler. *)
Definition rescheduled (w : env) (choices : list nat) : env :=
  {| http_get := http_get w;
     convert_image := convert_image w;
     finish_choices := choices |}.

(** [srcs] is the image sequence [image_urls] after conversion: one source
    per URL, at the position of the URL, which is the URL itself or the JPEG
    its conversion gave. *)
Definition normalized (w : env) (image_urls : list (list N)) (srcs : list source)
  : Prop :=
  length srcs = length image_urls /\
  forall i url,
    image_urls !! i = Some url ->
    srcs !! i = Some (SrcUrl url) \/
    exists jpg_data,
      convert_image w url i = Some jpg_data /\ srcs !! i = Some (SrcBytes jpg_data).

(** The image sequence after conversion, element by element: the JPEG
    bytes where the conversion gave bytes that are not empty, the URL
    elsewhere. *)
Definition converted (w : env) (image_urls : list (list N)) : list source :=
  imap (fun i url =>
          match convert_image w url i with
          | Some (b :: jpg_data) => SrcBytes (b :: jpg_data)
          | Some [] | None => SrcUrl url
          end) image_urls.

(** An attempt fails as a strategy when it raises a [ParseException]. *)
Definition strategy_fails
    (decode_RouterData : list N -> outcome Douyin.video.VideoData) (w : env)
    (url : list N) : Prop :=
  forall tr, exists msg,
    fst (Douyin.parse_video decode_RouterData w url tr) = Raise (ParseException msg).

(** What [parse_video] puts into [contents] for a decoded [video_data]. *)
Definition video_contents_are (w : env) (vd : Douyin.video.VideoData)
    (cs : list content) : Prop :=
  (Douyin.video.image_urls vd <> [] ->
   exists srcs,
     normalized w (Douyin.video.image_urls vd) srcs /\ cs = create_image_contents srcs)
  /\ (Douyin.video.image_urls vd = [] ->
      forall u, Douyin.video.video_url vd = Some u -> u <> [] ->
        cs = [VideoContent (PStr u) (Douyin.video.cover_url vd)
                (Some (match Douyin.video.video vd with
                       | Some v => Douyin.video.duration v
                       | None => 0%Z
                       end))])
  /\ (Douyin.video.image_urls vd = [] ->
      Douyin.str_truthy (Douyin.video.video_url vd) = false -> cs = []).

(** The list [parse_discovery] takes the cover of a video from. *)
Definition discovery_cover_urls (preload_data : pyval)
    (nd : XiaoHongShu.Discovery.NoteData.t) (img_urls : list (list N)) : Prop :=
  (truthy preload_data = false /\
   img_urls = XiaoHongShu.Discovery.NoteData.image_urls nd)
  \/ (truthy preload_data = true /\
      exists preload,
        XiaoHongShu.Discovery.NormalNotePreloadData.of_py preload_data = Some preload
        /\ img_urls = XiaoHongShu.Discovery.NormalNotePreloadData.image_urls preload).

(** The marker is named in the message. *)
Definition names_marker (marker message : string) : bool :=
  contains (lit marker) (lit message).

(** A stream list that is [None] or empty. *)
Definition absent_or_empty (l : option (list (list (list N * pyval)))) : Prop :=
  l = None \/ l = Some [].

(** A field of a dict is missing, or its value is not of the type [ty]. *)
Definition missing_or_ill_typed {A} (d : list (list N * pyval)) (name : string)
    (ty : pyval -> option A) : Prop :=
  dict_get d (lit name) = None
  \/ exists v, dict_get d (lit name) = Some v /\ ty v = None.

(** A field of a dict is present with a value that is not of the type [ty]. *)
Definition present_ill_typed {A} (d : list (list N * pyval)) (name : string)
    (ty : pyval -> option A) : Prop :=
  exists v, dict_get d (lit name) = Some v /\ ty v = None.

(** An optional field of a dict gives [x]: the default when the key is
    absent, the value converted to the type [ty] when the key is there. *)
Definition field_or_default {A} (d : list (list N * pyval)) (name : string)
    (ty : pyval -> option A) (default x : A) : Prop :=
  match dict_get d (lit name) with
  | None => x = default
  | Some v => ty v = Some x
  end.

(** The names [NoteDetail] declares. *)
Definition note_detail_fields : list string :=
  ["type"; "title"; "desc"; "user"; "imageList"; "video"]%string.

(** The names [NoteData] declares. *)
Definition note_data_fields : list string :=
  ["type"; "title"; "desc"; "user"; "time"; "lastUpdateTime"; "imageList";
   "video"]%string.

End statements.

Section payload_statements.
Import XiaoHongShu Json.

(** The URL of the first strategy of [_parse_discovery]. *)
Definition explore_url (route : list N) : list N :=
  site ++ str_replace_first (lit "discovery/item") (lit "explore") route.

(** The replacement [_extract_initial_state_json] makes. *)
Definition nulled (s : list N) : list N := str_replace undefined null s.

(** No occurrence of [undefined] starts at one of the first [n] positions. *)
Fixpoint quiet (n : nat) (s : list N) : bool :=
  match n with
  | O => true
  | S k =>
      negb (starts_with undefined s)
      && match s with
         | [] => true
         | _ :: s' => quiet k s'
         end
  end.

(** Two texts that cannot both start one string. *)
Fixpoint compatible (a b : list N) : bool :=
  match a, b with
  | [], _ | _, [] => true
  | x :: a', y :: b' => N.eqb x y && compatible a' b'
  end.

(** No suffix of [w] can start where [null] or [undefined] starts. *)
Fixpoint clear_of (w : list N) : bool :=
  match w with
  | [] => true
  | _ :: w' =>
      negb (compatible w null) && negb (compatible w undefined) && clear_of w'
  end.

(** Where a position of a JSON text lies: outside every string literal,
    inside one, or inside one and just after a backslash. *)
Inductive lex_state := Outside | Inside | Escaped.

(** One character read. *)
Definition next_state (st : lex_state) (c : N) : lex_state :=
  match st with
  | Outside => if N.eqb c 34 then Inside else Outside
  | Inside =>
      if N.eqb c 34 then Outside else if N.eqb c 92 then Escaped else Inside
  | Escaped => Inside
  end.

(** The state after the text [a], read from the state [st]. *)
Definition state_after (st : lex_state) (a : list N) : lex_state :=
  fold_left next_state a st.

(** Every occurrence of [undefined] in the payload starts outside the
    string literals (the values that are strings and the keys of objects). *)
Definition undefined_only_outside_strings (payload : list N) : Prop :=
  forall a b, payload = a ++ undefined ++ b -> state_after Outside a = Outside.

(** The values of a decoded JSON text that are strings, the keys of the
    objects left aside. *)
Fixpoint string_values (v : pyval) : list (list N) :=
  match v with
  | PStr s => [s]
  | PList l => List.flat_map string_values l
  | PDict d => List.flat_map (fun item => string_values (snd item)) d
  | PNone | PBool _ | PInt _ | PFloat _ => []
  end.

(** The same, computed along the text. *)
Fixpoint strings_clean (st : lex_state) (s : list N) : bool :=
  match s with
  | [] => true
  | c :: s' =>
      match st with
      | Outside => true
      | _ => negb (starts_with undefined s)
      end && strings_clean (next_state st c) s'
  end.

End payload_statements.

(** * Worlds used as concrete inputs *)
Module Worlds.
Import Async Base Media.

(** No host can be reached: every request ends in a transport error. *)
Definition offline : env :=
  {| http_get := fun _ => Unreachable;
     convert_image := fun _ _ => None;
     finish_choices := [] |}.

(** Every page answers 403 with an empty body. *)
Definition forbidden : env :=
  {| http_get := fun _ => Response 403 [];
     convert_image := fun _ _ => None;
     finish_choices := [] |}.

(** The shortest JPEG stream: the SOI marker and the EOI marker. *)
Definition jpeg_stub : list byte := [xff; xd8; xff; xd9].

(** Every page answers 200 with the body [body]; the image at index 1
    cannot be converted, the others give [jpeg_stub]; the third task
    finishes first. *)
Definition serving (body : list N) : env :=
  {| http_get := fun _ => Response 200 body;
     convert_image := fun _ i => if Nat.eqb i 1 then None else Some jpeg_stub;
     finish_choices := [2; 0; 1] |}.

(** The explore page carries a state blob that is not JSON. *)
Definition broken_state : env :=
  serving (lit "<script>window.__INITIAL_STATE__={</script>").

(** A route of the discovery kind. *)
Definition sample_route : list N := lit "discovery/item/abc?x=1".

(** A note of the explore page with a title and a text, and no media. *)
Definition text_only_note : list N :=
  litq ("<script>window.__INITIAL_STATE__={'note':{'noteDetailMap':{'abc':{'note':"
        ++ "{'type':'normal','title':'T','desc':'D',"
        ++ "'user':{'nickname':'n','avatar':'a'}}}}}}</script>").

(** A note whose required fields are all there and well typed, and whose
    optional field [imageList] is [null]. *)
Definition null_image_list : list N :=
  litq ("{'type':'normal','title':'T','desc':'D',"
        ++ "'user':{'nickname':'n','avatar':'a'},'imageList':null}").

(** A note with two keys the schema does not declare, and without the
    optional fields. *)
Definition drifted_note : list N :=
  litq ("{'type':'normal','title':'T','desc':'D','likes':12,"
        ++ "'user':{'nickname':'n','avatar':'a','id':'u1'}}").

(** The page that carries the state blob [payload]. *)
Definition state_page (payload : list N) : list N :=
  lit "<script>window.__INITIAL_STATE__=" ++ payload ++ lit "</script>".

(** A state blob with the word inside a string value. *)
Definition quoted_undefined : list N := litq "{'a':'undefined'}".

(** A state blob with two [undefined] values. *)
Definition bare_undefined : list N := litq "{'a':undefined,'b':[1,undefined]}".

(** A Douyin post that has two images and a video. *)
Definition both_kinds : Douyin.video.VideoData :=
  {| Douyin.video.image_urls := [lit "i0"; lit "i1"];
     Douyin.video.video_url := Some (lit "v.mp4");
     Douyin.video.cover_url := Some (lit "c.jpg");
     Douyin.video.video := Some {| Douyin.video.duration := 7 |};
     Douyin.video.author_nickname := lit "n";
     Douyin.video.avatar_url := None;
     Douyin.video.desc := lit "d";
     Douyin.video.create_time := 5 |}.

(** A Douyin post with no image and no video. *)
Definition no_media : Douyin.video.VideoData :=
  {| Douyin.video.image_urls := [];
     Douyin.video.video_url := None;
     Douyin.video.cover_url := None;
     Douyin.video.video := None;
     Douyin.video.author_nickname := lit "n";
     Douyin.video.avatar_url := None;
     Douyin.video.desc := lit "d";
     Douyin.video.create_time := 5 |}.

(** A page with a router blob, and schema decoders that read it as one of
    the posts above. *)
Definition router_page : list N :=
  lit "<script>window._ROUTER_DATA = {}</script>".

Definition reads_both_kinds (text : list N) : outcome Douyin.video.VideoData :=
  Ok both_kinds.
Definition reads_no_media (text : list N) : outcome Douyin.video.VideoData :=
  Ok no_media.

(** A video note of the explore page: one image, an empty h265 list and one
    h264 stream. *)
Definition video_note : list N :=
  litq ("<script>window.__INITIAL_STATE__={'note':{'noteDetailMap':{'abc':{'note':"
        ++ "{'type':'video','title':'T','desc':'D',"
        ++ "'user':{'nickname':'n','avatar':'a'},"
        ++ "'imageList':[{'urlDefault':'c.jpg'}],"
        ++ "'video':{'media':{'stream':{'h265':[],"
        ++ "'h264':[{'masterUrl':'v.mp4'}]}}}}}}}}</script>").

(** The streams of that note. *)
Definition h264_only : XiaoHongShu.Video.t :=
  {| XiaoHongShu.Video.media :=
       {| XiaoHongShu.Media.stream :=
            {| XiaoHongShu.Stream.h264 :=
                 Some [[(lit "masterUrl", PStr (lit "v.mp4"))]];
               XiaoHongShu.Stream.h265 := Some [];
               XiaoHongShu.Stream.av1 := None;
               XiaoHongShu.Stream.h266 := None |} |} |}.

(** A state blob with the word as a key and as a string value. *)
Definition undefined_key : list N := litq "{'undefined':'x'}".

(** A state blob with the word as a key, and no string value at all. *)
Definition undefined_key_only : list N := litq "{'undefined':1}".

(** A note with an image list and without the field [video]. *)
Definition images_only_note : list N :=
  litq ("{'type':'normal','title':'T','desc':'D',"
        ++ "'user':{'nickname':'n','avatar':'a'},"
        ++ "'imageList':[{'urlDefault':'i.jpg'}]}").

(** Schema decoders for the examples, which never reach them. *)
Definition no_router_data (text : list N) : outcome Douyin.video.VideoData :=
  Raise DecodeError.
Definition no_slides_info (text : list N) : outcome (list Douyin.slides.SlidesData) :=
  Raise DecodeError.

End Worlds.

(** * More vocabulary: the conversion block *)

Section conversion_statements.
Import Async Base Media.

(** The log line [_convert_webp_to_jpg(url, index)] writes. *)
Definition conversion_line (w : env) (index : nat) (url : list N) : event :=
  match convert_image w url index with
  | Some jpg_data => LogConverted index (take 60 url) (length jpg_data)
  | None => LogConvertFailed index (take 60 url)
  end.

(** [isinstance(source, bytes)] *)
Definition is_bytes (s : source) : bool :=
  match s with
  | SrcBytes _ => true
  | SrcUrl _ => false
  end.

(** The order in which the [n] conversion tasks of one block finish. *)
Definition finishing_order (w : env) (n : nat) : list nat :=
  completion_order (finish_choices w) (seq 0 n) n.

End conversion_statements.

(** * More vocabulary: the state of a note *)

Section note_statements.
Import Async Base Media XiaoHongShu.

(** The note of [xhs_id] cannot be found in the state [d]: on the way
    [note], [noteDetailMap], [xhs_id], [note] a key is missing, or the way
    ends in a value that counts as false. *)
Definition note_absent (d : list (list N * pyval)) (xhs_id : list N) : Prop :=
  dict_get d (lit "note") = None
  \/ exists note,
       dict_get d (lit "note") = Some (PDict note)
       /\ (dict_get note (lit "noteDetailMap") = None
           \/ exists detail_map,
                dict_get note (lit "noteDetailMap") = Some (PDict detail_map)
                /\ (dict_get detail_map xhs_id = None
                    \/ exists entry,
                         dict_get detail_map xhs_id = Some (PDict entry)
                         /\ (dict_get entry (lit "note") = None
                             \/ exists note_data,
                                  dict_get entry (lit "note") = Some note_data
                                  /\ truthy note_data = false))).

(** Two worlds in which every image conversion ends the same way. *)
Definition same_conversions (w w' : env) : Prop :=
  forall url i, convert_image w url i = convert_image w' url i.

End note_statements.

Section outcome_statements.
Import Async.

(** Two worlds in which every page request has the same answer. *)
Definition same_answers (w w' : env) : Prop :=
  forall r, http_get w r = http_get w' r.

(** Two coroutines that end the same way, whatever the traces they start
    from. *)
Definition same_outcome {A} (m m' : coro A) : Prop :=
  forall tr tr', fst (m tr) = fst (m' tr').

End outcome_statements.

(** * More worlds *)

Module MoreWorlds.
Import Async Base Media.

(** Every page answers with the status [status_code] and the body [body];
    the conversions are those of [Worlds.serving]. *)
Definition answering (status_code : N) (body : list N) : env :=
  {| http_get := fun _ => Response status_code body;
     convert_image := fun _ i => if Nat.eqb i 1 then None else Some Worlds.jpeg_stub;
     finish_choices := [] |}.

(** A state in which the map of notes has no entry. *)
Definition empty_detail_map : list N :=
  litq ("<script>window.__INITIAL_STATE__="
        ++ "{'note':{'noteDetailMap':{}}}</script>").

(** A discovery page with a video note that has no image at all, and no
    preload data. *)
Definition coverless_video_page : list N :=
  litq ("<script>window.__INITIAL_STATE__={'noteData':{'data':{'noteData':"
        ++ "{'type':'video','title':'T','desc':'D',"
        ++ "'user':{'nickName':'n','avatar':'a'},"
        ++ "'time':1700000000123,'lastUpdateTime':1700000000123,"
        ++ "'video':{'media':{'stream':{'h264':[{'masterUrl':'v.mp4'}]}}}}}}}"
        ++ "</script>").

(** A discovery page with a video note that has an image of its own, and
    preload data with one image, whose large URL is the empty string. *)
Definition preload_video_page : list N :=
  litq ("<script>window.__INITIAL_STATE__={'noteData':{"
        ++ "'normalNotePreloadData':{'title':'T','desc':'D',"
        ++ "'imagesList':[{'url':'p.jpg','urlSizeLarge':''}]},"
        ++ "'data':{'noteData':"
        ++ "{'type':'video','title':'T','desc':'D',"
        ++ "'user':{'nickName':'n','avatar':'a'},"
        ++ "'time':1700000000123,'lastUpdateTime':1700000000123,"
        ++ "'imageList':[{'url':'own.jpg'}],"
        ++ "'video':{'media':{'stream':{'h264':[{'masterUrl':'v.mp4'}]}}}}}}}"
        ++ "</script>").

End MoreWorlds.

(** * More vocabulary: pages *)

Section page_statements.

(** However the text goes on after [pre ++ p], no occurrence of [p] starts
    inside [pre]: the first occurrence of [p] is the one after [pre]. *)
Definition first_after (p pre : list N) : bool :=
  negb (contains p (pre ++ take (length p - 1) p)).

(** Every character of [s] is white space. *)
Definition all_space (s : list N) : bool := forallb is_space s.

(** [s] has no line feed. *)
Definition one_line (s : list N) : bool :=
  forallb (fun c => negb (N.eqb c 10)) s.

(** The marker of the Douyin page and the marker of the Xiaohongshu page,
    as the two regular expressions spell them. *)
Definition router_marker : list N := lit "window._ROUTER_DATA".
Definition state_marker : list N := lit "window.__INITIAL_STATE__=".

End page_statements.

(** * The patterns of the [@handle] decorators

    Each pattern is tried at one position of the text, as a regular
    expression is; the result holds the groups the handler reads. *)

Module Handlers.

(** The longest run of characters of a class at the start of [s]: what a
    greedy [+] or [*] over a character class takes first. *)
Fixpoint run (class : N -> bool) (s : list N) : list N :=
  match s with
  | c :: s' => if class c then c :: run class s' else []
  | [] => []
  end.

(** [[0-9a-zA-Z]] *)
Definition is_alnum (c : N) : bool :=
  (N.leb 48 c && N.leb c 57) || (N.leb 97 c && N.leb c 122)
  || (N.leb 65 c && N.leb c 90).

(** [[A-Za-z0-9._%&+=/#@-]] *)
Definition is_route_char (c : N) : bool :=
  is_alnum c
  || N.eqb c 46 || N.eqb c 95 || N.eqb c 37 || N.eqb c 38 || N.eqb c 43
  || N.eqb c 61 || N.eqb c 47 || N.eqb c 35 || N.eqb c 64 || N.eqb c 45.

Definition slides : list N := lit "slides".
Definition video : list N := lit "video".
Definition note : list N := lit "note".

Section douyin.

(** [\d] in a [str] pattern: the decimal digits of Unicode (category Nd), a
    table of the [re] module. *)
Variable is_decimal : N -> bool.

(** [<prefix>(?P<ty>a|b|c)/(?P<vid>\d+)] tried at the start of [s]; the
    result is the groups [ty] and [vid].  The alternatives start with
    different letters, so at most one of them can be taken; [\d+] is greedy,
    and nothing follows it. *)
Definition main_link (prefix : list N) (types : list (list N)) (s : list N)
  : option (list N * list N) :=
  if starts_with prefix s then
    match List.find (fun ty => starts_with ty (drop (length prefix) s)) types with
    | Some ty =>
        match drop (length ty) (drop (length prefix) s) with
        | c :: s' =>
            if N.eqb c 47 then
              match run is_decimal s' with
              | [] => None
              | vid => Some (ty, vid)
              end
            else None
        | [] => None
        end
    | None => None
    end
  else None.

(** [douyin\.com/(?P<ty>video|note)/(?P<vid>\d+)] *)
Definition douyin_match : list N -> option (list N * list N) :=
  main_link (lit "douyin.com/") [video; note].

(** [iesdouyin\.com/share/(?P<ty>slides|video|note)/(?P<vid>\d+)] *)
Definition iesdouyin_match : list N -> option (list N * list N) :=
  main_link (lit "iesdouyin.com/share/") [slides; video; note].

(** [m\.douyin\.com/share/(?P<ty>slides|video|note)/(?P<vid>\d+)] *)
Definition m_douyin_match : list N -> option (list N * list N) :=
  main_link (lit "m.douyin.com/share/") [slides; video; note].

(** [jingxuan\.douyin.com/m/(?P<ty>slides|video|note)/(?P<vid>\d+)]: the
    dot before [com] is not escaped, and stands for any character but a
    line feed. *)
Definition jingxuan_match (s : list N) : option (list N * list N) :=
  if starts_with (lit "jingxuan.douyin") s then
    match drop 15 s with
    | c :: s' =>
        if N.eqb c 10 then None
        else main_link (lit "com/m/") [slides; video; note] s'
    | [] => None
    end
  else None.

End douyin.

(** [<prefix>(?P<xhs_id>[0-9a-zA-Z]+)\?[A-Za-z0-9._%&+=/#@-]*] tried at the
    start of [s]; the result is group 0 and the group [xhs_id].  Both runs
    are greedy; a question mark is not in the first class, so giving
    characters back never helps. *)
Definition note_link (prefix : list N) (s : list N) : option (list N * list N) :=
  if starts_with prefix s then
    match run is_alnum (drop (length prefix) s) with
    | [] => None
    | xhs_id =>
        match drop (length xhs_id) (drop (length prefix) s) with
        | c :: query =>
            if N.eqb c 63
            then Some (prefix ++ xhs_id ++ 63%N :: run is_route_char query, xhs_id)
            else None
        | [] => None
        end
    end
  else None.

(** [explore/(?P<xhs_id>[0-9a-zA-Z]+)\?[A-Za-z0-9._%&+=/#@-]*] *)
Definition explore_match : list N -> option (list N * list N) :=
  note_link (lit "explore/").

(** [discovery/item/(?P<xhs_id>[0-9a-zA-Z]+)\?[A-Za-z0-9._%&+=/#@-]*] *)
Definition discovery_match : list N -> option (list N * list N) :=
  note_link (lit "discovery/item/").

End Handlers.

(** * [_create_jpg_task]: the temporary files

    Both parser classes define the method with the same body.  It touches
    the temporary directory and one attribute of the parser object; the
    name of the new file is the choice of [tempfile], and the file system is
    taken to accept the write. *)

Module TempFiles.
Import Base Media.

Record state := {
  (** the files of the temporary directory: path and content *)
  files : list (list N * list byte);
  (** the attribute [_temp_files] of the parser object; [None] as long as
      [hasattr(self, '_temp_files')] is false *)
  _temp_files : option (list (list N))
}.

(** [f.name] of [NamedTemporaryFile(suffix='.jpg', delete=False)], where
    [stem] is the directory, the prefix and the random characters that
    [tempfile] picked. *)
Definition temp_name (stem : list N) : list N := stem ++ lit ".jpg".

(** [open(path, 'rb').read()]: the content of the file at [path]. *)
Fixpoint read (fs : list (list N * list byte)) (path : list N)
  : option (list byte) :=
  match fs with
  | [] => None
  | (p, content) :: fs' => if str_eqb p path then Some content else read fs' path
  end.

(** [_create_jpg_task(jpg_data)]: the path it returns and the state it
    leaves. *)
Definition _create_jpg_task (stem : list N) (jpg_data : list byte) (st : state)
  : list N * state :=
  let temp_path := temp_name stem in
  (temp_path,
   {| files := files st ++ [(temp_path, jpg_data)];
      _temp_files := Some (default [] (_temp_files st) ++ [temp_path]) |}).

(** The data of the tasks that [create_image_contents] starts with
    [asyncio.create_task], in the order of [image_sources]. *)
Definition jpg_tasks (image_sources : list source) : list (list byte) :=
  omap (fun source => match source with
                      | SrcBytes jpg_data => Some jpg_data
                      | SrcUrl _ => None
                      end) image_sources.

(** The tasks run one after the other, in the order in which they were
    created (none of them has an [await] in its body); [stems] holds the
    choices of [tempfile], one per task. *)
Fixpoint run_jpg_tasks (stems : list (list N)) (tasks : list (list byte))
    (st : state) : list (list N) * state :=
  match stems, tasks with
  | stem :: stems', jpg_data :: tasks' =>
      let (temp_path, st1) := _create_jpg_task stem jpg_data st in
      let (paths, st2) := run_jpg_tasks stems' tasks' st1 in
      (temp_path :: paths, st2)
  | _, _ => ([], st)
  end.

(** The names [tempfile] picks are new: none is the path of a file that is
    there, and no two are the same. *)
Definition fresh (stems : list (list N)) (st : state) : Prop :=
  NoDup (map temp_name stems)
  /\ forall stem, In stem stems -> read (files st) (temp_name stem) = None.

End TempFiles.

(** * Properties *)

(** ** Text *)

Section text_facts.

Lemma starts_with_app (p r : list N) : starts_with p (p ++ r) = true.
Proof. induction p as [|a p IH]; [done |]. cbn. by rewrite N.eqb_refl. Qed.

Lemma starts_with_inv (p s : list N) :
  starts_with p s = true -> exists r, s = p ++ r.
Proof.
  revert s. induction p as [|a p IH]; intros s H; [by exists s |].
  destruct s as [|b s]; [done |]. cbn in H.
  apply andb_true_iff in H as [Hab Hps]. apply N.eqb_eq in Hab as ->.
  destruct (IH s Hps) as [r ->]. by exists r.
Qed.

Lemma starts_with_prefix (p q s : list N) :
  starts_with (p ++ q) s = true -> starts_with p s = true.
Proof.
  intros [r ->]%starts_with_inv. rewrite <- app_assoc. apply starts_with_app.
Qed.

Lemma contains_here (p s : list N) :
  starts_with p s = true -> contains p s = true.
Proof. intros H. destruct s; cbn [contains]; by rewrite H. Qed.

Lemma contains_later (p : list N) (c : N) (s : list N) :
  contains p s = true -> contains p (c :: s) = true.
Proof. intros H. cbn [contains]. rewrite H. apply orb_true_r. Qed.

(** [p in s] holds exactly when [p] occurs in [s]. *)
Lemma contains_occurs (p s : list N) : contains p s = true <-> occurs p s.
Proof.
  split.
  - induction s as [|c s IH]; cbn [contains]; intros H.
    + rewrite orb_false_r in H. apply starts_with_inv in H as [r ->].
      by exists [], r.
    + apply orb_true_iff in H as [H|H].
      * apply starts_with_inv in H as [r ->]. by exists [], r.
      * destruct (IH H) as (a & b & ->). by exists (c :: a), b.
  - intros (a & b & ->). induction a as [|c a IH].
    + apply contains_here. apply (starts_with_app p b).
    + apply (contains_later p c (a ++ p ++ b)), IH.
Qed.

Lemma router_data_search_contains (s g : list N) :
  Re.router_data_search s = Some g ->
  contains (lit "window._ROUTER_DATA") s = true.
Proof.
  induction s as [|c s IH]; cbn [Re.router_data_search].
  - intros H. vm_compute in H. discriminate H.
  - destruct (Re.router_data_match (c :: s)) eqn:Hm.
    + intros _. apply contains_here. unfold Re.router_data_match in Hm.
      by destruct (starts_with _ (c :: s)).
    + intros H. by apply contains_later, IH.
Qed.

Lemma initial_state_search_contains (s g : list N) :
  Re.initial_state_search s = Some g ->
  contains (lit "window.__INITIAL_STATE__") s = true.
Proof.
  induction s as [|c s IH]; cbn [Re.initial_state_search].
  - intros H. vm_compute in H. discriminate H.
  - destruct (Re.initial_state_match (c :: s)) eqn:Hm.
    + intros _. apply contains_here. unfold Re.initial_state_match in Hm.
      destruct (starts_with _ (c :: s)) eqn:Hs; [| done].
      by apply (starts_with_prefix _ (lit "=")).
    + intros H. by apply contains_later, IH.
Qed.

End text_facts.

(** ** Coroutines and [gather] *)

Section gather_facts.
Import Async.
Context {A : Type}.

Lemma completion_order_perm (fuel : nat) :
  forall choices running : list nat,
    length running <= fuel ->
    completion_order choices running fuel ≡ₚ running.
Proof.
  induction fuel as [|fuel IH]; intros choices running Hlen; simpl.
  - destruct running; [done | simpl in Hlen; lia].
  - destruct running as [|r running'] eqn:Hr; [done |].
    rewrite <- Hr in *.
    assert (Hpos : length running <> 0) by (rewrite Hr; simpl; lia).
    pose proof (Nat.mod_upper_bound (hd 0 choices) (length running) Hpos) as Hk.
    destruct (lookup_lt_is_Some_2 running _ Hk) as [i Hi].
    rewrite Hi.
    etrans; [| symmetry; apply (delete_Permutation running _ i Hi)].
    constructor. apply IH.
    pose proof (length_delete running _ ltac:(eauto)) as Hd.
    rewrite Hd. lia.
Qed.

Lemma finish_in_order_slots (tasks : list (coro A)) (vals : list A) :
  returns tasks vals ->
  forall (order : list nat) (slots : list (option A)) (tr : list event),
    length slots = length tasks ->
    exists slots' tr',
      finish_in_order tasks order slots tr = (Ok slots', tr') /\
      length slots' = length tasks /\
      forall j, j < length tasks ->
        slots' !! j = if decide (j ∈ order) then Some (vals !! j) else slots !! j.
Proof.
  intros [Hlen Hret] order.
  induction order as [|i rest IH]; intros slots tr Hslots;
    cbn [finish_in_order].
  - exists slots, tr. split; [done |]. split; [done |].
    intros j _. rewrite decide_False; [done | apply not_elem_of_nil].
  - destruct (tasks !! i) as [task|] eqn:Hi.
    + destruct (Hret i task Hi) as (v & Hv & Hrun).
      unfold bind. specialize (Hrun tr).
      destruct (task tr) as [[a|e] tr1] eqn:Htask; simpl in Hrun; [|done].
      injection Hrun as ->.
      destruct (IH (<[i := Some v]> slots) tr1) as (slots' & tr' & Hfin & Hl & Hlook).
      { by rewrite length_insert. }
      exists slots', tr'. split; [done |]. split; [done |].
      intros j Hj. rewrite (Hlook j Hj).
      apply lookup_lt_Some in Hi.
      destruct (decide (j = i)) as [->|Hne].
      * rewrite (decide_True (P := i ∈ i :: rest)) by left.
        destruct (decide (i ∈ rest)); [done |].
        rewrite list_lookup_insert_eq by lia. by rewrite Hv.
      * rewrite list_lookup_insert_ne by done.
        destruct (decide (j ∈ rest)) as [Hin|Hin].
        -- rewrite decide_True; [done | by right].
        -- rewrite decide_False; [done |].
           intros [->|Hin']%elem_of_cons; done.
    + destruct (IH slots tr Hslots) as (slots' & tr' & Hfin & Hl & Hlook).
      exists slots', tr'. split; [done |]. split; [done |].
      intros j Hj. rewrite (Hlook j Hj).
      apply lookup_ge_None in Hi.
      destruct (decide (j ∈ rest)) as [Hin|Hin].
      * rewrite decide_True; [done | by right].
      * rewrite decide_False; [done |].
        intros [->|Hin']%elem_of_cons; [lia | done].
Qed.

(** [gather] hands back the results in the order of the tasks, whichever
    task finishes first. *)
Lemma gather_returns (tasks : list (coro A)) (vals : list A)
    (choices : list nat) (tr : list event) :
  returns tasks vals ->
  fst (gather choices tasks tr) = Ok vals.
Proof.
  intros Hret. pose proof Hret as [Hlen _].
  unfold gather, bind.
  destruct (finish_in_order_slots tasks vals Hret
              (completion_order choices (seq 0 (length tasks)) (length tasks))
              (replicate (length tasks) None) tr)
    as (slots' & tr' & -> & Hl & Hlook).
  { by rewrite length_replicate. }
  simpl. f_equal.
  assert (Hslots : slots' = Some <$> vals).
  { apply list_eq. intros j.
    destruct (decide (j < length tasks)) as [Hj|Hj].
    - rewrite (Hlook j Hj). rewrite decide_True.
      + rewrite list_lookup_fmap.
        destruct (lookup_lt_is_Some_2 vals j ltac:(lia)) as [v ->]. done.
      + rewrite completion_order_perm by (rewrite length_seq; lia).
        apply elem_of_seq. lia.
    - rewrite lookup_ge_None_2 by lia.
      rewrite lookup_ge_None_2; [done |]. rewrite length_fmap. lia. }
  rewrite Hslots. clear.
  induction vals as [|v vals IH]; [done |]. cbn. by f_equal.
Qed.

End gather_facts.

(** ** The conversion block *)

Section conversion.
Import Async Base Media.

(** A list whose keys already ascend is left as it is by the sort. *)
Lemma sort_by_key_sorted {A} (key : A -> nat) (l : list A) :
  (forall i j x y, i < j -> l !! i = Some x -> l !! j = Some y -> key x <= key y) ->
  sort_by_key key l = l.
Proof.
  induction l as [|x l IH]; intros Hsorted; [done |].
  cbn [sort_by_key]. rewrite IH.
  - destruct l as [|y l]; [done |]. cbn [insert_by_key].
    assert (Hle : key x <= key y) by (apply (Hsorted 0 1); [lia | done | done]).
    apply Nat.leb_le in Hle. by rewrite Hle.
  - intros i j a b Hij Ha Hb. apply (Hsorted (S i) (S j)); [lia | done | done].
Qed.

Lemma collect_sources_ok (image_urls : list (list N)) :
  forall (results : list (nat * option (list byte))) (acc : list source) (n : nat),
    Forall (fun r => r.1 < length image_urls) results ->
    exists n',
      collect_sources image_urls results acc n
      = Ok (acc ++ map (picked image_urls) results, n').
Proof.
  induction results as [|[idx jpg] results IH]; intros acc n Hidx.
  - exists n. cbn [collect_sources map]. by rewrite app_nil_r.
  - apply Forall_cons in Hidx as [Hlt Hidx]. cbn [collect_sources map].
    unfold picked at 1. cbn [fst snd].
    destruct (lookup_lt_is_Some_2 image_urls idx Hlt) as [url Hurl].
    rewrite Hurl. cbn [default].
    destruct (jpg_truthy jpg).
    + destruct (IH (acc ++ [SrcBytes (default [] jpg)]) (S n) Hidx) as [n' ->].
      exists n'. rewrite <- app_assoc. reflexivity.
    + destruct (IH (acc ++ [SrcUrl url]) n Hidx) as [n' ->].
      exists n'. rewrite <- app_assoc. reflexivity.
Qed.

Lemma conversion_tasks_return (w : env) (image_urls : list (list N)) :
  returns (imap (fun i img_url => _convert_webp_to_jpg w img_url i) image_urls)
          (imap (fun i img_url => (i, convert_image w img_url i)) image_urls).
Proof.
  split; [by rewrite !length_imap |].
  intros i task Hi. rewrite list_lookup_imap in Hi.
  destruct (image_urls !! i) as [url|] eqn:Hurl; [|done].
  injection Hi as <-.
  exists (i, convert_image w url i). split.
  - by rewrite list_lookup_imap, Hurl.
  - intros tr. unfold _convert_webp_to_jpg.
    by destruct (convert_image w url i).
Qed.

(** The block always ends, with one source per URL. *)
Lemma convert_images_picked (w : env) (image_urls : list (list N))
    (tr : list event) :
  fst (convert_images w image_urls tr)
  = Ok (imap (fun i url => picked image_urls (i, convert_image w url i)) image_urls).
Proof.
  unfold convert_images, bind at 1. cbn [emit].
  unfold bind at 1.
  pose proof (gather_returns _ _ (finish_choices w) (tr ++ [LogFound (length image_urls)])
                (conversion_tasks_return w image_urls)) as Hg.
  destruct (gather _ _ _) as [res tr1]. cbn [fst] in Hg. subst res.
  rewrite sort_by_key_sorted.
  2:{ intros i j x y Hij Hx Hy. rewrite list_lookup_imap in Hx, Hy.
      destruct (image_urls !! i); [|done]. destruct (image_urls !! j); [|done].
      injection Hx as <-. injection Hy as <-. cbn. lia. }
  destruct (collect_sources_ok image_urls
              (imap (fun i img_url => (i, convert_image w img_url i)) image_urls) [] 0)
    as [n' Hc].
  { apply Forall_forall. intros r [i Hr]%list_elem_of_lookup.
    rewrite list_lookup_imap in Hr.
    destruct (image_urls !! i) eqn:Hurl; [|done].
    injection Hr as <-. cbn. by apply lookup_lt_Some in Hurl. }
  unfold bind, lift. rewrite Hc. cbn. f_equal.
  apply list_eq. intros i. rewrite list_lookup_fmap, !list_lookup_imap.
  by destruct (image_urls !! i).
Qed.

Lemma convert_images_sources (w : env) (image_urls : list (list N))
    (tr : list event) :
  jpeg_nonempty w ->
  fst (convert_images w image_urls tr) = Ok (imap (expected_source w) image_urls).
Proof.
  intros Hjpeg. rewrite convert_images_picked. f_equal.
  apply imap_ext. intros i url Hurl.
  unfold picked, expected_source. cbn [fst snd]. rewrite Hurl.
  destruct (convert_image w url i) as [[|b jpg]|] eqn:Hconv; [|done|done].
  by apply Hjpeg in Hconv.
Qed.

(** C1.  For every list of N image URLs handed to the conversion block of
    [parse_video], [parse_slides], [parse_explore] and [parse_discovery],
    with an arbitrary subset of the conversions failing, [image_sources] has
    length N, its element i is the JPEG bytes when the conversion of URL i
    succeeded and the URL [image_urls[i]] when it failed, and this does not
    depend on the order in which the conversion tasks finish.  (A JPEG
    stream is not empty.) *)
Theorem C1_image_sources_keep_input_order (w : env)
    (image_urls : list (list N)) (tr : list event) :
  jpeg_nonempty w ->
  exists image_sources,
    fst (convert_images w image_urls tr) = Ok image_sources
    /\ length image_sources = length image_urls
    /\ (forall i url,
          image_urls !! i = Some url ->
          image_sources !! i
          = Some (match convert_image w url i with
                  | Some jpg_data => SrcBytes jpg_data
                  | None => SrcUrl url
                  end))
    /\ (forall choices,
          fst (convert_images (rescheduled w choices) image_urls tr)
          = Ok image_sources).
Proof.
  intros Hjpeg. exists (imap (expected_source w) image_urls).
  split; [by apply convert_images_sources |].
  split; [by rewrite length_imap |]. split.
  - intros i url Hurl. by rewrite list_lookup_imap, Hurl.
  - intros choices.
    by rewrite (convert_images_sources (rescheduled w choices) image_urls tr Hjpeg).
Qed.

End conversion.

(** ** Traces: page requests *)

Section traces.
Import Async Base Media.

Lemma requests_app (tr1 tr2 : list event) :
  requests (tr1 ++ tr2) = requests tr1 ++ requests tr2.
Proof. unfold requests. apply omap_app. Qed.

Lemma logs_only_ret {A} (a : A) : logs_only (ret a).
Proof. intros tr. exists []. by rewrite app_nil_r. Qed.

Lemma logs_only_raise {A} (e : exn) : logs_only (@raise A e).
Proof. intros tr. exists []. by rewrite app_nil_r. Qed.

Lemma logs_only_lift {A} (o : outcome A) : logs_only (lift o).
Proof. intros tr. exists []. by rewrite app_nil_r. Qed.

Lemma logs_only_bind {A B} (m : coro A) (k : A -> coro B) :
  logs_only m -> (forall a, logs_only (k a)) -> logs_only (bind m k).
Proof.
  intros Hm Hk tr. unfold bind.
  destruct (Hm tr) as (evs1 & H1 & Hq1).
  destruct (m tr) as [[a|e] tr1]; cbn [snd] in *; subst tr1.
  - destruct (Hk a (tr ++ evs1)) as (evs2 & H2 & Hq2).
    exists (evs1 ++ evs2). rewrite H2, requests_app, Hq1, Hq2.
    by rewrite app_assoc.
  - by exists evs1.
Qed.

Lemma logs_only_finish_in_order {A} (tasks : list (coro A)) :
  Forall logs_only tasks ->
  forall order slots, logs_only (finish_in_order tasks order slots).
Proof.
  intros Htasks order.
  induction order as [|i rest IH]; intros slots; cbn [finish_in_order].
  - apply logs_only_ret.
  - destruct (tasks !! i) as [task|] eqn:Hi; [|apply IH].
    apply logs_only_bind; [|intros a; apply IH].
    eapply Forall_lookup_1; eauto.
Qed.

Lemma logs_only_gather {A} (choices : list nat) (tasks : list (coro A)) :
  Forall logs_only tasks -> logs_only (gather choices tasks).
Proof.
  intros Htasks. unfold gather.
  apply logs_only_bind; [by apply logs_only_finish_in_order |].
  intros slots. apply logs_only_ret.
Qed.

Lemma logs_only_convert (w : env) (url : list N) (i : nat) :
  logs_only (_convert_webp_to_jpg w url i).
Proof.
  intros tr. unfold _convert_webp_to_jpg.
  destruct (convert_image w url i); eexists [_]; done.
Qed.

Lemma logs_only_convert_images (w : env) (image_urls : list (list N)) :
  logs_only (convert_images w image_urls).
Proof.
  unfold convert_images.
  apply logs_only_bind; [intros tr; by eexists [_] |]. intros _.
  apply logs_only_bind.
  { apply logs_only_gather, Forall_forall.
    intros task [i Hi]%list_elem_of_lookup. rewrite list_lookup_imap in Hi.
    destruct (image_urls !! i); [|done]. injection Hi as <-.
    apply logs_only_convert. }
  intros results. apply logs_only_bind; [apply logs_only_lift |].
  intros collected. apply logs_only_bind; [intros tr; by eexists [_] |].
  intros _. apply logs_only_ret.
Qed.

Lemma one_request_intro {A} (r : request) (k : coro A) :
  logs_only k -> one_request r (bind (emit (Requested r)) (fun _ => k)).
Proof.
  intros Hk tr. unfold bind, emit.
  destruct (Hk (tr ++ [Requested r])) as (evs & -> & Hq).
  exists evs. by rewrite <- app_assoc.
Qed.

Lemma one_request_bind {A B} (r : request) (m : coro A) (k : A -> coro B) :
  one_request r m -> (forall a, logs_only (k a)) -> one_request r (bind m k).
Proof.
  intros Hm Hk tr. unfold bind.
  destruct (Hm tr) as (evs1 & H1 & Hq1).
  destruct (m tr) as [[a|e] tr1]; cbn [snd] in *; subst tr1.
  - destruct (Hk a (tr ++ Requested r :: evs1)) as (evs2 & -> & Hq2).
    exists (evs1 ++ evs2). rewrite requests_app, Hq1, Hq2.
    split; [| done]. by rewrite <- app_assoc.
  - by exists evs1.
Qed.

Lemma one_request_requests {A} (r : request) (m : coro A) (tr : list event) :
  one_request r m -> requests (snd (m tr)) = requests tr ++ [r].
Proof.
  intros Hm. destruct (Hm tr) as (evs & -> & Hq).
  rewrite requests_app. f_equal.
  change (requests (Requested r :: evs)) with (r :: requests evs).
  by rewrite Hq.
Qed.

End traces.

Create HintDb logs_only.

Ltac logs_only_step :=
  match goal with
  | |- logs_only (Async.ret _) => apply logs_only_ret
  | |- logs_only (Async.raise _) => apply logs_only_raise
  | |- logs_only (Async.lift _) => apply logs_only_lift
  | |- logs_only (Async.emit _) => intros ?; by eexists [_]
  | |- logs_only (Media.convert_images _ _) => apply logs_only_convert_images
  | |- logs_only (Async.bind _ _) => apply logs_only_bind; [| intros ?]
  | |- logs_only (if ?b then _ else _) => destruct b
  | |- logs_only (match ?x with _ => _ end) => destruct x
  | |- logs_only _ => solve [eauto with logs_only]
  end.

(** ** The Douyin fallback chain *)

Section douyin_chain.
Import Async Base Media Douyin.

Variable decode_RouterData : list N -> outcome video.VideoData.
Variable decode_SlidesInfo : list N -> outcome (list slides.SlidesData).
Variable w : env.

Abbreviation parse_video := (Douyin.parse_video decode_RouterData w).
Abbreviation try_urls := (Douyin.try_urls decode_RouterData w).
Abbreviation _parse_douyin := (Douyin._parse_douyin decode_RouterData decode_SlidesInfo w).

Lemma logs_only_video_contents (vd : video.VideoData) :
  logs_only (video_contents w vd).
Proof. unfold video_contents. repeat logs_only_step. Qed.

#[local] Hint Resolve logs_only_video_contents : logs_only.

Lemma logs_only_video_result (vd : video.VideoData) :
  logs_only (video_result w vd).
Proof. unfold video_result. repeat logs_only_step. Qed.

Lemma fetch_video_data_one_request (url : list N) :
  one_request (video_request url) (fetch_video_data decode_RouterData w url).
Proof.
  unfold fetch_video_data. apply one_request_intro. repeat logs_only_step.
Qed.

(** One attempt sends one request, whatever its outcome. *)
Lemma parse_video_one_request (url : list N) :
  one_request (video_request url) (parse_video url).
Proof.
  apply one_request_bind;
    [apply fetch_video_data_one_request | apply logs_only_video_result].
Qed.

Lemma parse_video_requests (url : list N) (tr : list event) :
  requests (snd (parse_video url tr)) = requests tr ++ [video_request url].
Proof. apply one_request_requests, parse_video_one_request. Qed.

Lemma try_urls_all_fail (urls : list (list N)) :
  Forall (strategy_fails decode_RouterData w) urls ->
  forall tr,
    fst (try_urls urls tr) = Raise (ParseException all_failed_message) /\
    requests (snd (try_urls urls tr)) = requests tr ++ map video_request urls.
Proof.
  induction 1 as [|url rest Hfail _ IH]; intros tr; cbn [Douyin.try_urls map].
  - by rewrite app_nil_r.
  - unfold try_except. destruct (Hfail tr) as [msg Hmsg].
    pose proof (parse_video_requests url tr) as Hreq.
    destruct (parse_video url tr) as [[r|e] tr1]; cbn [fst snd] in *; [done |].
    injection Hmsg as ->. cbn [is_ParseException]. unfold bind, emit.
    destruct (IH (tr1 ++ [LogParseFailed url (ParseException msg)])) as [-> ->].
    split; [done |].
    by rewrite requests_app, Hreq, app_nil_r, <- app_assoc.
Qed.

(** The loop raises its own [ParseException] only after the last URL. *)
Lemma try_urls_raises_last (urls : list (list N)) :
  forall tr msg,
    fst (try_urls urls tr) = Raise (ParseException msg) ->
    msg = all_failed_message /\
    requests (snd (try_urls urls tr)) = requests tr ++ map video_request urls.
Proof.
  induction urls as [|url rest IH]; intros tr msg; cbn [Douyin.try_urls map].
  - intros [= <-]. by rewrite app_nil_r.
  - unfold try_except.
    pose proof (parse_video_requests url tr) as Hreq.
    destruct (parse_video url tr) as [[r|e] tr1]; cbn [fst snd] in *; [done |].
    destruct e; cbn [is_ParseException fst]; try done.
    unfold bind, emit. intros Hrest.
    destruct (IH _ _ Hrest) as [-> ->]. split; [done |].
    by rewrite requests_app, Hreq, app_nil_r, <- app_assoc.
Qed.

(** The first success ends the loop. *)
Lemma try_urls_first_success (url : list N) (rest : list (list N))
    (tr : list event) (r : ParseResult) :
  fst (parse_video url tr) = Ok r ->
  try_urls (url :: rest) tr = parse_video url tr.
Proof.
  intros Hok. cbn [Douyin.try_urls]. unfold try_except.
  by destruct (parse_video url tr) as [[r'|e] tr1].
Qed.

(** A [ParseException] is caught and logged, and the loop goes on. *)
Lemma try_urls_next (url : list N) (rest : list (list N)) (tr : list event)
    (msg : string) :
  fst (parse_video url tr) = Raise (ParseException msg) ->
  try_urls (url :: rest) tr
  = try_urls rest (snd (parse_video url tr)
                   ++ [LogParseFailed url (ParseException msg)]).
Proof.
  intros Hraise. cbn [Douyin.try_urls]. unfold try_except.
  destruct (parse_video url tr) as [[r'|e] tr1]; cbn [fst snd] in *; [done |].
  by injection Hraise as ->.
Qed.

(** Any other exception leaves the loop at once. *)
Lemma try_urls_propagates (url : list N) (rest : list (list N))
    (tr : list event) (e : exn) :
  fst (parse_video url tr) = Raise e ->
  is_ParseException e = false ->
  try_urls (url :: rest) tr = parse_video url tr.
Proof.
  intros Hraise He. cbn [Douyin.try_urls]. unfold try_except.
  destruct (parse_video url tr) as [[r'|e'] tr1]; cbn [fst] in *; [done |].
  injection Hraise as ->. by rewrite He.
Qed.

Lemma not_slides (ty : list N) :
  ty <> lit "slides" -> str_eqb ty (lit "slides") = false.
Proof. intros Hty. unfold str_eqb. by rewrite bool_decide_eq_false. Qed.

End douyin_chain.

(** ** The Xiaohongshu fallback chain *)

Section xhs_chain.
Import Async Base Media XiaoHongShu.

Variable w : env.

Lemma logs_only_image_contents (image_urls : list (list N)) :
  logs_only (image_contents w image_urls).
Proof. unfold image_contents. repeat logs_only_step. Qed.

#[local] Hint Resolve logs_only_image_contents : logs_only.

Lemma logs_only_explore_result (nd : Explore.NoteDetail.t) :
  logs_only (explore_result w nd).
Proof. unfold explore_result. repeat logs_only_step. Qed.

Lemma logs_only_discovery_result (preload : pyval) (nd : Discovery.NoteData.t) :
  logs_only (discovery_result w preload nd).
Proof. unfold discovery_result. repeat logs_only_step. Qed.

Lemma parse_explore_one_request (url xhs_id : list N) :
  one_request (explore_request url) (parse_explore w url xhs_id).
Proof.
  apply one_request_bind; [| apply logs_only_explore_result].
  unfold explore_note_detail. apply one_request_intro. repeat logs_only_step.
Qed.

Lemma parse_explore_requests (url xhs_id : list N) (tr : list event) :
  requests (snd (parse_explore w url xhs_id tr)) = requests tr ++ [explore_request url].
Proof. apply one_request_requests, parse_explore_one_request. Qed.

Lemma parse_discovery_one_request (url : list N) :
  one_request (discovery_request url) (parse_discovery w url).
Proof.
  apply one_request_bind; [| intros ?; apply logs_only_discovery_result].
  unfold discovery_note_data. apply one_request_intro. repeat logs_only_step.
Qed.

Lemma parse_discovery_requests (url : list N) (tr : list event) :
  requests (snd (parse_discovery w url tr)) = requests tr ++ [discovery_request url].
Proof. apply one_request_requests, parse_discovery_one_request. Qed.

Lemma _parse_discovery_first_success (route xhs_id : list N) (tr : list event)
    (r : ParseResult) :
  fst (parse_explore w (explore_url route) xhs_id tr) = Ok r ->
  _parse_discovery w route xhs_id tr = parse_explore w (explore_url route) xhs_id tr.
Proof.
  intros Hok. unfold _parse_discovery, try_except. fold (explore_url route).
  by destruct (parse_explore w _ _ tr) as [[r'|e] tr1].
Qed.

Lemma _parse_discovery_fallback (route xhs_id : list N) (tr : list event)
    (msg : string) :
  fst (parse_explore w (explore_url route) xhs_id tr) = Raise (ParseException msg) ->
  _parse_discovery w route xhs_id tr
  = parse_discovery w (site ++ route)
      (snd (parse_explore w (explore_url route) xhs_id tr) ++ [LogFallback]).
Proof.
  intros Hraise. unfold _parse_discovery, try_except. fold (explore_url route).
  destruct (parse_explore w _ _ tr) as [[r'|e] tr1]; cbn [fst snd] in *; [done |].
  by injection Hraise as ->.
Qed.

Lemma _parse_discovery_propagates (route xhs_id : list N) (tr : list event)
    (e : exn) :
  fst (parse_explore w (explore_url route) xhs_id tr) = Raise e ->
  is_ParseException e = false ->
  _parse_discovery w route xhs_id tr = parse_explore w (explore_url route) xhs_id tr.
Proof.
  intros Hraise He. unfold _parse_discovery, try_except. fold (explore_url route).
  destruct (parse_explore w _ _ tr) as [[r'|e'] tr1]; cbn [fst] in *; [done |].
  injection Hraise as ->. by rewrite He.
Qed.

End xhs_chain.

(** ** What the parse functions put into [contents] *)

Section contents_facts.
Import Async Base Media.

Lemma bind_ok {A B} (m : coro A) (k : A -> coro B) (tr tr1 : list event) (a : A) :
  m tr = (Ok a, tr1) -> bind m k tr = k a tr1.
Proof. intros H. unfold bind. by rewrite H. Qed.

Lemma bind_lift_ok {A B} (a : A) (k : A -> coro B) (tr : list event) :
  bind (lift (Ok a)) k tr = k a tr.
Proof. done. Qed.

Lemma bind_fst_ok {A B} (m : coro A) (k : A -> coro B) (tr : list event) (a : A) :
  fst (m tr) = Ok a -> bind m k tr = k a (snd (m tr)).
Proof. unfold bind. destruct (m tr) as [[a'|e] tr1]; [by intros [= ->] | done]. Qed.

Lemma convert_images_normalized (w : env) (image_urls : list (list N))
    (tr : list event) :
  exists srcs,
    fst (convert_images w image_urls tr) = Ok srcs /\ normalized w image_urls srcs.
Proof.
  eexists. split; [apply convert_images_picked |].
  split; [by rewrite length_imap |].
  intros i url Hurl. rewrite list_lookup_imap, Hurl. cbn.
  unfold picked. cbn [fst snd]. rewrite Hurl.
  destruct (convert_image w url i) as [[|b jpg]|]; cbn; eauto.
Qed.

Lemma normalized_empty (w : env) (image_urls : list (list N)) (srcs : list source) :
  normalized w image_urls srcs -> srcs = [] <-> image_urls = [].
Proof.
  intros [Hlen _]. split; intros ->; cbn in Hlen.
  - by destruct image_urls.
  - by destruct srcs.
Qed.

Lemma create_image_contents_empty (srcs : list source) :
  create_image_contents srcs = [] <-> srcs = [].
Proof. unfold create_image_contents. by destruct srcs. Qed.

Lemma create_image_contents_no_video (srcs : list source) :
  Forall (fun c => is_video c = false) (create_image_contents srcs).
Proof.
  unfold create_image_contents. apply Forall_fmap, Forall_true.
  by intros [jpg|url].
Qed.

(** The image branch of a parse function. *)
Lemma image_branch (w : env) (image_urls : list (list N)) (tr : list event) :
  exists srcs,
    normalized w image_urls srcs /\
    fst ((let* image_sources := convert_images w image_urls in
          ret (create_image_contents image_sources)) tr)
    = Ok (create_image_contents srcs).
Proof.
  destruct (convert_images_normalized w image_urls tr) as (srcs & Hc & Hn).
  exists srcs. split; [done |]. by rewrite (bind_fst_ok _ _ tr srcs Hc).
Qed.

Lemma nonempty_false {A} (l : list A) : nonempty l = false <-> l = [].
Proof. by destruct l. Qed.

Lemma image_contents_ok (w : env) (image_urls : list (list N)) (tr : list event) :
  exists srcs,
    normalized w image_urls srcs /\
    fst (XiaoHongShu.image_contents w image_urls tr) = Ok (create_image_contents srcs).
Proof.
  unfold XiaoHongShu.image_contents.
  destruct (nonempty image_urls) eqn:Hne; [apply image_branch |].
  apply nonempty_false in Hne as ->. exists []. by split; [split |].
Qed.

End contents_facts.

(** Three image URLs, the second of which cannot be converted: the sources
    are the JPEG of the first, the second URL, the JPEG of the third. *)
Lemma C1_witness :
  exists image_sources,
    fst (Media.convert_images (Worlds.serving [])
           [lit "u0"; lit "u1"; lit "u2"] []) = Ok image_sources
    /\ length image_sources = length [lit "u0"; lit "u1"; lit "u2"]
    /\ (forall i url,
          [lit "u0"; lit "u1"; lit "u2"] !! i = Some url ->
          image_sources !! i
          = Some (match Async.convert_image (Worlds.serving []) url i with
                  | Some jpg_data => Media.SrcBytes jpg_data
                  | None => Media.SrcUrl url
                  end))
    /\ (forall choices,
          fst (Media.convert_images (rescheduled (Worlds.serving []) choices)
                 [lit "u0"; lit "u1"; lit "u2"] [])
          = Ok image_sources).
Proof.
  apply (C1_image_sources_keep_input_order (Worlds.serving [])
           [lit "u0"; lit "u1"; lit "u2"] []).
  intros url i. simpl. destruct (Nat.eqb i 1); discriminate.
Defined.

(** ** The claims about the fallback chains *)

Section chain_claims.
Import Async Base Media Worlds.

(** C5. The fallback chain stops at the first success.  In [_parse_douyin]
    (ty other than slides), when [parse_video] on the m.douyin URL returns a
    result, that result is returned and the only page request made is the
    one to the m.douyin URL: the iesdouyin URL is never requested.  In
    [_parse_discovery], when [parse_explore] returns a result, that result is
    returned and the only page request made is the one of [parse_explore]:
    [parse_discovery] is never called. *)
Theorem C5_first_success_short_circuits :
  (forall decode_RouterData decode_SlidesInfo w ty vid tr r,
     ty <> lit "slides" ->
     fst (Douyin.parse_video decode_RouterData w (Douyin._build_m_douyin_url ty vid) tr)
       = Ok r ->
     fst (Douyin._parse_douyin decode_RouterData decode_SlidesInfo w ty vid tr) = Ok r
     /\ requests (snd (Douyin._parse_douyin decode_RouterData decode_SlidesInfo w ty vid tr))
        = requests tr ++ [Douyin.video_request (Douyin._build_m_douyin_url ty vid)]
     /\ Douyin.video_request (Douyin._build_iesdouyin_url ty vid)
        <> Douyin.video_request (Douyin._build_m_douyin_url ty vid))
  /\
  (forall w route xhs_id tr r,
     fst (XiaoHongShu.parse_explore w (explore_url route) xhs_id tr) = Ok r ->
     fst (XiaoHongShu._parse_discovery w route xhs_id tr) = Ok r
     /\ requests (snd (XiaoHongShu._parse_discovery w route xhs_id tr))
        = requests tr ++ [XiaoHongShu.explore_request (explore_url route)]).
Proof.
  split.
  - intros dR dS w ty vid tr r Hty Hok.
    unfold Douyin._parse_douyin. rewrite (not_slides ty Hty).
    rewrite (try_urls_first_success dR w _ _ tr r Hok).
    split; [done |]. split; [apply parse_video_requests |].
    intros Heq. discriminate Heq.
  - intros w route xhs_id tr r Hok.
    rewrite (_parse_discovery_first_success w route xhs_id tr r Hok).
    split; [done | apply parse_explore_requests].
Qed.

(** C4 (as amended).  In [_parse_douyin] with ty other than slides, when
    both attempts fail as strategies, that is, [parse_video] raises a
    [ParseException] on the m.douyin URL and on the iesdouyin URL, exactly two
    page requests are made, to the m.douyin URL first and to the iesdouyin
    URL second, and then the [ParseException] of the chain is raised.  And
    whenever [_parse_douyin] raises a [ParseException] at all, it is that
    one, and both requests have been made before. *)
Theorem C4_all_strategies_fail
    (decode_RouterData : list N -> outcome Douyin.video.VideoData)
    (decode_SlidesInfo : list N -> outcome (list Douyin.slides.SlidesData))
    (w : env) (ty vid : list N) (tr : list event) :
  ty <> lit "slides" ->
  (strategy_fails decode_RouterData w (Douyin._build_m_douyin_url ty vid) ->
   strategy_fails decode_RouterData w (Douyin._build_iesdouyin_url ty vid) ->
   fst (Douyin._parse_douyin decode_RouterData decode_SlidesInfo w ty vid tr)
     = Raise (ParseException Douyin.all_failed_message)
   /\ requests (snd (Douyin._parse_douyin decode_RouterData decode_SlidesInfo w ty vid tr))
      = requests tr ++ [Douyin.video_request (Douyin._build_m_douyin_url ty vid);
                        Douyin.video_request (Douyin._build_iesdouyin_url ty vid)])
  /\
  (forall msg,
     fst (Douyin._parse_douyin decode_RouterData decode_SlidesInfo w ty vid tr)
       = Raise (ParseException msg) ->
     msg = Douyin.all_failed_message
     /\ requests (snd (Douyin._parse_douyin decode_RouterData decode_SlidesInfo w ty vid tr))
        = requests tr ++ [Douyin.video_request (Douyin._build_m_douyin_url ty vid);
                          Douyin.video_request (Douyin._build_iesdouyin_url ty vid)]).
Proof.
  intros Hty. unfold Douyin._parse_douyin. rewrite (not_slides ty Hty). split.
  - intros Hm Hies. apply (try_urls_all_fail decode_RouterData w). by repeat constructor.
  - intros msg Hmsg. by apply (try_urls_raises_last decode_RouterData w) in Hmsg.
Qed.

(** With every page answering 403, both strategies fail and the chain makes
    its two requests. *)
Lemma C4_witness :
  fst (Douyin._parse_douyin no_router_data no_slides_info forbidden
         (lit "video") (lit "1") [])
    = Raise (ParseException Douyin.all_failed_message)
  /\ requests (snd (Douyin._parse_douyin no_router_data no_slides_info forbidden
                      (lit "video") (lit "1") []))
     = [] ++ [Douyin.video_request (Douyin._build_m_douyin_url (lit "video") (lit "1"));
              Douyin.video_request (Douyin._build_iesdouyin_url (lit "video") (lit "1"))].
Proof.
  apply (C4_all_strategies_fail no_router_data no_slides_info forbidden
           (lit "video") (lit "1") []).
  - discriminate.
  - intros tr. by exists ("status: 403"%string).
  - intros tr. by exists ("status: 403"%string).
Defined.

(** C4, as stated, fails: with no host reachable every strategy fails, yet
    one request is made, not two, and the error that reaches the caller is
    the transport error of the first attempt. *)
Lemma C4_counterexample :
  fst (Douyin.parse_video no_router_data offline
         (Douyin._build_m_douyin_url (lit "video") (lit "1")) []) = Raise HTTPError
  /\ fst (Douyin.parse_video no_router_data offline
            (Douyin._build_iesdouyin_url (lit "video") (lit "1")) []) = Raise HTTPError
  /\ Douyin._parse_douyin no_router_data no_slides_info offline (lit "video") (lit "1") []
     = (Raise HTTPError,
        [Requested (Douyin.video_request (Douyin._build_m_douyin_url (lit "video") (lit "1")))]).
Proof. by vm_compute. Qed.

(** C3 (as amended).  Inside one strategy attempt of a fallback chain a
    [ParseException] is caught and logged, and the chain goes on with the
    next strategy; an exception of any other class is not caught: it reaches
    the caller and no later strategy is attempted.  The decode-failed case is
    of the second kind, in [_parse_douyin] (whatever exception other than a
    [ParseException] the schema decoder raises) and in [_parse_discovery]
    (the [JSONDecodeError] of [json.loads]). *)
Theorem C3_only_parse_exceptions_advance :
  (forall decode_RouterData decode_SlidesInfo w ty vid tr,
     ty <> lit "slides" ->
     let first := Douyin.parse_video decode_RouterData w (Douyin._build_m_douyin_url ty vid) tr in
     let chain := Douyin._parse_douyin decode_RouterData decode_SlidesInfo w ty vid tr in
     (forall msg,
        fst first = Raise (ParseException msg) ->
        exists evs,
          snd chain
          = snd first
            ++ LogParseFailed (Douyin._build_m_douyin_url ty vid) (ParseException msg)
            :: Requested (Douyin.video_request (Douyin._build_iesdouyin_url ty vid)) :: evs
          /\ requests evs = [])
     /\ (forall e,
           fst first = Raise e -> is_ParseException e = false ->
           chain = first
           /\ requests (snd chain)
              = requests tr ++ [Douyin.video_request (Douyin._build_m_douyin_url ty vid)])
     /\ (forall text c group1 e,
           http_get w (Douyin.video_request (Douyin._build_m_douyin_url ty vid))
             = Response 200 text ->
           Re.router_data_search text = Some (c :: group1) ->
           decode_RouterData (strip (c :: group1)) = Raise e ->
           fst first = Raise e))
  /\
  (forall w route xhs_id tr,
     let first := XiaoHongShu.parse_explore w (explore_url route) xhs_id tr in
     let chain := XiaoHongShu._parse_discovery w route xhs_id tr in
     (forall msg,
        fst first = Raise (ParseException msg) ->
        exists evs,
          snd chain
          = snd first ++ LogFallback
            :: Requested (XiaoHongShu.discovery_request (XiaoHongShu.site ++ route)) :: evs
          /\ requests evs = [])
     /\ (forall e,
           fst first = Raise e -> is_ParseException e = false ->
           chain = first
           /\ requests (snd chain) = requests tr ++ [XiaoHongShu.explore_request (explore_url route)])
     /\ (forall status_code html group1,
           http_get w (XiaoHongShu.explore_request (explore_url route)) = Response status_code html ->
           Re.initial_state_search html = Some group1 ->
           Json.json_loads (str_replace XiaoHongShu.undefined XiaoHongShu.null group1) = None ->
           fst first = Raise JSONDecodeError)).
Proof.
  split.
  - intros dR dS w ty vid tr Hty first chain. subst first chain.
    unfold Douyin._parse_douyin. rewrite (not_slides ty Hty).
    split; [| split].
    + intros msg Hmsg. rewrite (try_urls_next dR w _ _ tr msg Hmsg).
      cbn [Douyin.try_urls]. unfold try_except.
      destruct (parse_video_one_request dR w (Douyin._build_iesdouyin_url ty vid)
                  (snd (Douyin.parse_video dR w (Douyin._build_m_douyin_url ty vid) tr)
                   ++ [LogParseFailed (Douyin._build_m_douyin_url ty vid)
                         (ParseException msg)]))
        as (evs & Hevs & Hq).
      destruct (Douyin.parse_video dR w (Douyin._build_iesdouyin_url ty vid) _)
        as [[r|e] tr2]; cbn [snd] in *; subst tr2.
      * exists evs. by rewrite <- app_assoc.
      * destruct (is_ParseException e).
        -- unfold bind, emit, raise. cbn [snd].
           exists (evs ++ [LogParseFailed (Douyin._build_iesdouyin_url ty vid) e]).
           split; [by rewrite <- !app_assoc |].
           by rewrite requests_app, Hq.
        -- exists evs. by rewrite <- app_assoc.
    + intros e He Hcls. rewrite (try_urls_propagates dR w _ _ tr e He Hcls).
      split; [done | apply parse_video_requests].
    + intros text c g e Hget Hsearch Hdec.
      unfold Douyin.parse_video, Douyin.fetch_video_data, bind, emit, lift.
      by rewrite Hget, Hsearch, Hdec.
  - intros w route xhs_id tr first chain. subst first chain.
    split; [| split].
    + intros msg Hmsg. rewrite (_parse_discovery_fallback w route xhs_id tr msg Hmsg).
      destruct (parse_discovery_one_request w (XiaoHongShu.site ++ route)
                  (snd (XiaoHongShu.parse_explore w (explore_url route) xhs_id tr)
                   ++ [LogFallback])) as (evs & -> & Hq).
      exists evs. by rewrite <- app_assoc.
    + intros e He Hcls. rewrite (_parse_discovery_propagates w route xhs_id tr e He Hcls).
      split; [done | apply parse_explore_requests].
    + intros status_code html g Hget Hsearch Hjson.
      unfold XiaoHongShu.parse_explore, XiaoHongShu.explore_note_detail,
        bind, emit, lift.
      rewrite Hget. unfold XiaoHongShu._extract_initial_state_json.
      by rewrite Hsearch, Hjson.
Qed.

(** C3, as stated, fails on a state blob that is not JSON: the
    [JSONDecodeError] of the first strategy reaches the caller of
    [_parse_discovery], and the second strategy is never attempted. *)
Lemma C3_counterexample :
  XiaoHongShu._parse_discovery broken_state sample_route (lit "abc") []
  = (Raise JSONDecodeError,
     [Requested (XiaoHongShu.explore_request (explore_url sample_route));
      LogStatus (explore_url sample_route) 200]).
Proof. by vm_compute. Qed.

End chain_claims.

(** ** The marker is absent *)

Section marker_claims.
Import Async Base Media Worlds.

(** C7 (as amended).  When the body lacks the marker, extraction raises a
    [ParseException]: [parse_video] on a 200 answer whose body lacks
    [window._ROUTER_DATA] raises it with the message "can't find _ROUTER_DATA
    in html", which names the marker; [_extract_initial_state_json] on a
    body that lacks [window.__INITIAL_STATE__] raises it with the fixed
    message of the source, which does not name the marker. *)
Theorem C7_marker_not_found :
  (forall decode_RouterData w url text tr,
     http_get w (Douyin.video_request url) = Response 200 text ->
     ~ occurs (lit "window._ROUTER_DATA") text ->
     fst (Douyin.parse_video decode_RouterData w url tr)
     = Raise (ParseException Douyin.no_router_data_message))
  /\ names_marker "_ROUTER_DATA" Douyin.no_router_data_message = true
  /\ (forall html,
        ~ occurs (lit "window.__INITIAL_STATE__") html ->
        XiaoHongShu._extract_initial_state_json html
        = Raise (ParseException XiaoHongShu.link_dead_message))
  /\ names_marker "__INITIAL_STATE__" XiaoHongShu.link_dead_message = false.
Proof.
  split; [| split; [by vm_compute | split; [| by vm_compute]]].
  - intros dR w url text tr Hget Hno.
    unfold Douyin.parse_video, Douyin.fetch_video_data, bind, emit, raise.
    rewrite Hget. cbn [N.eqb Pos.eqb negb].
    destruct (Re.router_data_search text) as [g|] eqn:Hs; [| done].
    by apply router_data_search_contains, contains_occurs in Hs.
  - intros html Hno. unfold XiaoHongShu._extract_initial_state_json.
    destruct (Re.initial_state_search html) as [g|] eqn:Hs; [| done].
    by apply initial_state_search_contains, contains_occurs in Hs.
Qed.

(** A page without any script, served with status 200. *)
Lemma C7_witness :
  fst (Douyin.parse_video no_router_data (serving (lit "<html></html>"))
         (lit "https://m.douyin.com/share/video/1") [])
  = Raise (ParseException Douyin.no_router_data_message)
  /\ XiaoHongShu._extract_initial_state_json (lit "<html></html>")
     = Raise (ParseException XiaoHongShu.link_dead_message).
Proof.
  split.
  - apply (proj1 C7_marker_not_found no_router_data (serving (lit "<html></html>"))
             (lit "https://m.douyin.com/share/video/1") (lit "<html></html>") []).
    + reflexivity.
    + intros H%contains_occurs. vm_compute in H. discriminate H.
  - apply (proj1 (proj2 (proj2 C7_marker_not_found)) (lit "<html></html>")).
    intros H%contains_occurs. vm_compute in H. discriminate H.
Defined.

(** C7, as stated, fails for [_extract_initial_state_json]: the message of
    its [ParseException] does not contain the name of the marker. *)
Lemma C7_counterexample :
  XiaoHongShu._extract_initial_state_json (lit "<html></html>")
  = Raise (ParseException XiaoHongShu.link_dead_message)
  /\ names_marker "__INITIAL_STATE__" XiaoHongShu.link_dead_message = false
  /\ names_marker "window.__INITIAL_STATE__" XiaoHongShu.link_dead_message = false.
Proof. by vm_compute. Qed.

End marker_claims.

(** ** Video selection *)

Section video_claims.
Import Async Base Media Worlds XiaoHongShu.

Lemma has_stream_false (l : option (list (list (list N * pyval)))) :
  Video.has_stream l = false <-> absent_or_empty l.
Proof.
  unfold absent_or_empty. destruct l as [[|d l]|]; cbn.
  - split; [by right | done].
  - split; [done | intros [|]; done].
  - split; [by left | done].
Qed.

(** A note property [video_url] that is truthy comes from a note of type
    video whose stream selection is not [None]. *)
Lemma explore_video_url_truthy (nd : Explore.NoteDetail.t) (media_url : pyval) :
  Explore.NoteDetail.video_url nd = Ok media_url ->
  truthy media_url = true ->
  Explore.NoteDetail.type nd = lit "video" /\
  exists v, Explore.NoteDetail.video nd = Some v
            /\ Video.video_url v = Ok media_url /\ media_url <> PNone.
Proof.
  unfold Explore.NoteDetail.video_url. intros Hurl Htruthy.
  destruct (Explore.NoteDetail.video nd) as [v|]; [| by injection Hurl as <-].
  destruct (str_eqb _ _) eqn:Hty; cbn [negb] in Hurl; [| by injection Hurl as <-].
  apply bool_decide_eq_true in Hty. split; [done |].
  exists v. split; [done |]. split; [done |]. by intros ->.
Qed.

Lemma discovery_video_url_truthy (nd : Discovery.NoteData.t) (media_url : pyval) :
  Discovery.NoteData.video_url nd = Ok media_url ->
  truthy media_url = true ->
  Discovery.NoteData.type nd = lit "video" /\
  exists v, Discovery.NoteData.video nd = Some v
            /\ Video.video_url v = Ok media_url /\ media_url <> PNone.
Proof.
  unfold Discovery.NoteData.video_url. intros Hurl Htruthy.
  destruct (Discovery.NoteData.video nd) as [v|]; [| by injection Hurl as <-].
  destruct (str_eqb _ _) eqn:Hty; cbn [negb] in Hurl; [| by injection Hurl as <-].
  apply bool_decide_eq_true in Hty. split; [done |].
  exists v. split; [done |]. split; [done |]. by intros ->.
Qed.

Lemma no_video_in_images (cs : list content) :
  Forall (fun c => is_video c = false) cs -> ~ Exists (fun c => is_video c = true) cs.
Proof.
  intros Hall Hex. apply Exists_exists in Hex as (c & Hc & Hv).
  eapply Forall_forall in Hall; [| done]. congruence.
Qed.

(** C10.  [Video.video_url] prefers h265, then h264, then av1, then h266:
    it returns the [masterUrl] of the first element of the first of these
    lists that is neither absent nor empty, and [None] when all four are
    absent or empty.  [parse_explore] and [parse_discovery] return a video
    content only when the type of the note is "video" and this selection is
    not [None]. *)
Theorem C10_codec_preference :
  (forall (v : Video.t) first rest url,
     let s := Media.stream (Video.media v) in
     dict_get first (lit "masterUrl") = Some url ->
     (Stream.h265 s = Some (first :: rest) -> Video.video_url v = Ok url)
     /\ (absent_or_empty (Stream.h265 s) ->
         Stream.h264 s = Some (first :: rest) -> Video.video_url v = Ok url)
     /\ (absent_or_empty (Stream.h265 s) -> absent_or_empty (Stream.h264 s) ->
         Stream.av1 s = Some (first :: rest) -> Video.video_url v = Ok url)
     /\ (absent_or_empty (Stream.h265 s) -> absent_or_empty (Stream.h264 s) ->
         absent_or_empty (Stream.av1 s) ->
         Stream.h266 s = Some (first :: rest) -> Video.video_url v = Ok url))
  /\ (forall v : Video.t,
        let s := Media.stream (Video.media v) in
        absent_or_empty (Stream.h265 s) -> absent_or_empty (Stream.h264 s) ->
        absent_or_empty (Stream.av1 s) -> absent_or_empty (Stream.h266 s) ->
        Video.video_url v = Ok PNone)
  /\ (forall w url xhs_id tr r,
        fst (parse_explore w url xhs_id tr) = Ok r ->
        Exists (fun c => is_video c = true) (contents r) ->
        exists nd tr1 v media_url,
          explore_note_detail w url xhs_id tr = (Ok nd, tr1)
          /\ Explore.NoteDetail.type nd = lit "video"
          /\ Explore.NoteDetail.video nd = Some v
          /\ Video.video_url v = Ok media_url
          /\ media_url <> PNone)
  /\ (forall w url tr r,
        fst (parse_discovery w url tr) = Ok r ->
        Exists (fun c => is_video c = true) (contents r) ->
        exists preload nd tr1 v media_url,
          discovery_note_data w url tr = (Ok (preload, nd), tr1)
          /\ Discovery.NoteData.type nd = lit "video"
          /\ Discovery.NoteData.video nd = Some v
          /\ Video.video_url v = Ok media_url
          /\ media_url <> PNone).
Proof.
  split; [| split; [| split]].
  - intros v first rest url s Hurl. unfold Video.video_url. fold s.
    repeat split.
    + intros ->. cbn [Video.has_stream Video.first_master_url]. by rewrite Hurl.
    + intros ->%has_stream_false ->.
      cbn [Video.has_stream Video.first_master_url]. by rewrite Hurl.
    + intros ->%has_stream_false ->%has_stream_false ->.
      cbn [Video.has_stream Video.first_master_url]. by rewrite Hurl.
    + intros ->%has_stream_false ->%has_stream_false ->%has_stream_false ->.
      cbn [Video.has_stream Video.first_master_url]. by rewrite Hurl.
  - intros v s H1 H2 H3 H4. unfold Video.video_url. fold s.
    apply has_stream_false in H1, H2, H3, H4. by rewrite H1, H2, H3, H4.
  - intros w url xhs_id tr r Hok Hvideo. unfold parse_explore, bind in Hok.
    destruct (explore_note_detail w url xhs_id tr) as [[nd|e] tr1] eqn:Hnd; [| done].
    unfold explore_result, bind, lift in Hok.
    destruct (Explore.NoteDetail.video_url nd) as [media_url|e] eqn:Hurl; [| done].
    destruct (truthy media_url) eqn:Htruthy.
    + destruct (explore_video_url_truthy nd media_url Hurl Htruthy)
        as (Hty & v & Hv & Hsel & Hnone).
      by exists nd, tr1, v, media_url.
    + destruct (image_contents_ok w (Explore.NoteDetail.image_urls nd) tr1)
        as (srcs & _ & Himg).
      destruct (image_contents w _ tr1) as [[cs|e] tr2]; cbn in Himg, Hok; [| done].
      injection Himg as ->. injection Hok as <-. cbn [contents result] in Hvideo.
      by apply no_video_in_images in Hvideo; [| apply create_image_contents_no_video].
  - intros w url tr r Hok Hvideo. unfold parse_discovery, bind in Hok.
    destruct (discovery_note_data w url tr) as [[[preload nd]|e] tr1] eqn:Hnd; [| done].
    cbn [fst snd] in Hok. unfold discovery_result, bind, lift in Hok.
    destruct (Discovery.NoteData.video_url nd) as [media_url|e] eqn:Hurl; [| done].
    destruct (truthy media_url) eqn:Htruthy.
    + destruct (discovery_video_url_truthy nd media_url Hurl Htruthy)
        as (Hty & v & Hv & Hsel & Hnone).
      by exists preload, nd, tr1, v, media_url.
    + destruct (image_contents_ok w (Discovery.NoteData.image_urls nd) tr1)
        as (srcs & _ & Himg).
      destruct (image_contents w _ tr1) as [[cs|e] tr2]; cbn in Himg, Hok; [| done].
      injection Himg as ->. injection Hok as <-. cbn [contents result] in Hvideo.
      by apply no_video_in_images in Hvideo; [| apply create_image_contents_no_video].
Qed.

End video_claims.

(** ** Content kinds *)

Section content_claims.
Import Async Base Media Worlds.

Lemma video_result_contents (w : env) (vd : Douyin.video.VideoData)
    (tr : list event) :
  exists r,
    fst (Douyin.video_result w vd tr) = Ok r /\ video_contents_are w vd (contents r).
Proof.
  unfold Douyin.video_result, Douyin.video_contents, video_contents_are.
  destruct (nonempty (Douyin.video.image_urls vd)) eqn:Hne.
  - destruct (image_branch w (Douyin.video.image_urls vd) tr) as (srcs & Hn & Hc).
    rewrite (bind_fst_ok _ _ tr _ Hc). eexists. split; [reflexivity |].
    cbn [contents result]. split; [by exists srcs |].
    split; intros Hnil; by rewrite Hnil in Hne.
  - apply nonempty_false in Hne.
    destruct (Douyin.str_truthy (Douyin.video.video_url vd)) eqn:Hv;
      (eexists; split; [reflexivity |]); cbn [contents result];
      (split; [done |]); split; intros _; try done.
    + intros u Hu _. by rewrite Hu.
    + intros u Hu Hnil. rewrite Hu in Hv. by destruct u.
Qed.

(** What [parse_slides] puts into [contents]. *)
Lemma slides_result_contents (w : env) (sd : Douyin.slides.SlidesData)
    (tr : list event) :
  exists r srcs,
    fst (Douyin.slides_result w sd tr) = Ok r
    /\ normalized w (Douyin.slides.image_urls sd) srcs
    /\ contents r
       = create_image_contents srcs
         ++ create_dynamic_contents (Douyin.slides.dynamic_urls sd).
Proof.
  unfold Douyin.slides_result.
  assert (Hdyn : (if nonempty (Douyin.slides.dynamic_urls sd)
                  then create_dynamic_contents (Douyin.slides.dynamic_urls sd)
                  else [])
                 = create_dynamic_contents (Douyin.slides.dynamic_urls sd)).
  { by destruct (Douyin.slides.dynamic_urls sd). }
  rewrite Hdyn.
  destruct (nonempty (Douyin.slides.image_urls sd)) eqn:Hne.
  - destruct (image_branch w (Douyin.slides.image_urls sd) tr) as (srcs & Hn & Hc).
    rewrite (bind_fst_ok _ _ tr _ Hc). by eexists _, srcs.
  - apply nonempty_false in Hne. rewrite Hne.
    eexists _, []. split; [reflexivity |]. by split; [split |].
Qed.

(** What [parse_explore] puts into [contents]. *)
Lemma explore_result_contents (w : env) (nd : XiaoHongShu.Explore.NoteDetail.t)
    (media_url : pyval) (tr : list event) :
  XiaoHongShu.Explore.NoteDetail.video_url nd = Ok media_url ->
  exists r,
    fst (XiaoHongShu.explore_result w nd tr) = Ok r
    /\ (truthy media_url = true ->
        contents r
        = [VideoContent media_url
             (head (XiaoHongShu.Explore.NoteDetail.image_urls nd)) None])
    /\ (truthy media_url = false ->
        exists srcs,
          normalized w (XiaoHongShu.Explore.NoteDetail.image_urls nd) srcs
          /\ contents r = create_image_contents srcs).
Proof.
  intros Hurl. unfold XiaoHongShu.explore_result. rewrite Hurl, bind_lift_ok.
  destruct (truthy media_url).
  - eexists. split; [reflexivity |]. by split.
  - destruct (image_contents_ok w (XiaoHongShu.Explore.NoteDetail.image_urls nd) tr)
      as (srcs & Hn & Hc).
    rewrite (bind_fst_ok _ _ tr _ Hc). eexists. split; [reflexivity |].
    split; [done |]. intros _. by exists srcs.
Qed.

(** What [parse_discovery] puts into [contents]. *)
Lemma discovery_result_contents (w : env) (preload_data : pyval)
    (nd : XiaoHongShu.Discovery.NoteData.t) (media_url : pyval) (tr : list event) :
  XiaoHongShu.Discovery.NoteData.video_url nd = Ok media_url ->
  (truthy media_url = true ->
   forall cover rest,
     discovery_cover_urls preload_data nd (cover :: rest) ->
     exists r,
       fst (XiaoHongShu.discovery_result w preload_data nd tr) = Ok r
       /\ contents r = [VideoContent media_url (Some cover) None])
  /\ (truthy media_url = false ->
      exists r srcs,
        fst (XiaoHongShu.discovery_result w preload_data nd tr) = Ok r
        /\ normalized w (XiaoHongShu.Discovery.NoteData.image_urls nd) srcs
        /\ contents r = create_image_contents srcs).
Proof.
  intros Hurl. unfold XiaoHongShu.discovery_result. rewrite Hurl, bind_lift_ok.
  destruct (truthy media_url); (split; [intros Ht | intros Hf]); try done.
  - intros cover rest [[Hp Himg]|(Hp & preload & Hconv & Himg)];
      unfold bind, lift, ret, Msgspec.convert; rewrite Hp.
    + rewrite <- Himg. by eexists.
    + rewrite Hconv, <- Himg. by eexists.
  - destruct (image_contents_ok w (XiaoHongShu.Discovery.NoteData.image_urls nd) tr)
      as (srcs & Hn & Hc).
    rewrite (bind_fst_ok _ _ tr _ Hc). by eexists _, srcs.
Qed.

Lemma convert_images_converted (w : env) (image_urls : list (list N))
    (tr : list event) :
  fst (convert_images w image_urls tr) = Ok (converted w image_urls).
Proof.
  rewrite convert_images_picked. f_equal. apply imap_ext.
  intros i url Hurl. unfold picked. cbn [fst snd]. rewrite Hurl.
  by destruct (convert_image w url i) as [[|b jpg_data]|].
Qed.

Lemma image_branch_converted (w : env) (image_urls : list (list N))
    (tr : list event) :
  fst ((let* image_sources := convert_images w image_urls in
        ret (create_image_contents image_sources)) tr)
  = Ok (create_image_contents (converted w image_urls)).
Proof.
  by rewrite (bind_fst_ok _ _ tr _ (convert_images_converted w image_urls tr)).
Qed.

Lemma image_contents_converted (w : env) (image_urls : list (list N))
    (tr : list event) :
  fst (XiaoHongShu.image_contents w image_urls tr)
  = Ok (create_image_contents (converted w image_urls)).
Proof.
  unfold XiaoHongShu.image_contents.
  destruct (nonempty image_urls) eqn:Hne; [apply image_branch_converted |].
  by apply nonempty_false in Hne as ->.
Qed.

End content_claims.

Section assembly_claims.
Import Async Base Media Worlds.

(** C2 (as amended).  [parse_explore] and [parse_discovery] put the video
    first: when the note has a video URL, [contents] is that video alone,
    with an image as its cover, and no image content; otherwise it is the
    converted image sequence in its original order, element i being the JPEG
    of image i where its conversion succeeded and its URL where it failed.
    In [parse_discovery] the cover is the first URL of the list the cover is
    taken from; when that list is empty [IndexError] is raised, and when the
    preload data does not fit its schema, [ValidationError].  [parse_video]
    of Douyin puts the images first: when [video_data] has image URLs,
    [contents] is the converted image sequence in its original order,
    whether or not there is a video URL; the video is emitted only when
    there is no image.  [parse_slides] emits the converted image sequence
    and, after it, the dynamic contents. *)
Theorem C2_content_kind_priority :
  (forall w url xhs_id tr nd tr1 media_url,
     XiaoHongShu.explore_note_detail w url xhs_id tr = (Ok nd, tr1) ->
     XiaoHongShu.Explore.NoteDetail.video_url nd = Ok media_url ->
     exists r,
       fst (XiaoHongShu.parse_explore w url xhs_id tr) = Ok r
       /\ (truthy media_url = true ->
           contents r
           = [VideoContent media_url
                (head (XiaoHongShu.Explore.NoteDetail.image_urls nd)) None])
       /\ (truthy media_url = false ->
           contents r
           = create_image_contents
               (converted w (XiaoHongShu.Explore.NoteDetail.image_urls nd))))
  /\ (forall w url tr preload_data nd tr1 media_url,
        XiaoHongShu.discovery_note_data w url tr = (Ok (preload_data, nd), tr1) ->
        XiaoHongShu.Discovery.NoteData.video_url nd = Ok media_url ->
        (truthy media_url = true ->
         (forall cover rest,
            discovery_cover_urls preload_data nd (cover :: rest) ->
            exists r,
              fst (XiaoHongShu.parse_discovery w url tr) = Ok r
              /\ contents r = [VideoContent media_url (Some cover) None])
         /\ (discovery_cover_urls preload_data nd [] ->
             fst (XiaoHongShu.parse_discovery w url tr) = Raise IndexError)
         /\ (truthy preload_data = true ->
             XiaoHongShu.Discovery.NormalNotePreloadData.of_py preload_data = None ->
             fst (XiaoHongShu.parse_discovery w url tr) = Raise ValidationError))
        /\ (truthy media_url = false ->
            exists r,
              fst (XiaoHongShu.parse_discovery w url tr) = Ok r
              /\ contents r
                 = create_image_contents
                     (converted w (XiaoHongShu.Discovery.NoteData.image_urls nd))))
  /\ (forall decode_RouterData w url tr vd tr1,
        Douyin.fetch_video_data decode_RouterData w url tr = (Ok vd, tr1) ->
        exists r,
          fst (Douyin.parse_video decode_RouterData w url tr) = Ok r
          /\ (Douyin.video.image_urls vd <> [] ->
              contents r
              = create_image_contents (converted w (Douyin.video.image_urls vd)))
          /\ (Douyin.video.image_urls vd = [] ->
              forall u, Douyin.video.video_url vd = Some u -> u <> [] ->
                contents r
                = [VideoContent (PStr u) (Douyin.video.cover_url vd)
                     (Some (match Douyin.video.video vd with
                            | Some v => Douyin.video.duration v
                            | None => 0%Z
                            end))])
          /\ (Douyin.video.image_urls vd = [] ->
              Douyin.str_truthy (Douyin.video.video_url vd) = false ->
              contents r = []))
  /\ (forall decode_SlidesInfo w video_id tr sd tr1,
        Douyin.fetch_slides_data decode_SlidesInfo w video_id tr = (Ok sd, tr1) ->
        exists r,
          fst (Douyin.parse_slides decode_SlidesInfo w video_id tr) = Ok r
          /\ contents r
             = create_image_contents (converted w (Douyin.slides.image_urls sd))
               ++ create_dynamic_contents (Douyin.slides.dynamic_urls sd)).
Proof.
  split; [| split; [| split]].
  - intros w url xhs_id tr nd tr1 media_url Hnd Hurl.
    unfold XiaoHongShu.parse_explore. rewrite (bind_ok _ _ _ _ _ Hnd).
    unfold XiaoHongShu.explore_result. rewrite Hurl, bind_lift_ok.
    destruct (truthy media_url).
    + eexists. split; [reflexivity |]. by split.
    + rewrite (bind_fst_ok _ _ tr1 _
                 (image_contents_converted w
                    (XiaoHongShu.Explore.NoteDetail.image_urls nd) tr1)).
      eexists. split; [reflexivity |]. by split.
  - intros w url tr preload_data nd tr1 media_url Hnd Hurl.
    unfold XiaoHongShu.parse_discovery. rewrite (bind_ok _ _ _ _ _ Hnd).
    cbn [fst snd]. split.
    + intros Htruthy. split; [| split].
      * intros cover rest Hcover.
        by apply (proj1 (discovery_result_contents w preload_data nd media_url tr1
                           Hurl) Htruthy cover rest).
      * unfold XiaoHongShu.discovery_result, bind, lift. rewrite Hurl, Htruthy.
        intros [[-> Himg]|(-> & preload & Hpre & Himg)].
        -- by rewrite <- Himg.
        -- unfold Msgspec.convert. rewrite Hpre. by rewrite <- Himg.
      * intros Hpre Hnone.
        unfold XiaoHongShu.discovery_result, bind, lift, Msgspec.convert.
        by rewrite Hurl, Htruthy, Hpre, Hnone.
    + intros Htruthy.
      unfold XiaoHongShu.discovery_result. rewrite Hurl, bind_lift_ok, Htruthy.
      rewrite (bind_fst_ok _ _ tr1 _
                 (image_contents_converted w
                    (XiaoHongShu.Discovery.NoteData.image_urls nd) tr1)).
      eexists. split; reflexivity.
  - intros dR w url tr vd tr1 Hvd.
    unfold Douyin.parse_video. rewrite (bind_ok _ _ _ _ _ Hvd).
    unfold Douyin.video_result, Douyin.video_contents.
    destruct (nonempty (Douyin.video.image_urls vd)) eqn:Hne.
    + rewrite (bind_fst_ok _ _ tr1 _
                 (image_branch_converted w (Douyin.video.image_urls vd) tr1)).
      eexists. split; [reflexivity |]. cbn [contents result].
      split; [done |]. split; intros Hnil; by rewrite Hnil in Hne.
    + apply nonempty_false in Hne.
      destruct (Douyin.str_truthy (Douyin.video.video_url vd)) eqn:Hv;
        (eexists; split; [reflexivity |]); cbn [contents result];
        (split; [done |]); split; intros _; try done.
      * intros u Hu _. by rewrite Hu.
      * intros u Hu Hnil. rewrite Hu in Hv. by destruct u.
  - intros dS w video_id tr sd tr1 Hsd.
    unfold Douyin.parse_slides. rewrite (bind_ok _ _ _ _ _ Hsd).
    unfold Douyin.slides_result.
    assert (Hdyn : (if nonempty (Douyin.slides.dynamic_urls sd)
                    then create_dynamic_contents (Douyin.slides.dynamic_urls sd)
                    else [])
                   = create_dynamic_contents (Douyin.slides.dynamic_urls sd)).
    { by destruct (Douyin.slides.dynamic_urls sd). }
    rewrite Hdyn.
    destruct (nonempty (Douyin.slides.image_urls sd)) eqn:Hne.
    + rewrite (bind_fst_ok _ _ tr1 _
                 (image_branch_converted w (Douyin.slides.image_urls sd) tr1)).
      eexists. split; reflexivity.
    + apply nonempty_false in Hne. rewrite Hne.
      eexists. split; reflexivity.
Qed.

(** C2, as stated, fails for [parse_video] of Douyin: for a decoded post
    with two images and a video URL, the result holds the two images and no
    video. *)
Lemma C2_counterexample :
  Douyin.video.video_url both_kinds = Some (lit "v.mp4")
  /\ fst (Douyin.video_result (serving []) both_kinds [])
     = Ok (result (lit "d") None (create_author (lit "n") None)
             [ImageContent (SaveJpg jpeg_stub); ImageContent (DownloadImg (lit "i1"))]
             (Some 5%Z)).
Proof. by vm_compute. Qed.

(** C6 (as amended).  A successful resolution may return a result whose
    [contents] is empty.  [parse_video] returns for every decoded
    [video_data], and [contents] is empty exactly when [video_data] has no
    image URL and no (non-empty) video URL; [parse_slides] likewise, when
    there is no image URL and no dynamic URL; [parse_explore], when the note
    has no video URL and no image; and [parse_discovery], for a note without
    a video URL, when it has no image. *)
Theorem C6_contents_can_be_empty :
  (forall decode_RouterData w url tr vd tr1,
     Douyin.fetch_video_data decode_RouterData w url tr = (Ok vd, tr1) ->
     exists r,
       fst (Douyin.parse_video decode_RouterData w url tr) = Ok r
       /\ (contents r = [] <->
           Douyin.video.image_urls vd = []
           /\ Douyin.str_truthy (Douyin.video.video_url vd) = false))
  /\ (forall decode_SlidesInfo w video_id tr sd tr1,
        Douyin.fetch_slides_data decode_SlidesInfo w video_id tr = (Ok sd, tr1) ->
        exists r,
          fst (Douyin.parse_slides decode_SlidesInfo w video_id tr) = Ok r
          /\ (contents r = [] <->
              Douyin.slides.image_urls sd = [] /\ Douyin.slides.dynamic_urls sd = []))
  /\ (forall w url xhs_id tr nd tr1 media_url,
        XiaoHongShu.explore_note_detail w url xhs_id tr = (Ok nd, tr1) ->
        XiaoHongShu.Explore.NoteDetail.video_url nd = Ok media_url ->
        exists r,
          fst (XiaoHongShu.parse_explore w url xhs_id tr) = Ok r
          /\ (contents r = [] <->
              truthy media_url = false
              /\ XiaoHongShu.Explore.NoteDetail.imageList nd = []))
  /\ (forall w url tr preload_data nd tr1 media_url,
        XiaoHongShu.discovery_note_data w url tr = (Ok (preload_data, nd), tr1) ->
        XiaoHongShu.Discovery.NoteData.video_url nd = Ok media_url ->
        truthy media_url = false ->
        exists r,
          fst (XiaoHongShu.parse_discovery w url tr) = Ok r
          /\ (contents r = [] <-> XiaoHongShu.Discovery.NoteData.imageList nd = [])).
Proof.
  split; [| split; [| split]].
  - intros dR w url tr vd tr1 Hvd.
    unfold Douyin.parse_video. rewrite (bind_ok _ _ _ _ _ Hvd).
    destruct (video_result_contents w vd tr1) as (r & Hr & Himg & Hvideo & Hnone).
    exists r. split; [done |].
    destruct (Douyin.video.image_urls vd) as [|img imgs] eqn:Hurls.
    + destruct (Douyin.video.video_url vd) as [[|c u]|] eqn:Hv; cbn.
      * rewrite Hnone; done.
      * rewrite (Hvideo eq_refl (c :: u)); [| done | done]. split; [done | by intros []].
      * rewrite Hnone; done.
    + destruct Himg as (srcs & Hn & ->); [done |]. split.
      * intros Hempty%create_image_contents_empty.
        by apply (normalized_empty _ _ _ Hn) in Hempty.
      * by intros [].
  - intros dS w video_id tr sd tr1 Hsd.
    unfold Douyin.parse_slides. rewrite (bind_ok _ _ _ _ _ Hsd).
    destruct (slides_result_contents w sd tr1) as (r & srcs & Hr & Hn & Hc).
    exists r. split; [done |]. rewrite Hc. split.
    + intros [Himg Hdyn]%app_eq_nil. split.
      * by apply create_image_contents_empty, (normalized_empty _ _ _ Hn) in Himg.
      * unfold create_dynamic_contents in Hdyn. by destruct (Douyin.slides.dynamic_urls sd).
    + intros [Himg ->]. apply (normalized_empty _ _ _ Hn) in Himg as ->. done.
  - intros w url xhs_id tr nd tr1 media_url Hnd Hurl.
    unfold XiaoHongShu.parse_explore. rewrite (bind_ok _ _ _ _ _ Hnd).
    destruct (explore_result_contents w nd media_url tr1 Hurl) as (r & Hr & Hvideo & Himg).
    exists r. split; [done |].
    destruct (truthy media_url).
    + rewrite Hvideo by done. split; [done | by intros []].
    + destruct Himg as (srcs & Hn & ->); [done |].
      unfold XiaoHongShu.Explore.NoteDetail.image_urls in Hn. split.
      * intros Hempty%create_image_contents_empty.
        apply (normalized_empty _ _ _ Hn) in Hempty.
        split; [done |]. by destruct (XiaoHongShu.Explore.NoteDetail.imageList nd).
      * intros [_ Hempty]. rewrite Hempty in Hn.
        by apply create_image_contents_empty, (normalized_empty _ _ _ Hn).
  - intros w url tr preload_data nd tr1 media_url Hnd Hurl Htruthy.
    unfold XiaoHongShu.parse_discovery. rewrite (bind_ok _ _ _ _ _ Hnd).
    destruct (discovery_result_contents w preload_data nd media_url tr1 Hurl)
      as [_ Himg].
    destruct (Himg Htruthy) as (r & srcs & Hr & Hn & Hc).
    exists r. split; [done |]. rewrite Hc.
    unfold XiaoHongShu.Discovery.NoteData.image_urls in Hn. split.
    + intros Hempty%create_image_contents_empty.
      apply (normalized_empty _ _ _ Hn) in Hempty.
      by destruct (XiaoHongShu.Discovery.NoteData.imageList nd).
    + intros Hempty. rewrite Hempty in Hn.
      by apply create_image_contents_empty, (normalized_empty _ _ _ Hn).
Qed.

(** C6, as stated, fails: for a note with a title and a text and no media,
    [parse_explore] returns a result whose [contents] is the empty list; and
    for a Douyin [video_data] with no image URL and no video URL, the result
    [parse_video] builds has [contents] equal to the empty list. *)
Lemma C6_counterexample :
  fst (XiaoHongShu.parse_explore (serving text_only_note)
         (lit "https://www.xiaohongshu.com/explore/abc?x=1") (lit "abc") [])
  = Ok (result (lit "T") (Some (lit "D")) (create_author (lit "n") (Some (lit "a")))
          [] None)
  /\ Douyin.video.image_urls no_media = []
  /\ Douyin.video.video_url no_media = None
  /\ fst (Douyin.video_result (serving []) no_media [])
     = Ok (result (lit "d") None (create_author (lit "n") None) [] (Some 5%Z)).
Proof. by vm_compute. Qed.

End assembly_claims.

(** ** Permissive decoding *)

Section decoding_claims.
Import Async Base Media Worlds Msgspec XiaoHongShu.

Lemma dict_get_set_ne (d : list (list N * pyval)) (k k' : list N) (v : pyval) :
  k <> k' -> dict_get (dict_set d k v) k' = dict_get d k'.
Proof.
  intros Hne. induction d as [|[k0 v0] d IH]; cbn [dict_set dict_get].
  - unfold str_eqb. by rewrite bool_decide_eq_false_2.
  - unfold str_eqb in *. destruct (bool_decide (k0 = k)) eqn:Hk0; cbn [dict_get].
    + apply bool_decide_eq_true in Hk0 as ->. unfold str_eqb.
      by rewrite !bool_decide_eq_false_2.
    + unfold str_eqb. by rewrite IH.
Qed.

Lemma required_set_ne {A} (d : list (list N * pyval)) (k : list N) (v : pyval)
    (name : string) (ty : pyval -> option A) :
  k <> lit name -> required (dict_set d k v) name ty = required d name ty.
Proof. intros Hne. unfold required. by rewrite dict_get_set_ne. Qed.

Lemma optional_set_ne {A} (d : list (list N * pyval)) (k : list N) (v : pyval)
    (name : string) (ty : pyval -> option A) (default : A) :
  k <> lit name ->
  optional (dict_set d k v) name ty default = optional d name ty default.
Proof. intros Hne. unfold optional. by rewrite dict_get_set_ne. Qed.

Lemma required_None {A} (d : list (list N * pyval)) (name : string)
    (ty : pyval -> option A) :
  required d name ty = None <-> missing_or_ill_typed d name ty.
Proof.
  unfold required, missing_or_ill_typed.
  destruct (dict_get d (lit name)) as [v|]; cbn.
  - split; [intros H; right; by exists v | by intros [|(v' & [= <-] & H)]].
  - split; [by left | done].
Qed.

Lemma optional_None {A} (d : list (list N * pyval)) (name : string)
    (ty : pyval -> option A) (default : A) :
  optional d name ty default = None <-> present_ill_typed d name ty.
Proof.
  unfold optional, present_ill_typed.
  destruct (dict_get d (lit name)) as [v|].
  - split; [intros H; by exists v | by intros (v' & [= <-] & H)].
  - split; [done | by intros (v' & ? & _)].
Qed.

Lemma optional_Some {A} (d : list (list N * pyval)) (name : string)
    (ty : pyval -> option A) (default x : A) :
  optional d name ty default = Some x <-> field_or_default d name ty default x.
Proof.
  unfold optional, field_or_default.
  destruct (dict_get d (lit name)) as [v|]; [done |].
  split; [by intros [= ->] | by intros ->].
Qed.

(** C8 (as amended).  Converting a dict to [NoteDetail] or [NoteData] ignores
    keys the schema does not declare, and gives each optional field that is
    omitted its default ([imageList] the empty list, [video] [None]),
    whether or not the other one is there.  It succeeds exactly when every
    required field is there with a value of its type and every optional
    field that is there has a value of its type; it fails exactly when the
    value is not a dict, a required field is missing or has a value of the
    wrong type, or an optional field is present with a value of the wrong
    type. *)
Theorem C8_permissive_decoding :
  (forall d k v,
     Forall (fun name => k <> lit name) note_detail_fields ->
     Explore.NoteDetail.of_py (PDict (dict_set d k v))
     = Explore.NoteDetail.of_py (PDict d))
  /\ (forall d k v,
        Forall (fun name => k <> lit name) note_data_fields ->
        Discovery.NoteData.of_py (PDict (dict_set d k v))
        = Discovery.NoteData.of_py (PDict d))
  /\ (forall d ty ti de us,
        required d "type" as_str = Some ty ->
        required d "title" as_str = Some ti ->
        required d "desc" as_str = Some de ->
        required d "user" Explore.User.of_py = Some us ->
        dict_get d (lit "imageList") = None ->
        dict_get d (lit "video") = None ->
        convert Explore.NoteDetail.of_py (PDict d)
        = Ok {| Explore.NoteDetail.type := ty; Explore.NoteDetail.title := ti;
                Explore.NoteDetail.desc := de; Explore.NoteDetail.user := us;
                Explore.NoteDetail.imageList := [];
                Explore.NoteDetail.video := None |})
  /\ (forall v,
        convert Explore.NoteDetail.of_py v = Raise ValidationError <->
        (forall d, v <> PDict d)
        \/ exists d,
             v = PDict d
             /\ (missing_or_ill_typed d "type" as_str
                 \/ missing_or_ill_typed d "title" as_str
                 \/ missing_or_ill_typed d "desc" as_str
                 \/ missing_or_ill_typed d "user" Explore.User.of_py
                 \/ present_ill_typed d "imageList" (as_list Explore.Image.of_py)
                 \/ present_ill_typed d "video" (as_optional Video.of_py)))
  /\ (forall d nd,
        convert Explore.NoteDetail.of_py (PDict d) = Ok nd <->
        required d "type" as_str = Some (Explore.NoteDetail.type nd)
        /\ required d "title" as_str = Some (Explore.NoteDetail.title nd)
        /\ required d "desc" as_str = Some (Explore.NoteDetail.desc nd)
        /\ required d "user" Explore.User.of_py = Some (Explore.NoteDetail.user nd)
        /\ field_or_default d "imageList" (as_list Explore.Image.of_py) []
             (Explore.NoteDetail.imageList nd)
        /\ field_or_default d "video" (as_optional Video.of_py) None
             (Explore.NoteDetail.video nd))
  /\ (forall d nd,
        convert Discovery.NoteData.of_py (PDict d) = Ok nd <->
        required d "type" as_str = Some (Discovery.NoteData.type nd)
        /\ required d "title" as_str = Some (Discovery.NoteData.title nd)
        /\ required d "desc" as_str = Some (Discovery.NoteData.desc nd)
        /\ required d "user" Discovery.User.of_py = Some (Discovery.NoteData.user nd)
        /\ required d "time" as_int = Some (Discovery.NoteData.time nd)
        /\ required d "lastUpdateTime" as_int
           = Some (Discovery.NoteData.lastUpdateTime nd)
        /\ field_or_default d "imageList" (as_list Discovery.Image.of_py) []
             (Discovery.NoteData.imageList nd)
        /\ field_or_default d "video" (as_optional Video.of_py) None
             (Discovery.NoteData.video nd))
  /\ (forall v,
        convert Discovery.NoteData.of_py v = Raise ValidationError <->
        (forall d, v <> PDict d)
        \/ exists d,
             v = PDict d
             /\ (missing_or_ill_typed d "type" as_str
                 \/ missing_or_ill_typed d "title" as_str
                 \/ missing_or_ill_typed d "desc" as_str
                 \/ missing_or_ill_typed d "user" Discovery.User.of_py
                 \/ missing_or_ill_typed d "time" as_int
                 \/ missing_or_ill_typed d "lastUpdateTime" as_int
                 \/ present_ill_typed d "imageList" (as_list Discovery.Image.of_py)
                 \/ present_ill_typed d "video" (as_optional Video.of_py))).
Proof.
  split; [| split; [| split; [| split; [| split; [| split]]]]].
  - intros d k v Hk.
    repeat (apply Forall_cons in Hk as [? Hk]).
    unfold Explore.NoteDetail.of_py. cbn [as_dict mbind option_bind].
    by rewrite !required_set_ne, !optional_set_ne.
  - intros d k v Hk.
    repeat (apply Forall_cons in Hk as [? Hk]).
    unfold Discovery.NoteData.of_py. cbn [as_dict mbind option_bind].
    by rewrite !required_set_ne, !optional_set_ne.
  - intros d ty ti de us Hty Hti Hde Hus Himg Hvid.
    unfold convert, Explore.NoteDetail.of_py. cbn [as_dict mbind option_bind].
    rewrite Hty, Hti, Hde, Hus. unfold optional. by rewrite Himg, Hvid.
  - intros v. unfold convert.
    destruct v as [| | | | |l|d];
      try (cbn; split; [intros _; left; by intros d | done]).
    unfold Explore.NoteDetail.of_py. cbn [as_dict mbind option_bind].
    split.
    + intros Hfail. right. exists d. split; [done |].
      destruct (required d "type" as_str) eqn:H1;
        [| left; by apply required_None].
      destruct (required d "title" as_str) eqn:H2;
        [| right; left; by apply required_None].
      destruct (required d "desc" as_str) eqn:H3;
        [| do 2 right; left; by apply required_None].
      destruct (required d "user" Explore.User.of_py) eqn:H4;
        [| do 3 right; left; by apply required_None].
      destruct (optional d "imageList" (as_list Explore.Image.of_py) []) eqn:H5;
        [| do 4 right; left; by eapply optional_None].
      destruct (optional d "video" (as_optional Video.of_py) None) eqn:H6;
        [| do 5 right; by eapply optional_None].
      done.
    + intros [Hd|(d' & [= <-] & Hbad)]; [by destruct (Hd d) |].
      destruct Hbad as [H|[H|[H|[H|[H|H]]]]].
      * apply required_None in H. by rewrite H.
      * apply required_None in H. rewrite H. by destruct (required d "type" _).
      * apply required_None in H. rewrite H.
        by destruct (required d "type" _), (required d "title" _).
      * apply required_None in H. rewrite H.
        by destruct (required d "type" _), (required d "title" _),
             (required d "desc" _).
      * apply (optional_None _ _ _ []) in H. rewrite H.
        by destruct (required d "type" _), (required d "title" _),
             (required d "desc" _), (required d "user" _).
      * apply (optional_None _ _ _ None) in H. rewrite H.
        by destruct (required d "type" _), (required d "title" _),
             (required d "desc" _), (required d "user" _),
             (optional d "imageList" _ _).
  - intros d nd. unfold convert, Explore.NoteDetail.of_py.
    cbn [as_dict mbind option_bind].
    rewrite <- !optional_Some. split.
    + destruct (required d "type" as_str); [| done].
      destruct (required d "title" as_str); [| done].
      destruct (required d "desc" as_str); [| done].
      destruct (required d "user" Explore.User.of_py); [| done].
      destruct (optional d "imageList" (as_list Explore.Image.of_py) []); [| done].
      destruct (optional d "video" (as_optional Video.of_py) None); [| done].
      by intros [= <-].
    + intros (-> & -> & -> & -> & -> & ->). by destruct nd.
  - intros d nd. unfold convert, Discovery.NoteData.of_py.
    cbn [as_dict mbind option_bind].
    rewrite <- !optional_Some. split.
    + destruct (required d "type" as_str); [| done].
      destruct (required d "title" as_str); [| done].
      destruct (required d "desc" as_str); [| done].
      destruct (required d "user" Discovery.User.of_py); [| done].
      destruct (required d "time" as_int); [| done].
      destruct (required d "lastUpdateTime" as_int); [| done].
      destruct (optional d "imageList" (as_list Discovery.Image.of_py) []); [| done].
      destruct (optional d "video" (as_optional Video.of_py) None); [| done].
      by intros [= <-].
    + intros (-> & -> & -> & -> & -> & -> & -> & ->). by destruct nd.
  - intros v. unfold convert.
    destruct v as [| | | | |l|d];
      try (cbn; split; [intros _; left; by intros d | done]).
    unfold Discovery.NoteData.of_py. cbn [as_dict mbind option_bind].
    split.
    + intros Hfail. right. exists d. split; [done |].
      destruct (required d "type" as_str) eqn:H1;
        [| left; by apply required_None].
      destruct (required d "title" as_str) eqn:H2;
        [| right; left; by apply required_None].
      destruct (required d "desc" as_str) eqn:H3;
        [| do 2 right; left; by apply required_None].
      destruct (required d "user" Discovery.User.of_py) eqn:H4;
        [| do 3 right; left; by apply required_None].
      destruct (required d "time" as_int) eqn:H5;
        [| do 4 right; left; by apply required_None].
      destruct (required d "lastUpdateTime" as_int) eqn:H6;
        [| do 5 right; left; by apply required_None].
      destruct (optional d "imageList" (as_list Discovery.Image.of_py) []) eqn:H7;
        [| do 6 right; left; by eapply optional_None].
      destruct (optional d "video" (as_optional Video.of_py) None) eqn:H8;
        [| do 7 right; by eapply optional_None].
      done.
    + intros [Hd|(d' & [= <-] & Hbad)]; [by destruct (Hd d) |].
      destruct Hbad as [H|[H|[H|[H|[H|[H|[H|H]]]]]]].
      * apply required_None in H. by rewrite H.
      * apply required_None in H. rewrite H. by destruct (required d "type" _).
      * apply required_None in H. rewrite H.
        by destruct (required d "type" _), (required d "title" _).
      * apply required_None in H. rewrite H.
        by destruct (required d "type" _), (required d "title" _),
             (required d "desc" _).
      * apply required_None in H. rewrite H.
        by destruct (required d "type" _), (required d "title" _),
             (required d "desc" _), (required d "user" _).
      * apply required_None in H. rewrite H.
        by destruct (required d "type" _), (required d "title" _),
             (required d "desc" _), (required d "user" _),
             (required d "time" _).
      * apply (optional_None _ _ _ []) in H. rewrite H.
        by destruct (required d "type" _), (required d "title" _),
             (required d "desc" _), (required d "user" _),
             (required d "time" _), (required d "lastUpdateTime" _).
      * apply (optional_None _ _ _ None) in H. rewrite H.
        by destruct (required d "type" _), (required d "title" _),
             (required d "desc" _), (required d "user" _),
             (required d "time" _), (required d "lastUpdateTime" _),
             (optional d "imageList" _ _).
Qed.

(** C8, as stated, fails: [imageList] is optional, every required field is
    present and of the right type, and the conversion fails all the same,
    because [null] is not a list. *)
Lemma C8_counterexample :
  exists d,
    Json.json_loads null_image_list = Some (PDict d)
    /\ required d "type" as_str = Some (lit "normal")
    /\ required d "title" as_str = Some (lit "T")
    /\ required d "desc" as_str = Some (lit "D")
    /\ required d "user" Explore.User.of_py
       = Some {| Explore.User.nickname := lit "n"; Explore.User.avatar := lit "a" |}
    /\ convert Explore.NoteDetail.of_py (PDict d) = Raise ValidationError.
Proof. eexists. by vm_compute. Qed.

End decoding_claims.

(** ** [undefined] becomes [null] *)

Section replace_facts.
Import XiaoHongShu.

Lemma replace_from_skip (old new : list N) (s : list N) :
  forall k, replace_from old new k s = replace_from old new 0 (drop k s).
Proof.
  induction s as [|c s IH]; intros [|k]; try done.
  cbn [replace_from drop]. apply IH.
Qed.

Lemma nulled_nil : nulled [] = [].
Proof. done. Qed.

Lemma nulled_hit (s : list N) :
  starts_with undefined s = true -> nulled s = null ++ nulled (drop 9 s).
Proof.
  intros H. destruct s as [|c s]; [done |].
  unfold nulled, str_replace. change undefined with (117%N :: lit "ndefined") in *.
  cbn [replace_from]. rewrite H.
  by rewrite replace_from_skip.
Qed.

Lemma nulled_miss (c : N) (s : list N) :
  starts_with undefined (c :: s) = false -> nulled (c :: s) = c :: nulled s.
Proof.
  intros H. unfold nulled, str_replace.
  change undefined with (117%N :: lit "ndefined") in *.
  cbn [replace_from]. by rewrite H.
Qed.

Lemma undefined_hit_inv (s : list N) :
  starts_with undefined s = true -> exists r, s = undefined ++ r /\ drop 9 s = r.
Proof. intros [r ->]%starts_with_inv. by exists r. Qed.

Lemma undefined_hit_chars (s : list N) :
  starts_with undefined s = true ->
  exists r,
    s = 117%N :: 110%N :: 100%N :: 101%N :: 102%N :: 105%N :: 110%N :: 101%N
        :: 100%N :: r.
Proof. intros [r ->]%starts_with_inv. by exists r. Qed.

Lemma nulled_quiet (n : nat) :
  forall s, quiet n s = true -> nulled s = take n s ++ nulled (drop n s).
Proof.
  induction n as [|n IH]; intros s H; [done |].
  cbn [quiet] in H. apply andb_true_iff in H as [Hmiss Hrest].
  apply negb_true_iff in Hmiss.
  destruct s as [|c s]; [done |].
  rewrite (nulled_miss c s Hmiss). cbn [take drop app]. f_equal. by apply IH.
Qed.

Lemma drop_nulled_quiet (n : nat) (s : list N) :
  quiet n s = true -> drop n (nulled s) = nulled (drop n s).
Proof.
  intros H. rewrite (nulled_quiet n s H).
  destruct (decide (n <= length s)) as [Hle|Hgt].
  - rewrite drop_app_length'; [done |]. rewrite length_take. lia.
  - rewrite (drop_ge s n) by lia. rewrite nulled_nil, app_nil_r.
    rewrite drop_ge; [done |]. rewrite length_take. lia.
Qed.

Lemma take_nulled_quiet (n : nat) (s : list N) :
  quiet n s = true -> take n (nulled s) = take n s.
Proof.
  intros H. rewrite (nulled_quiet n s H).
  destruct (decide (n <= length s)) as [Hle|Hgt].
  - rewrite take_app_length'; [done |]. rewrite length_take. lia.
  - rewrite (drop_ge s n) by lia. rewrite nulled_nil, app_nil_r.
    by rewrite take_take, Nat.min_id.
Qed.

Lemma quiet_le (n m : nat) :
  n <= m -> forall s, quiet m s = true -> quiet n s = true.
Proof.
  revert m. induction n as [|n IH]; intros m Hle s H; [done |].
  destruct m as [|m]; [lia |]. cbn [quiet] in *.
  apply andb_true_iff in H as [-> Hrest]. cbn [andb].
  destruct s as [|c s]; [done |]. apply (IH m); [lia | done].
Qed.

Lemma incompatible_starts_with (w b x : list N) :
  compatible w b = false -> starts_with w (b ++ x) = false.
Proof.
  revert b. induction w as [|a w IH]; intros [|y b] H; try done.
  cbn in *. apply andb_false_iff in H as [->|H]; [done |].
  rewrite (IH b H). apply andb_false_r.
Qed.

Lemma starts_with_nulled (w : list N) :
  clear_of w = true -> forall s, starts_with w (nulled s) = starts_with w s.
Proof.
  induction w as [|a w IH]; intros Hclear s; [done |].
  cbn [clear_of] in Hclear.
  apply andb_true_iff in Hclear as [Hc Hclear].
  apply andb_true_iff in Hc as [Hn Hu]. apply negb_true_iff in Hn, Hu.
  destruct (starts_with undefined s) eqn:Hs.
  - rewrite (nulled_hit s Hs). destruct (undefined_hit_inv s Hs) as (r & -> & _).
    by rewrite !incompatible_starts_with.
  - destruct s as [|c s]; [done |]. rewrite (nulled_miss c s Hs).
    cbn [starts_with]. by rewrite IH.
Qed.

Lemma nulled_has_no_undefined_upto (n : nat) :
  forall s, length s <= n -> contains undefined (nulled s) = false.
Proof.
  induction n as [|n IH]; intros s Hlen.
  - destruct s; [done | cbn in Hlen; lia].
  - destruct (starts_with undefined s) eqn:Hs.
    + rewrite (nulled_hit s Hs). destruct (undefined_hit_inv s Hs) as (r & -> & ->).
      rewrite length_app in Hlen. cbn in Hlen.
      specialize (IH r ltac:(lia)). revert IH. generalize (nulled r). intros X IH.
      change (null ++ X) with (110%N :: 117%N :: 108%N :: 108%N :: X).
      cbn [contains]. rewrite IH.
      change undefined with (117%N :: lit "ndefined").
      cbn [starts_with N.eqb Pos.eqb andb orb].
      change (lit "ndefined") with (110%N :: lit "defined").
      cbn [starts_with N.eqb Pos.eqb andb orb]. done.
    + destruct s as [|c s]; [done |]. rewrite (nulled_miss c s Hs).
      cbn [contains]. rewrite (IH s) by (cbn in Hlen; lia). rewrite orb_false_r.
      change undefined with (117%N :: lit "ndefined") in *.
      cbn [starts_with] in *. by rewrite starts_with_nulled.
Qed.

(** After the replacement no occurrence of [undefined] is left. *)
Lemma nulled_has_no_undefined (s : list N) : contains undefined (nulled s) = false.
Proof. by apply (nulled_has_no_undefined_upto (length s)). Qed.

End replace_facts.

Section lexer_facts.
Import XiaoHongShu Json.

Lemma strings_clean_intro (s : list N) :
  forall st,
    (forall a b, s = a ++ undefined ++ b -> state_after st a = Outside) ->
    strings_clean st s = true.
Proof.
  induction s as [|c s IH]; intros st H; [done |].
  cbn [strings_clean]. apply andb_true_iff. split.
  - destruct st; [done | |];
      (apply negb_true_iff; destruct (starts_with undefined (c :: s)) eqn:Hs; [| done];
       apply starts_with_inv in Hs as [r Hr]; by specialize (H [] r Hr)).
  - apply IH. intros a b ->. apply (H (c :: a) b eq_refl).
Qed.

Lemma strings_clean_elim (s : list N) :
  strings_clean Outside s = true -> undefined_only_outside_strings s.
Proof.
  intros H a b ->. revert H.
  enough (forall st, strings_clean st (a ++ undefined ++ b) = true ->
                     state_after st a = Outside) as Hall by apply Hall.
  induction a as [|c a IH]; intros st H.
  - pose proof (starts_with_app undefined b) as Hsw.
    change ([] ++ undefined ++ b) with (117%N :: (lit "ndefined" ++ b)) in H.
    change (undefined ++ b) with (117%N :: (lit "ndefined" ++ b)) in Hsw.
    cbn [strings_clean] in H. apply andb_true_iff in H as [H _].
    destruct st; [done | |]; apply negb_true_iff in H; congruence.
  - cbn [app strings_clean] in H. apply andb_true_iff in H as [_ H].
    exact (IH _ H).
Qed.

Lemma lex_skip (u : bool) (s : list N) :
  forall k, lex u k s = lex u 0 (drop k s).
Proof.
  induction s as [|c s IH]; intros [|k]; try done.
  cbn [lex drop]. apply IH.
Qed.

Lemma lex_cons (u : bool) (c : N) (s : list N) :
  lex u 0 (c :: s)
  = '(t, n) ← lex_one u (c :: s);
    ts ← lex u 0 (drop n s);
    Some (match t with Some t => t :: ts | None => ts end).
Proof.
  cbn [lex]. destruct (lex_one u (c :: s)) as [[t n]|]; [| done].
  cbn. by rewrite lex_skip.
Qed.

(** A run of characters of a class that holds neither [u] nor [n] is the
    same before and after the replacement. *)
Lemma span_nulled (p : N -> bool) :
  p 117%N = false -> p 110%N = false ->
  forall s,
    span_len p (nulled s) = span_len p s /\ quiet (span_len p s) s = true.
Proof.
  intros Hu Hn. induction s as [|c s [IH1 IH2]]; [done |].
  destruct (starts_with undefined (c :: s)) eqn:Hs.
  - rewrite (nulled_hit _ Hs). destruct (undefined_hit_inv _ Hs) as (r & Hr & _).
    change undefined with (117%N :: lit "ndefined") in Hr. injection Hr as -> ->.
    change null with (110%N :: lit "ull"). cbn [app span_len]. by rewrite Hu, Hn.
  - rewrite (nulled_miss c s Hs). cbn [span_len]. destruct (p c); [| done].
    rewrite IH1. split; [done |]. cbn [quiet]. by rewrite Hs, IH2.
Qed.

Lemma span_len_le (p : N -> bool) (s : list N) : span_len p s <= length s.
Proof. induction s as [|c s IH]; cbn; [lia |]. destruct (p c); lia. Qed.

Lemma int_len_le (w : list N) (i : nat) : int_len w = Some i -> i <= length w.
Proof.
  unfold int_len. set (sign := if starts_with [45%N] w then 1 else 0).
  destruct (drop sign w) as [|c t] eqn:Hd; [done |].
  assert (Hlen : sign + S (length t) <= length w).
  { assert (length (drop sign w) = S (length t)) as Hl by by rewrite Hd.
    rewrite length_drop in Hl. lia. }
  pose proof (span_len_le is_digit t).
  destruct (N.eqb c 48); [intros [= <-]; lia |].
  destruct (is_digit c); [intros [= <-]; lia | done].
Qed.

Lemma frac_len_le (s : list N) : frac_len s <= length s.
Proof.
  unfold frac_len. destruct s as [|c t]; [done |].
  pose proof (span_len_le is_digit t). cbn [length]. destruct (_ && _); lia.
Qed.

Lemma exp_len_le (s : list N) : exp_len s <= length s.
Proof.
  unfold exp_len. destruct s as [|c t]; [done |]. cbn [length].
  destruct (N.eqb c 101 || N.eqb c 69); [| lia].
  set (sg := if starts_with [43%N] t || starts_with [45%N] t then 1 else 0).
  pose proof (span_len_le is_digit (drop sg t)) as H. rewrite length_drop in H.
  destruct (span_len is_digit (drop sg t) =? 0) eqn:Hk; [lia |].
  apply Nat.eqb_neq in Hk. lia.
Qed.

Lemma number_of_le (w : list N) (v : pyval) (n : nat) :
  number_of w = Some (v, n) -> n <= length w.
Proof.
  unfold number_of. destruct (int_len w) as [i|] eqn:Hi; [| done]. cbn.
  apply int_len_le in Hi.
  pose proof (frac_len_le (drop i w)) as Hf.
  pose proof (exp_len_le (drop (i + frac_len (drop i w)) w)) as Hx.
  rewrite !length_drop in *.
  destruct (_ && _); intros [= _ <-]; lia.
Qed.

(** Inside a string literal that holds no [undefined], the replacement
    changes nothing, and the literal ends where it ended. *)
Lemma string_end_nulled (s : list N) :
  forall esc : bool,
    strings_clean (if esc then Escaped else Inside) s = true ->
    string_end esc (nulled s) = string_end esc s
    /\ forall n, string_end esc s = Some n ->
         quiet (S n) s = true /\ strings_clean Outside (drop (S n) s) = true.
Proof.
  induction s as [|c s IH]; intros esc H; [done |].
  assert (Hmiss : starts_with undefined (c :: s) = false
                  /\ strings_clean
                       (next_state (if esc then Escaped else Inside) c) s = true).
  { cbn [strings_clean] in H. apply andb_true_iff in H as [H1 H2].
    split; [| done]. destruct esc; by apply negb_true_iff in H1. }
  destruct Hmiss as [Hmiss Hnext].
  rewrite (nulled_miss c s Hmiss). cbn [string_end quiet]. rewrite Hmiss.
  cbn [negb andb].
  destruct esc.
  - destruct (IH false Hnext) as [-> Hn]. split; [done |].
    intros n Hend. destruct (string_end false s) as [m|]; [| done].
    injection Hend as <-. by apply Hn.
  - cbn [next_state] in Hnext. destruct (N.eqb c 34).
    + split; [done |]. by intros n [= <-].
    + destruct (N.eqb c 92).
      * destruct (IH true Hnext) as [-> Hn]. split; [done |].
        intros n Hend. destruct (string_end true s) as [m|]; [| done].
        injection Hend as <-. by apply Hn.
      * destruct (IH false Hnext) as [-> Hn]. split; [done |].
        intros n Hend. destruct (string_end false s) as [m|]; [| done].
        injection Hend as <-. by apply Hn.
Qed.

Lemma scan_string_nulled (s : list N) :
  strings_clean Inside s = true ->
  scan_string (nulled s) = scan_string s
  /\ forall v n, scan_string s = Some (v, n) ->
       quiet n s = true /\ strings_clean Outside (drop n s) = true.
Proof.
  intros H. destruct (string_end_nulled s false H) as [Hend Hn].
  unfold scan_string. rewrite Hend.
  destruct (string_end false s) as [n|]; [| done].
  destruct (Hn n eq_refl) as [Hq Hc]. cbn [mbind option_bind].
  rewrite (take_nulled_quiet n s) by (apply (quiet_le n (S n)); [lia | done]).
  split; [done |].
  intros v n'. destruct (unescape (take n s)); [| done]. by intros [= _ <-].
Qed.

Lemma starts_with_cons_nulled (a : N) (w : list N) (c : N) (s : list N) :
  clear_of w = true ->
  starts_with (a :: w) (c :: nulled s) = starts_with (a :: w) (c :: s).
Proof. intros H. cbn [starts_with]. by rewrite starts_with_nulled. Qed.

Lemma strings_clean_drop_span (p : N -> bool) :
  p 34%N = false ->
  forall s k,
    k <= span_len p s ->
    strings_clean Outside s = true -> strings_clean Outside (drop k s) = true.
Proof.
  intros Hp. induction s as [|c s IH]; intros [|k] Hk H; try done.
  cbn [span_len] in Hk. destruct (p c) eqn:Hc; [| lia].
  cbn [drop]. apply IH; [lia |].
  cbn [strings_clean next_state andb] in H.
  destruct (N.eqb c 34) eqn:Hq; [| done].
  apply N.eqb_eq in Hq as ->. congruence.
Qed.

Lemma scan_number_nulled (c : N) (s : list N) :
  starts_with undefined (c :: s) = false ->
  strings_clean Outside s = true ->
  scan_number (c :: nulled s) = scan_number (c :: s)
  /\ forall v n, scan_number (c :: s) = Some (v, n) ->
       quiet (n - 1) s = true /\ strings_clean Outside (drop (n - 1) s) = true.
Proof.
  intros Hmiss Hclean. rewrite <- (nulled_miss c s Hmiss).
  destruct (span_nulled is_num_char eq_refl eq_refl (c :: s)) as [Hspan Hquiet].
  unfold scan_number. rewrite Hspan, (take_nulled_quiet _ _ Hquiet).
  split; [done |]. intros v n Hnum.
  apply number_of_le in Hnum. rewrite length_take in Hnum.
  cbn [span_len] in Hnum, Hquiet.
  destruct (is_num_char c).
  - cbn [quiet] in Hquiet. apply andb_true_iff in Hquiet as [_ Hquiet]. split.
    + apply (quiet_le _ (span_len is_num_char s)); [lia | done].
    + apply (strings_clean_drop_span is_num_char eq_refl); [lia | done].
  - assert (n = 0) as -> by lia. done.
Qed.

Ltac literal_token H :=
  apply starts_with_inv in H as [? H]; vm_compute (lit _) in H;
  injection H as -> ->.

(** The token at the start of a text that does not start with [undefined]
    is the same before and after the replacement, and the replacement goes
    on after the token as it would from there. *)
Lemma lex_one_nulled (c : N) (s : list N) :
  starts_with undefined (c :: s) = false ->
  strings_clean Outside (c :: s) = true ->
  lex_one false (c :: nulled s) = lex_one true (c :: s)
  /\ forall t n, lex_one true (c :: s) = Some (t, n) ->
       quiet n s = true /\ strings_clean Outside (drop n s) = true.
Proof.
  intros Hmiss Hclean. cbn [strings_clean next_state andb] in Hclean.
  unfold lex_one. change (lit "undefined") with undefined.
  rewrite Hmiss. cbn [andb].
  change (lit "null") with (110%N :: lit "ull").
  change (lit "true") with (116%N :: lit "rue").
  change (lit "false") with (102%N :: lit "alse").
  change (lit "NaN") with (78%N :: lit "aN").
  change (lit "Infinity") with (73%N :: lit "nfinity").
  change (lit "-Infinity") with (45%N :: lit "Infinity").
  rewrite !starts_with_cons_nulled by reflexivity.
  destruct (N.eqb c 34) eqn:Hq.
  - apply N.eqb_eq in Hq as ->. cbn [is_ws N.eqb Pos.eqb orb].
    destruct (scan_string_nulled s Hclean) as [-> Hn]. split; [done |].
    intros t n. destruct (scan_string s) as [[v m]|] eqn:Hscan; [| done].
    cbn. intros [= _ <-]. by apply (Hn v).
  - destruct (is_ws c); [split; [done | by intros t n [= _ <-]] |].
    destruct (N.eqb c 123); [split; [done | by intros t n [= _ <-]] |].
    destruct (N.eqb c 125); [split; [done | by intros t n [= _ <-]] |].
    destruct (N.eqb c 91); [split; [done | by intros t n [= _ <-]] |].
    destruct (N.eqb c 93); [split; [done | by intros t n [= _ <-]] |].
    destruct (N.eqb c 44); [split; [done | by intros t n [= _ <-]] |].
    destruct (N.eqb c 58); [split; [done | by intros t n [= _ <-]] |].
    destruct (starts_with (110%N :: lit "ull") (c :: s)) eqn:H1.
    { split; [done |]. intros t n [= _ <-]. literal_token H1. by split. }
    destruct (starts_with (116%N :: lit "rue") (c :: s)) eqn:H2.
    { split; [done |]. intros t n [= _ <-]. literal_token H2. by split. }
    destruct (starts_with (102%N :: lit "alse") (c :: s)) eqn:H3.
    { split; [done |]. intros t n [= _ <-]. literal_token H3. by split. }
    destruct (starts_with (78%N :: lit "aN") (c :: s)) eqn:H4.
    { split; [done |]. intros t n [= _ <-]. literal_token H4. by split. }
    destruct (starts_with (73%N :: lit "nfinity") (c :: s)) eqn:H5.
    { split; [done |]. intros t n [= _ <-]. literal_token H5. by split. }
    destruct (starts_with (45%N :: lit "Infinity") (c :: s)) eqn:H6.
    { split; [done |]. intros t n [= _ <-]. literal_token H6. by split. }
    destruct (scan_number_nulled c s Hmiss Hclean) as [-> Hn]. split; [done |].
    intros t n. destruct (scan_number (c :: s)) as [[v m]|] eqn:Hscan; [| done].
    cbn. intros [= _ <-]. by apply (Hn v).
Qed.

Lemma lex_nulled_upto (n : nat) :
  forall s,
    length s <= n -> strings_clean Outside s = true ->
    lex false 0 (nulled s) = lex true 0 s.
Proof.
  induction n as [|n IH]; intros s Hlen Hclean.
  - destruct s; [done | cbn in Hlen; lia].
  - destruct s as [|c s]; [done |]. cbn [length] in Hlen.
    destruct (starts_with undefined (c :: s)) eqn:Hs.
    + rewrite (nulled_hit _ Hs).
      destruct (undefined_hit_chars _ Hs) as [r Hr]. injection Hr as -> ->.
      cbn [length] in Hlen.
      change (drop 9 (117%N :: 110%N :: 100%N :: 101%N :: 102%N :: 105%N
                      :: 110%N :: 101%N :: 100%N :: r)) with r.
      assert (Hr : strings_clean Outside r = true) by exact Hclean.
      specialize (IH r ltac:(lia) Hr). revert IH. generalize (nulled r).
      intros X IH.
      change (null ++ X) with (110%N :: 117%N :: 108%N :: 108%N :: X).
      rewrite !lex_cons.
      change (lex_one false (110%N :: 117%N :: 108%N :: 108%N :: X))
        with (Some (Some (TAtom PNone), 3)).
      change (lex_one true (117%N :: 110%N :: 100%N :: 101%N :: 102%N :: 105%N
                            :: 110%N :: 101%N :: 100%N :: r))
        with (Some (Some (TAtom PNone), 8)).
      cbn [mbind option_bind].
      change (drop 3 (117%N :: 108%N :: 108%N :: X)) with X.
      change (drop 8 (110%N :: 100%N :: 101%N :: 102%N :: 105%N
                      :: 110%N :: 101%N :: 100%N :: r)) with r.
      by rewrite IH.
    + rewrite (nulled_miss c s Hs), !lex_cons.
      destruct (lex_one_nulled c s Hs Hclean) as [-> Htok].
      destruct (lex_one true (c :: s)) as [[t m]|]; [| done].
      destruct (Htok t m eq_refl) as [Hq Hc].
      cbn [mbind option_bind]. rewrite (drop_nulled_quiet m s Hq).
      rewrite IH; [done | | done]. rewrite length_drop. lia.
Qed.

(** When [undefined] occurs only outside the string literals, decoding the
    text after the replacement is decoding the text with [undefined] read as
    a value, [None]. *)
Lemma json_loads_nulled (payload : list N) :
  undefined_only_outside_strings payload ->
  json_loads (nulled payload) = js_loads payload.
Proof.
  intros H. unfold json_loads, js_loads, loads_with.
  rewrite (lex_nulled_upto (length payload)); [done | done |].
  by apply strings_clean_intro.
Qed.

(** C9 (as amended).  [_extract_initial_state_json] decodes the payload
    after replacing every occurrence of the word undefined by null (none is
    left), also inside the string literals, which are the string values and
    the keys of the objects: there is a valid payload whose decoded string
    value differs from its text, and one whose key does.  When the word
    occurs in no string literal, neither a string value nor a key, the
    result is the decoding of the payload with [undefined] read as
    [None]. *)
Theorem C9_undefined_is_replaced_by_null :
  (forall html group1,
     Re.initial_state_search html = Some group1 ->
     _extract_initial_state_json html
     = match json_loads (str_replace undefined null group1) with
       | Some json_obj => Ok json_obj
       | None => Raise JSONDecodeError
       end)
  /\ (forall s, contains undefined (str_replace undefined null s) = false)
  /\ (exists payload,
        json_loads payload = Some (PDict [(lit "a", PStr (lit "undefined"))])
        /\ _extract_initial_state_json (Worlds.state_page payload)
           = Ok (PDict [(lit "a", PStr (lit "null"))]))
  /\ (exists payload,
        json_loads payload = Some (PDict [(lit "undefined", PStr (lit "x"))])
        /\ _extract_initial_state_json (Worlds.state_page payload)
           = Ok (PDict [(lit "null", PStr (lit "x"))]))
  /\ (forall html group1,
        Re.initial_state_search html = Some group1 ->
        undefined_only_outside_strings group1 ->
        _extract_initial_state_json html
        = match js_loads group1 with
          | Some json_obj => Ok json_obj
          | None => Raise JSONDecodeError
          end).
Proof.
  split; [| split; [| split; [| split]]].
  - intros html g Hs. unfold _extract_initial_state_json. by rewrite Hs.
  - apply nulled_has_no_undefined.
  - exists Worlds.quoted_undefined. by vm_compute.
  - exists Worlds.undefined_key. by vm_compute.
  - intros html g Hs Hout. unfold _extract_initial_state_json. rewrite Hs.
    by rewrite <- (json_loads_nulled g Hout).
Qed.

(** A state blob that holds two [undefined] values decodes with [None] in
    their places. *)
Lemma C9_witness :
  _extract_initial_state_json (Worlds.state_page Worlds.bare_undefined)
  = match js_loads Worlds.bare_undefined with
    | Some json_obj => Ok json_obj
    | None => Raise JSONDecodeError
    end.
Proof.
  apply (proj2 (proj2 (proj2 (proj2 C9_undefined_is_replaced_by_null)))).
  - by vm_compute.
  - apply strings_clean_elim. by vm_compute.
Defined.

(** C9, as stated, fails for a key: in this payload the word occurs in no
    string value, and the result has the key null where the decoding of the
    payload has the key undefined. *)
Lemma C9_counterexample :
  json_loads Worlds.undefined_key_only = Some (PDict [(lit "undefined", PInt 1)])
  /\ js_loads Worlds.undefined_key_only = Some (PDict [(lit "undefined", PInt 1)])
  /\ forallb (fun s => negb (contains undefined s))
       (string_values (PDict [(lit "undefined", PInt 1)])) = true
  /\ _extract_initial_state_json (Worlds.state_page Worlds.undefined_key_only)
     = Ok (PDict [(lit "null", PInt 1)]).
Proof. by vm_compute. Qed.

End lexer_facts.

(** ** The claims at concrete inputs *)

Section concrete_inputs.
Import Async Base Media Worlds Msgspec.

(** The m.douyin page answers with a post: the chain returns it after one
    request. *)
Lemma C5_witness :
  exists r,
    fst (Douyin._parse_douyin reads_both_kinds no_slides_info (serving router_page)
           (lit "video") (lit "1") []) = Ok r
    /\ requests (snd (Douyin._parse_douyin reads_both_kinds no_slides_info
                        (serving router_page) (lit "video") (lit "1") []))
       = [Douyin.video_request (Douyin._build_m_douyin_url (lit "video") (lit "1"))].
Proof.
  edestruct (proj1 C5_first_success_short_circuits reads_both_kinds no_slides_info
               (serving router_page) (lit "video") (lit "1") [])
    as (Hr & Hreq & _).
  - discriminate.
  - vm_compute. reflexivity.
  - eexists. split; [exact Hr | exact Hreq].
Defined.

(** With every page answering 403, the first attempt raises a
    [ParseException] and the second URL is requested. *)
Lemma C3_witness :
  exists evs,
    snd (Douyin._parse_douyin no_router_data no_slides_info forbidden
           (lit "video") (lit "1") [])
    = snd (Douyin.parse_video no_router_data forbidden
             (Douyin._build_m_douyin_url (lit "video") (lit "1")) [])
      ++ LogParseFailed (Douyin._build_m_douyin_url (lit "video") (lit "1"))
           (ParseException "status: 403")
      :: Requested (Douyin.video_request
                      (Douyin._build_iesdouyin_url (lit "video") (lit "1")))
      :: evs
    /\ requests evs = [].
Proof.
  apply (proj1 (proj1 C3_only_parse_exceptions_advance no_router_data no_slides_info
                  forbidden (lit "video") (lit "1") [] ltac:(discriminate))
           "status: 403"%string).
  reflexivity.
Defined.

(** A video note with an image: the result holds the video, with the image
    as its cover.  A Douyin post with two images and a video: the result
    holds the JPEG of the first image and the URL of the second, whose
    conversion fails, and no video. *)
Lemma C2_witness :
  (exists r,
     fst (XiaoHongShu.parse_explore (serving video_note)
            (lit "https://www.xiaohongshu.com/explore/abc?x=1") (lit "abc") []) = Ok r
     /\ contents r = [VideoContent (PStr (lit "v.mp4")) (Some (lit "c.jpg")) None])
  /\ (exists r,
        fst (Douyin.parse_video reads_both_kinds (serving router_page)
               (Douyin._build_m_douyin_url (lit "video") (lit "1")) []) = Ok r
        /\ contents r = [ImageContent (SaveJpg jpeg_stub);
                         ImageContent (DownloadImg (lit "i1"))]).
Proof.
  split.
  - edestruct (proj1 C2_content_kind_priority (serving video_note)
                 (lit "https://www.xiaohongshu.com/explore/abc?x=1") (lit "abc") [])
      as (r & Hr & Hvideo & _).
    + vm_compute. reflexivity.
    + vm_compute. reflexivity.
    + exists r. split; [exact Hr | apply Hvideo; reflexivity].
  - edestruct (proj1 (proj2 (proj2 C2_content_kind_priority)) reads_both_kinds
                 (serving router_page)
                 (Douyin._build_m_douyin_url (lit "video") (lit "1")) [])
      as (r & Hr & Himages & _).
    + vm_compute. reflexivity.
    + exists r. split; [exact Hr | apply Himages; discriminate].
Defined.

(** A Douyin post without media: the result is returned, and it is empty. *)
Lemma C6_witness :
  exists r,
    fst (Douyin.parse_video reads_no_media (serving router_page)
           (Douyin._build_m_douyin_url (lit "video") (lit "1")) []) = Ok r
    /\ contents r = [].
Proof.
  edestruct (proj1 C6_contents_can_be_empty reads_no_media (serving router_page)
               (Douyin._build_m_douyin_url (lit "video") (lit "1")) [])
    as (r & Hr & Hempty).
  - vm_compute. reflexivity.
  - exists r. split; [exact Hr | apply Hempty; by split].
Defined.

(** A note with keys the schema does not declare and without the optional
    fields decodes, with the defaults; a note with an image list and without
    the field [video] decodes, with the images and the default of
    [video]. *)
Lemma C8_witness :
  (exists d,
     Json.json_loads drifted_note = Some (PDict d)
     /\ convert XiaoHongShu.Explore.NoteDetail.of_py (PDict d)
        = Ok {| XiaoHongShu.Explore.NoteDetail.type := lit "normal";
                XiaoHongShu.Explore.NoteDetail.title := lit "T";
                XiaoHongShu.Explore.NoteDetail.desc := lit "D";
                XiaoHongShu.Explore.NoteDetail.user :=
                  {| XiaoHongShu.Explore.User.nickname := lit "n";
                     XiaoHongShu.Explore.User.avatar := lit "a" |};
                XiaoHongShu.Explore.NoteDetail.imageList := [];
                XiaoHongShu.Explore.NoteDetail.video := None |})
  /\ (exists d,
        Json.json_loads images_only_note = Some (PDict d)
        /\ convert XiaoHongShu.Explore.NoteDetail.of_py (PDict d)
           = Ok {| XiaoHongShu.Explore.NoteDetail.type := lit "normal";
                   XiaoHongShu.Explore.NoteDetail.title := lit "T";
                   XiaoHongShu.Explore.NoteDetail.desc := lit "D";
                   XiaoHongShu.Explore.NoteDetail.user :=
                     {| XiaoHongShu.Explore.User.nickname := lit "n";
                        XiaoHongShu.Explore.User.avatar := lit "a" |};
                   XiaoHongShu.Explore.NoteDetail.imageList :=
                     [{| XiaoHongShu.Explore.Image.urlDefault := lit "i.jpg" |}];
                   XiaoHongShu.Explore.NoteDetail.video := None |}).
Proof.
  split.
  - eexists. split; [vm_compute; reflexivity |].
    apply (proj1 (proj2 (proj2 C8_permissive_decoding))); reflexivity.
  - eexists. split; [vm_compute; reflexivity |].
    apply (proj1 (proj2 (proj2 (proj2 (proj2 C8_permissive_decoding))))).
    repeat split; reflexivity.
Defined.

(** With an empty h265 list and one h264 stream, the h264 URL is selected. *)
Lemma C10_witness :
  XiaoHongShu.Video.video_url h264_only = Ok (PStr (lit "v.mp4")).
Proof.
  apply (proj1 (proj2 (proj1 C10_codec_preference h264_only
                         [(lit "masterUrl", PStr (lit "v.mp4"))] []
                         (PStr (lit "v.mp4")) eq_refl))).
  - by right.
  - reflexivity.
Defined.

End concrete_inputs.

(** * Further properties *)

(** ** The conversion block, slot by slot and line by line *)

Section conversion_block.
Import Async Base Media.

Lemma collect_sources_count (image_urls : list (list N)) :
  forall (results : list (nat * option (list byte))) (acc : list source) (n : nat),
    Forall (fun r => r.1 < length image_urls) results ->
    collect_sources image_urls results acc n
    = Ok (acc ++ map (picked image_urls) results,
          n + length (List.filter is_bytes (map (picked image_urls) results))).
Proof.
  induction results as [|[idx jpg] results IH]; intros acc n Hidx.
  - cbn. by rewrite app_nil_r, Nat.add_0_r.
  - apply Forall_cons in Hidx as [Hlt Hidx]. cbn [collect_sources map List.filter].
    unfold picked at 1 3. cbn [fst snd].
    destruct (lookup_lt_is_Some_2 image_urls idx Hlt) as [url Hurl].
    rewrite Hurl. cbn [default].
    destruct (jpg_truthy jpg); cbn [is_bytes length].
    + rewrite (IH _ _ Hidx), <- app_assoc. do 2 f_equal. lia.
    + rewrite (IH _ _ Hidx), <- app_assoc. reflexivity.
Qed.

(** Tasks that end with a value and write one line each. *)
Lemma finish_in_order_lines {A} (tasks : list (coro A)) (lines : list event) :
  length tasks = length lines ->
  (forall i task, tasks !! i = Some task ->
     exists v l, lines !! i = Some l /\ forall tr, task tr = (Ok v, tr ++ [l])) ->
  forall (order : list nat) (slots : list (option A)) (tr : list event),
    snd (finish_in_order tasks order slots tr)
    = tr ++ omap (fun i => lines !! i) order.
Proof.
  intros Hlen Htasks order.
  induction order as [|i rest IH]; intros slots tr; cbn [finish_in_order].
  - by rewrite app_nil_r.
  - change (omap (fun i => lines !! i) (i :: rest))
      with (match lines !! i with
            | Some l => l :: omap (fun i => lines !! i) rest
            | None => omap (fun i => lines !! i) rest
            end).
    destruct (tasks !! i) as [task|] eqn:Hi.
    + destruct (Htasks i task Hi) as (v & l & Hl & Hrun).
      unfold bind. rewrite Hrun, IH, Hl. by rewrite <- app_assoc.
    + rewrite IH. apply lookup_ge_None in Hi.
      by rewrite (lookup_ge_None_2 lines i) by lia.
Qed.

Lemma omap_ext_in {A B} (f g : A -> option B) (l : list A) :
  (forall x, x ∈ l -> f x = g x) -> omap f l = omap g l.
Proof.
  intros H. apply list_omap_ext, Forall2_same_length_lookup_2; [done |].
  intros i x y Hx Hy. rewrite Hx in Hy. injection Hy as <-.
  apply H. by eapply list_elem_of_lookup_2.
Qed.

Lemma omap_lookup_seq {A} (l : list A) :
  omap (fun i => l !! i) (seq 0 (length l)) = l.
Proof.
  induction l as [|x l IH] using rev_ind; [done |].
  rewrite length_app, Nat.add_comm. cbn [length Nat.add].
  rewrite seq_S, omap_app. cbn [Nat.add]. f_equal.
  - rewrite <- IH at 2. apply omap_ext_in.
    intros i [_ Hi]%elem_of_seq. by rewrite lookup_app_l by lia.
  - change (omap ?f [?k]) with (match f k with Some y => [y] | None => [] end).
    cbv beta.
    assert (Hx : (l ++ [x]) !! length l = Some x)
      by apply (list_lookup_middle l [] x (length l) eq_refl).
    by rewrite Hx.
Qed.

(** X1.  The conversion block of the four parse functions never raises,
    whatever the conversions do: [image_sources] has one element per URL;
    element i is the JPEG bytes when the conversion of URL i gave bytes that
    are not empty, and the URL itself otherwise.  So a conversion that ends
    with empty bytes is treated like a failed one. *)
Theorem conversion_block_never_raises (w : env) (image_urls : list (list N))
    (tr : list event) :
  exists image_sources,
    fst (convert_images w image_urls tr) = Ok image_sources
    /\ length image_sources = length image_urls
    /\ forall i url,
         image_urls !! i = Some url ->
         image_sources !! i
         = Some (match convert_image w url i with
                 | Some (b :: jpg_data) => SrcBytes (b :: jpg_data)
                 | Some [] | None => SrcUrl url
                 end).
Proof.
  eexists. split; [apply convert_images_picked |].
  split; [by rewrite length_imap |].
  intros i url Hurl. rewrite list_lookup_imap, Hurl. cbn [fmap option_fmap option_map].
  f_equal. unfold picked. cbn [fst snd]. rewrite Hurl.
  by destruct (convert_image w url i) as [[|b jpg]|].
Qed.

(** The results of the gathered conversion tasks. *)
Lemma gather_conversions (w : env) (image_urls : list (list N)) (tr : list event) :
  gather (finish_choices w)
    (imap (fun i img_url => _convert_webp_to_jpg w img_url i) image_urls) tr
  = (Ok (imap (fun i img_url => (i, convert_image w img_url i)) image_urls),
     tr ++ omap (fun i => imap (conversion_line w) image_urls !! i)
             (finishing_order w (length image_urls))).
Proof.
  pose proof (gather_returns _ _ (finish_choices w) tr
                (conversion_tasks_return w image_urls)) as Hfst.
  assert (Hsnd : snd (gather (finish_choices w)
                        (imap (fun i img_url => _convert_webp_to_jpg w img_url i)
                           image_urls) tr)
                 = tr ++ omap (fun i => imap (conversion_line w) image_urls !! i)
                           (finishing_order w (length image_urls))).
  { unfold gather, bind, finishing_order. rewrite !length_imap.
    pose proof (finish_in_order_lines
                  (imap (fun i img_url => _convert_webp_to_jpg w img_url i) image_urls)
                  (imap (conversion_line w) image_urls)) as Hlines.
    rewrite !length_imap in Hlines. specialize (Hlines eq_refl).
    assert (Htasks : forall i task,
              imap (fun i img_url => _convert_webp_to_jpg w img_url i) image_urls !! i
              = Some task ->
              exists v l, imap (conversion_line w) image_urls !! i = Some l
                          /\ forall tr, task tr = (Ok v, tr ++ [l])).
    { intros i task Hi. rewrite list_lookup_imap in Hi.
      destruct (image_urls !! i) as [url|] eqn:Hurl; [| done].
      injection Hi as <-.
      exists (i, convert_image w url i), (conversion_line w i url).
      split; [by rewrite list_lookup_imap, Hurl |].
      intros tr0. unfold _convert_webp_to_jpg, conversion_line.
      by destruct (convert_image w url i). }
    specialize (Hlines Htasks).
    match goal with
    | |- context [finish_in_order ?t ?o ?s ?r] =>
        specialize (Hlines o s r);
        destruct (finish_in_order t o s r) as [[slots|e] tr1]
    end; exact Hlines. }
  destruct (gather _ _ _) as [o tr1]. cbn [fst snd] in *. by subst.
Qed.

(** X2.  [results.sort(key=lambda x: x[0])] changes nothing: [gather] hands
    the results back in the order of the tasks, and task i returns the index
    i, so the list is sorted before the sort. *)
Theorem sort_after_gather_changes_nothing (w : env) (image_urls : list (list N))
    (tr : list event) :
  exists results,
    fst (gather (finish_choices w)
           (imap (fun i img_url => _convert_webp_to_jpg w img_url i) image_urls) tr)
    = Ok results
    /\ map fst results = seq 0 (length image_urls)
    /\ sort_by_key fst results = results.
Proof.
  eexists. rewrite gather_conversions. split; [done |]. split.
  - apply list_eq. intros i. rewrite list_lookup_fmap, list_lookup_imap.
    destruct (image_urls !! i) as [url|] eqn:Hurl; cbn.
    + symmetry. apply lookup_seq. split; [done |]. by apply lookup_lt_Some in Hurl.
    + symmetry. apply lookup_ge_None. rewrite length_seq. by apply lookup_ge_None.
  - apply sort_by_key_sorted.
    intros i j x y Hij Hx Hy. rewrite list_lookup_imap in Hx, Hy.
    destruct (image_urls !! i); [| done]. destruct (image_urls !! j); [| done].
    injection Hx as <-. injection Hy as <-. cbn. lia.
Qed.

(** X3.  What the conversion block writes to the log: the number of images,
    then one line per conversion task, in the order in which the tasks
    finish, then the number of successes, which is the number of JPEG
    sources in [image_sources].  Every image has exactly one conversion
    line, and no page is requested. *)
Theorem conversion_block_log (w : env) (image_urls : list (list N))
    (tr : list event) :
  exists image_sources lines,
    convert_images w image_urls tr
    = (Ok image_sources,
       tr ++ LogFound (length image_urls) :: lines
          ++ [LogSuccessCount (length (List.filter is_bytes image_sources))
                (length image_urls)])
    /\ lines = omap (fun i => imap (conversion_line w) image_urls !! i)
                 (finishing_order w (length image_urls))
    /\ lines ≡ₚ imap (conversion_line w) image_urls
    /\ requests lines = [].
Proof.
  exists (imap (fun i url => picked image_urls (i, convert_image w url i)) image_urls).
  eexists. split; [| split; [reflexivity | split]].
  - unfold convert_images, bind at 1. cbn [emit].
    unfold bind at 1. rewrite gather_conversions.
    rewrite sort_by_key_sorted.
    2:{ intros i j x y Hij Hx Hy. rewrite list_lookup_imap in Hx, Hy.
        destruct (image_urls !! i); [|done]. destruct (image_urls !! j); [|done].
        injection Hx as <-. injection Hy as <-. cbn. lia. }
    unfold bind, lift. rewrite collect_sources_count.
    2:{ apply Forall_forall. intros r [i Hr]%list_elem_of_lookup.
        rewrite list_lookup_imap in Hr.
        destruct (image_urls !! i) eqn:Hurl; [|done].
        injection Hr as <-. cbn. by apply lookup_lt_Some in Hurl. }
    cbn [emit ret fst snd app Nat.add].
    assert (Hmap : map (picked image_urls)
                     (imap (fun i img_url => (i, convert_image w img_url i)) image_urls)
                   = imap (fun i url => picked image_urls (i, convert_image w url i))
                       image_urls).
    { apply list_eq. intros i.
      change (map (picked image_urls) ?l) with (picked image_urls <$> l).
      rewrite list_lookup_fmap, !list_lookup_imap.
      by destruct (image_urls !! i). }
    rewrite Hmap. f_equal. rewrite <- !app_assoc. reflexivity.
  - unfold finishing_order.
    rewrite completion_order_perm by (by rewrite length_seq).
    rewrite <- (length_imap (conversion_line w) image_urls).
    by rewrite omap_lookup_seq.
  - unfold requests.
    match goal with |- omap ?f ?l = [] => destruct (omap f l) as [|r rs] eqn:Hr end;
      [done | exfalso].
    assert (Hin : r ∈ r :: rs) by left. rewrite <- Hr in Hin.
    apply list_elem_of_omap in Hin as (ev & Hev & Hreq).
    apply list_elem_of_omap in Hev as (i & _ & Hi).
    rewrite list_lookup_imap in Hi.
    destruct (image_urls !! i) as [url|]; [| done].
    injection Hi as <-. unfold conversion_line in Hreq.
    by destruct (convert_image w url i).
Qed.

End conversion_block.

(** ** Status codes, missing keys and bounds *)

Section edge_behaviour.
Import Async Base Media Worlds.

(** X4.  [parse_video] accepts the status 200 and no other, be it another
    2xx or a redirect, and does not look at the body then.  When both pages
    of [_parse_douyin] answer with another status, each failure is logged
    with its status, and the caller gets the [ParseException] of the chain
    after the two requests. *)
Theorem douyin_status_failures
    (decode_RouterData : list N -> outcome Douyin.video.VideoData)
    (decode_SlidesInfo : list N -> outcome (list Douyin.slides.SlidesData))
    (w : env) (ty vid : list N) (tr : list event)
    (status1 status2 : N) (body1 body2 : list N) :
  ty <> lit "slides" ->
  http_get w (Douyin.video_request (Douyin._build_m_douyin_url ty vid))
    = Response status1 body1 ->
  status1 <> 200%N ->
  http_get w (Douyin.video_request (Douyin._build_iesdouyin_url ty vid))
    = Response status2 body2 ->
  status2 <> 200%N ->
  Douyin._parse_douyin decode_RouterData decode_SlidesInfo w ty vid tr
  = (Raise (ParseException Douyin.all_failed_message),
     tr ++ [Requested (Douyin.video_request (Douyin._build_m_douyin_url ty vid));
            LogParseFailed (Douyin._build_m_douyin_url ty vid)
              (ParseException ("status: " ++ decimal status1));
            Requested (Douyin.video_request (Douyin._build_iesdouyin_url ty vid));
            LogParseFailed (Douyin._build_iesdouyin_url ty vid)
              (ParseException ("status: " ++ decimal status2))]).
Proof.
  intros Hty H1 Hs1 H2 Hs2.
  unfold Douyin._parse_douyin. rewrite (not_slides ty Hty).
  cbn [Douyin.try_urls]. unfold try_except, Douyin.parse_video,
    Douyin.fetch_video_data, bind, emit, raise.
  rewrite H1, H2.
  apply N.eqb_neq in Hs1, Hs2. rewrite Hs1, Hs2.
  cbn [negb is_ParseException]. by rewrite <- !app_assoc.
Qed.

(** Both pages answer 403. *)
Lemma douyin_status_failures_witness :
  Douyin._parse_douyin no_router_data no_slides_info forbidden (lit "note") (lit "7") []
  = (Raise (ParseException Douyin.all_failed_message),
     [] ++ [Requested (Douyin.video_request
                         (Douyin._build_m_douyin_url (lit "note") (lit "7")));
            LogParseFailed (Douyin._build_m_douyin_url (lit "note") (lit "7"))
              (ParseException ("status: " ++ decimal 403));
            Requested (Douyin.video_request
                         (Douyin._build_iesdouyin_url (lit "note") (lit "7")));
            LogParseFailed (Douyin._build_iesdouyin_url (lit "note") (lit "7"))
              (ParseException ("status: " ++ decimal 403))]).
Proof.
  apply (douyin_status_failures no_router_data no_slides_info forbidden
           (lit "note") (lit "7") [] 403 403 [] []);
    [discriminate | reflexivity | discriminate | reflexivity | discriminate].
Defined.

Lemma logs_only_slides_result (w : env) (sd : Douyin.slides.SlidesData) :
  logs_only (Douyin.slides_result w sd).
Proof. unfold Douyin.slides_result. repeat logs_only_step. Qed.

Lemma parse_slides_one_request
    (decode_SlidesInfo : list N -> outcome (list Douyin.slides.SlidesData))
    (w : env) (video_id : list N) :
  one_request (Douyin.slides_request video_id)
    (Douyin.parse_slides decode_SlidesInfo w video_id).
Proof.
  apply one_request_bind; [| apply logs_only_slides_result].
  unfold Douyin.fetch_slides_data. apply one_request_intro. repeat logs_only_step.
Qed.

(** X5.  A slides link has no fallback: [_parse_douyin] with ty = slides is
    [parse_slides], which sends one request, to the slidesinfo API, and never
    asks for a share page.  Its failures reach the caller as they are: a
    transport failure or a status outside 2xx as the error of the HTTP
    client, an exception of the decoder unchanged, and an answer with no
    entry as [IndexError]; none of them is a [ParseException]. *)
Theorem slides_link_has_no_fallback :
  forall (decode_RouterData : list N -> outcome Douyin.video.VideoData)
         (decode_SlidesInfo : list N -> outcome (list Douyin.slides.SlidesData))
         (w : env) (vid : list N) (tr : list event),
    let chain :=
      Douyin._parse_douyin decode_RouterData decode_SlidesInfo w (lit "slides") vid tr in
    chain = Douyin.parse_slides decode_SlidesInfo w vid tr
    /\ requests (snd chain) = requests tr ++ [Douyin.slides_request vid]
    /\ (http_get w (Douyin.slides_request vid) = Unreachable ->
        fst chain = Raise HTTPError)
    /\ (forall status_code content,
          http_get w (Douyin.slides_request vid) = Response status_code content ->
          (Douyin.is_success status_code = false -> fst chain = Raise HTTPError)
          /\ (Douyin.is_success status_code = true ->
              (forall e, decode_SlidesInfo content = Raise e -> fst chain = Raise e)
              /\ (decode_SlidesInfo content = Ok [] -> fst chain = Raise IndexError))).
Proof.
  intros dR dS w vid tr chain. subst chain.
  assert (Heq : Douyin._parse_douyin dR dS w (lit "slides") vid tr
                = Douyin.parse_slides dS w vid tr) by done.
  rewrite Heq. split; [done |].
  split; [apply one_request_requests, parse_slides_one_request |].
  unfold Douyin.parse_slides, Douyin.fetch_slides_data, bind, emit, raise, lift.
  split; [by intros -> |].
  intros status_code content ->. split.
  - by intros ->.
  - intros ->. cbn [negb]. split; [by intros e -> | by intros ->].
Qed.

Lemma try_urls_last_requests
    (decode_RouterData : list N -> outcome Douyin.video.VideoData)
    (w : env) (url : list N) (tr : list event) :
  requests (snd (Douyin.try_urls decode_RouterData w [url] tr))
  = requests tr ++ [Douyin.video_request url].
Proof.
  cbn [Douyin.try_urls]. unfold try_except.
  pose proof (parse_video_requests decode_RouterData w url tr) as Hreq.
  destruct (Douyin.parse_video decode_RouterData w url tr) as [[r|e] tr1];
    cbn [snd] in *; [done |].
  destruct (is_ParseException e); [| done].
  unfold bind, emit, raise. cbn [snd].
  by rewrite requests_app, Hreq, app_nil_r.
Qed.

(** X6.  One resolution asks for at most two pages, each at most once and in
    a fixed order, whatever the answers are: [_parse_douyin] asks for the
    m.douyin page, and after it, at most, for the iesdouyin page;
    [_parse_discovery] asks for the explore page, and after it, at most, for
    the discovery page.  (The downloads of the images are not page
    requests.) *)
Theorem at_most_two_page_requests :
  (forall (decode_RouterData : list N -> outcome Douyin.video.VideoData)
          (decode_SlidesInfo : list N -> outcome (list Douyin.slides.SlidesData))
          (w : env) (ty vid : list N) (tr : list event),
     ty <> lit "slides" ->
     let asked :=
       requests (snd (Douyin._parse_douyin decode_RouterData decode_SlidesInfo
                        w ty vid tr)) in
     asked = requests tr
             ++ [Douyin.video_request (Douyin._build_m_douyin_url ty vid)]
     \/ asked = requests tr
                ++ [Douyin.video_request (Douyin._build_m_douyin_url ty vid);
                    Douyin.video_request (Douyin._build_iesdouyin_url ty vid)])
  /\ (forall (w : env) (route xhs_id : list N) (tr : list event),
        let asked := requests (snd (XiaoHongShu._parse_discovery w route xhs_id tr)) in
        asked = requests tr ++ [XiaoHongShu.explore_request (explore_url route)]
        \/ asked = requests tr
                   ++ [XiaoHongShu.explore_request (explore_url route);
                       XiaoHongShu.discovery_request (XiaoHongShu.site ++ route)]).
Proof.
  split.
  - intros dR dS w ty vid tr Hty asked. subst asked.
    unfold Douyin._parse_douyin. rewrite (not_slides ty Hty).
    pose proof (parse_video_requests dR w (Douyin._build_m_douyin_url ty vid) tr) as Hreq.
    destruct (Douyin.parse_video dR w (Douyin._build_m_douyin_url ty vid) tr)
      as [[r|e] tr1] eqn:Hfirst.
    + left. rewrite (try_urls_first_success dR w _ _ tr r); by rewrite Hfirst.
    + destruct (is_ParseException e) eqn:He.
      * right. destruct e; try done.
        rewrite (try_urls_next dR w _ _ tr msg); [| by rewrite Hfirst].
        rewrite try_urls_last_requests, requests_app, Hfirst. cbn [snd] in *.
        rewrite Hreq. cbn. by rewrite app_nil_r, <- app_assoc.
      * left. rewrite (try_urls_propagates dR w _ _ tr e);
          [by rewrite Hfirst | by rewrite Hfirst | done].
  - intros w route xhs_id tr asked. subst asked.
    pose proof (parse_explore_requests w (explore_url route) xhs_id tr) as Hreq.
    destruct (XiaoHongShu.parse_explore w (explore_url route) xhs_id tr)
      as [[r|e] tr1] eqn:Hfirst.
    + left. rewrite (_parse_discovery_first_success w route xhs_id tr r);
        by rewrite Hfirst.
    + destruct (is_ParseException e) eqn:He.
      * right. destruct e; try done.
        rewrite (_parse_discovery_fallback w route xhs_id tr msg);
          [| by rewrite Hfirst].
        rewrite parse_discovery_requests, requests_app, Hfirst. cbn [snd] in *.
        rewrite Hreq. cbn. by rewrite app_nil_r, <- app_assoc.
      * left. rewrite (_parse_discovery_propagates w route xhs_id tr e);
          [by rewrite Hfirst | by rewrite Hfirst | done].
Qed.

End edge_behaviour.

(** ** Outcomes that do not depend on the log or on the scheduler *)

Section outcomes.
Import Async Base Media.

Lemma same_outcome_ret {A} (a : A) : same_outcome (ret a) (ret a).
Proof. done. Qed.

Lemma same_outcome_raise {A} (e : exn) : same_outcome (@raise A e) (raise e).
Proof. done. Qed.

Lemma same_outcome_lift {A} (o : outcome A) : same_outcome (lift o) (lift o).
Proof. done. Qed.

Lemma same_outcome_emit (ev ev' : event) : same_outcome (emit ev) (emit ev').
Proof. done. Qed.

Lemma same_outcome_bind {A B} (m m' : coro A) (k k' : A -> coro B) :
  same_outcome m m' -> (forall a, same_outcome (k a) (k' a)) ->
  same_outcome (bind m k) (bind m' k').
Proof.
  intros Hm Hk tr tr'. unfold bind. specialize (Hm tr tr').
  destruct (m tr) as [[a|e] tr1], (m' tr') as [[a'|e'] tr1']; cbn [fst] in *;
    [| done | done | by injection Hm as <-].
  injection Hm as <-. apply Hk.
Qed.

Lemma same_outcome_try_except {A} (m m' : coro A) (caught : exn -> bool)
    (handler handler' : exn -> coro A) :
  same_outcome m m' -> (forall e, same_outcome (handler e) (handler' e)) ->
  same_outcome (try_except m caught handler) (try_except m' caught handler').
Proof.
  intros Hm Hh tr tr'. unfold try_except. specialize (Hm tr tr').
  destruct (m tr) as [[a|e] tr1], (m' tr') as [[a'|e'] tr1']; cbn [fst] in *;
    [exact Hm | done | done |].
  injection Hm as <-. destruct (caught e); [apply Hh | done].
Qed.

Lemma same_outcome_convert_images (w w' : env) (image_urls : list (list N)) :
  same_conversions w w' ->
  same_outcome (convert_images w image_urls) (convert_images w' image_urls).
Proof.
  intros Hconv tr tr'. rewrite !convert_images_picked. f_equal.
  apply imap_ext. intros i url _. cbn. by rewrite Hconv.
Qed.

End outcomes.

Create HintDb same_outcome.

Ltac same_outcome_step :=
  match goal with
  | |- same_outcome (Async.ret _) _ => apply same_outcome_ret
  | |- same_outcome (Async.raise _) _ => apply same_outcome_raise
  | |- same_outcome (Async.lift _) _ => apply same_outcome_lift
  | |- same_outcome (Async.emit _) _ => apply same_outcome_emit
  | |- same_outcome (Media.convert_images _ _) _ =>
      apply same_outcome_convert_images; assumption
  | |- same_outcome (Async.bind _ _) _ => apply same_outcome_bind; [| intros ?]
  | |- same_outcome (Async.try_except _ _ _) _ =>
      apply same_outcome_try_except; [| intros ?]
  | |- same_outcome (if ?b then _ else _) _ => destruct b
  | |- same_outcome (match ?x with _ => _ end) _ => destruct x
  | |- same_outcome _ _ => solve [eauto with same_outcome]
  end.

Section outcomes_of_parsers.
Import Async Base Media.

Variables w w' : env.
Hypothesis Hconv : same_conversions w w'.

Lemma same_outcome_video_result (vd : Douyin.video.VideoData) :
  same_outcome (Douyin.video_result w vd) (Douyin.video_result w' vd).
Proof using Hconv.
  unfold Douyin.video_result, Douyin.video_contents. repeat same_outcome_step.
Qed.

Lemma same_outcome_slides_result (sd : Douyin.slides.SlidesData) :
  same_outcome (Douyin.slides_result w sd) (Douyin.slides_result w' sd).
Proof using Hconv.
  unfold Douyin.slides_result. repeat same_outcome_step.
Qed.

Lemma same_outcome_explore_result (nd : XiaoHongShu.Explore.NoteDetail.t) :
  same_outcome (XiaoHongShu.explore_result w nd) (XiaoHongShu.explore_result w' nd).
Proof using Hconv.
  unfold XiaoHongShu.explore_result, XiaoHongShu.image_contents.
  repeat same_outcome_step.
Qed.

Lemma same_outcome_discovery_result (preload : pyval)
    (nd : XiaoHongShu.Discovery.NoteData.t) :
  same_outcome (XiaoHongShu.discovery_result w preload nd)
    (XiaoHongShu.discovery_result w' preload nd).
Proof using Hconv.
  unfold XiaoHongShu.discovery_result, XiaoHongShu.image_contents.
  repeat same_outcome_step.
Qed.

(** The part of [parse_explore] that follows the answer. *)
Lemma same_outcome_explore_page (url xhs_id html : list N) (status status' : N) :
  http_get w (XiaoHongShu.explore_request url) = Response status html ->
  http_get w' (XiaoHongShu.explore_request url) = Response status' html ->
  same_outcome (XiaoHongShu.parse_explore w url xhs_id)
    (XiaoHongShu.parse_explore w' url xhs_id).
Proof using Hconv.
  intros H1 H2. unfold XiaoHongShu.parse_explore, XiaoHongShu.explore_note_detail.
  rewrite H1, H2.
  pose proof same_outcome_explore_result.
  repeat same_outcome_step.
Qed.

Lemma same_outcome_discovery_page (url html : list N) (status status' : N) :
  http_get w (XiaoHongShu.discovery_request url) = Response status html ->
  http_get w' (XiaoHongShu.discovery_request url) = Response status' html ->
  same_outcome (XiaoHongShu.parse_discovery w url)
    (XiaoHongShu.parse_discovery w' url).
Proof using Hconv.
  intros H1 H2. unfold XiaoHongShu.parse_discovery, XiaoHongShu.discovery_note_data.
  rewrite H1, H2.
  pose proof same_outcome_discovery_result.
  repeat same_outcome_step.
Qed.

Hypothesis Hans : same_answers w w'.

Lemma same_outcome_parse_video
    (decode_RouterData : list N -> outcome Douyin.video.VideoData) (url : list N) :
  same_outcome (Douyin.parse_video decode_RouterData w url)
    (Douyin.parse_video decode_RouterData w' url).
Proof using Hconv Hans.
  unfold Douyin.parse_video, Douyin.fetch_video_data. rewrite <- Hans.
  pose proof same_outcome_video_result.
  repeat same_outcome_step.
Qed.

Lemma same_outcome_parse_slides
    (decode_SlidesInfo : list N -> outcome (list Douyin.slides.SlidesData))
    (video_id : list N) :
  same_outcome (Douyin.parse_slides decode_SlidesInfo w video_id)
    (Douyin.parse_slides decode_SlidesInfo w' video_id).
Proof using Hconv Hans.
  unfold Douyin.parse_slides, Douyin.fetch_slides_data. rewrite <- Hans.
  pose proof same_outcome_slides_result.
  repeat same_outcome_step.
Qed.

Lemma same_outcome_try_urls
    (decode_RouterData : list N -> outcome Douyin.video.VideoData)
    (urls : list (list N)) :
  same_outcome (Douyin.try_urls decode_RouterData w urls)
    (Douyin.try_urls decode_RouterData w' urls).
Proof using Hconv Hans.
  induction urls as [|url rest IH]; cbn [Douyin.try_urls].
  - apply same_outcome_raise.
  - apply same_outcome_try_except; [apply same_outcome_parse_video |].
    intros e. apply same_outcome_bind; [apply same_outcome_emit | by intros _].
Qed.

Lemma same_outcome_parse_explore (url xhs_id : list N) :
  same_outcome (XiaoHongShu.parse_explore w url xhs_id)
    (XiaoHongShu.parse_explore w' url xhs_id).
Proof using Hconv Hans.
  destruct (http_get w (XiaoHongShu.explore_request url)) as [|status html] eqn:Hget.
  - unfold XiaoHongShu.parse_explore, XiaoHongShu.explore_note_detail.
    rewrite <- Hans, Hget. by intros tr tr'.
  - apply (same_outcome_explore_page url xhs_id html status status Hget).
    by rewrite <- Hans.
Qed.

Lemma same_outcome_parse_discovery (url : list N) :
  same_outcome (XiaoHongShu.parse_discovery w url)
    (XiaoHongShu.parse_discovery w' url).
Proof using Hconv Hans.
  destruct (http_get w (XiaoHongShu.discovery_request url)) as [|status html] eqn:Hget.
  - unfold XiaoHongShu.parse_discovery, XiaoHongShu.discovery_note_data.
    rewrite <- Hans, Hget. by intros tr tr'.
  - apply (same_outcome_discovery_page url html status status Hget).
    by rewrite <- Hans.
Qed.

End outcomes_of_parsers.

Section outcome_claims.
Import Async Base Media Worlds MoreWorlds.

Lemma same_conversions_refl (w : env) : same_conversions w w.
Proof. done. Qed.

Lemma same_answers_refl (w : env) : same_answers w w.
Proof. done. Qed.

(** X7.  What a resolution returns or raises depends neither on the order
    in which the conversion tasks finish nor on what was logged before: for
    [_parse_douyin], [_parse_discovery] and [_parse_explore], every choice
    of the scheduler gives the same result or the same exception. *)
Theorem outcome_independent_of_schedule :
  (forall (decode_RouterData : list N -> outcome Douyin.video.VideoData)
          (decode_SlidesInfo : list N -> outcome (list Douyin.slides.SlidesData))
          (w : env) (choices : list nat) (ty vid : list N) (tr tr' : list event),
     fst (Douyin._parse_douyin decode_RouterData decode_SlidesInfo
            (rescheduled w choices) ty vid tr)
     = fst (Douyin._parse_douyin decode_RouterData decode_SlidesInfo w ty vid tr'))
  /\ (forall (w : env) (choices : list nat) (route xhs_id : list N)
             (tr tr' : list event),
        fst (XiaoHongShu._parse_discovery (rescheduled w choices) route xhs_id tr)
        = fst (XiaoHongShu._parse_discovery w route xhs_id tr'))
  /\ (forall (w : env) (choices : list nat) (route xhs_id : list N)
             (tr tr' : list event),
        fst (XiaoHongShu._parse_explore (rescheduled w choices) route xhs_id tr)
        = fst (XiaoHongShu._parse_explore w route xhs_id tr')).
Proof.
  split; [| split].
  - intros dR dS w choices ty vid tr tr'. unfold Douyin._parse_douyin.
    destruct (str_eqb ty (lit "slides")).
    + by apply same_outcome_parse_slides.
    + by apply same_outcome_try_urls.
  - intros w choices route xhs_id tr tr'. unfold XiaoHongShu._parse_discovery.
    apply same_outcome_try_except; [by apply same_outcome_parse_explore |].
    intros e. apply same_outcome_bind; [apply same_outcome_emit | intros _].
    by apply same_outcome_parse_discovery.
  - intros w choices route xhs_id tr tr'. unfold XiaoHongShu._parse_explore.
    by apply same_outcome_parse_explore.
Qed.

(** X8.  [parse_explore] and [parse_discovery] do not look at the status
    code of the answer ([parse_explore] only logs it): two answers with the
    same body give the same result or the same exception, whatever their
    status codes.  A page served with 404 or 500 that carries a state blob
    is parsed like one served with 200. *)
Theorem xiaohongshu_ignores_status (w w' : env) (url xhs_id html : list N)
    (status status' : N) (tr tr' : list event) :
  same_conversions w w' ->
  (http_get w (XiaoHongShu.explore_request url) = Response status html ->
   http_get w' (XiaoHongShu.explore_request url) = Response status' html ->
   fst (XiaoHongShu.parse_explore w url xhs_id tr)
   = fst (XiaoHongShu.parse_explore w' url xhs_id tr'))
  /\ (http_get w (XiaoHongShu.discovery_request url) = Response status html ->
      http_get w' (XiaoHongShu.discovery_request url) = Response status' html ->
      fst (XiaoHongShu.parse_discovery w url tr)
      = fst (XiaoHongShu.parse_discovery w' url tr')).
Proof.
  intros Hconv. split; intros H1 H2.
  - by apply (same_outcome_explore_page w w' Hconv url xhs_id html status status').
  - by apply (same_outcome_discovery_page w w' Hconv url html status status').
Qed.

(** The same note served with 404 and with 200. *)
Lemma xiaohongshu_ignores_status_witness :
  fst (XiaoHongShu.parse_explore (answering 404 text_only_note)
         (lit "https://www.xiaohongshu.com/explore/abc?x=1") (lit "abc") [])
  = fst (XiaoHongShu.parse_explore (answering 200 text_only_note)
           (lit "https://www.xiaohongshu.com/explore/abc?x=1") (lit "abc") []).
Proof.
  apply (proj1 (xiaohongshu_ignores_status (answering 404 text_only_note)
                  (answering 200 text_only_note)
                  (lit "https://www.xiaohongshu.com/explore/abc?x=1") (lit "abc")
                  text_only_note 404 200 [] []
                  (same_conversions_refl _)));
    reflexivity.
Defined.

(** X9.  After a [ParseException] of the first strategy, the chain ends as
    its second strategy ends.  [_parse_douyin] returns the result of
    [parse_video] on the iesdouyin URL when there is one, lets an exception
    that is not a [ParseException] through, and replaces a [ParseException]
    by the one of the chain.  [_parse_discovery] returns or raises exactly
    what [parse_discovery] on the original route does: a second
    [ParseException] reaches the caller with its own message. *)
Theorem second_strategy_decides :
  (forall (decode_RouterData : list N -> outcome Douyin.video.VideoData)
          (decode_SlidesInfo : list N -> outcome (list Douyin.slides.SlidesData))
          (w : env) (ty vid : list N) (tr tr' : list event) (msg : string),
     ty <> lit "slides" ->
     fst (Douyin.parse_video decode_RouterData w (Douyin._build_m_douyin_url ty vid) tr)
     = Raise (ParseException msg) ->
     fst (Douyin._parse_douyin decode_RouterData decode_SlidesInfo w ty vid tr)
     = match fst (Douyin.parse_video decode_RouterData w
                    (Douyin._build_iesdouyin_url ty vid) tr') with
       | Ok r => Ok r
       | Raise (ParseException _) => Raise (ParseException Douyin.all_failed_message)
       | Raise e => Raise e
       end)
  /\ (forall (w : env) (route xhs_id : list N) (tr tr' : list event) (msg : string),
        fst (XiaoHongShu.parse_explore w (explore_url route) xhs_id tr)
        = Raise (ParseException msg) ->
        fst (XiaoHongShu._parse_discovery w route xhs_id tr)
        = fst (XiaoHongShu.parse_discovery w (XiaoHongShu.site ++ route) tr')).
Proof.
  split.
  - intros dR dS w ty vid tr tr' msg Hty Hfirst.
    unfold Douyin._parse_douyin. rewrite (not_slides ty Hty).
    rewrite (try_urls_next dR w _ _ tr msg Hfirst).
    cbn [Douyin.try_urls]. unfold try_except.
    match goal with
    | |- context [Douyin.parse_video dR w ?u ?t] =>
        pose proof (same_outcome_parse_video w w (same_conversions_refl w)
                      (same_answers_refl w) dR u t tr') as Hsame;
        destruct (Douyin.parse_video dR w u t) as [[r|e] tr2]
    end; cbn [fst] in Hsame; rewrite <- Hsame; [done |].
    by destruct e.
  - intros w route xhs_id tr tr' msg Hfirst.
    rewrite (_parse_discovery_fallback w route xhs_id tr msg Hfirst).
    apply (same_outcome_parse_discovery w w (same_conversions_refl w)
             (same_answers_refl w)).
Qed.

(** A page without a state blob: both strategies raise the
    [ParseException] of [_extract_initial_state_json], and the caller gets
    the one of the second strategy. *)
Lemma second_strategy_decides_witness :
  fst (XiaoHongShu._parse_discovery (serving (lit "<html></html>")) sample_route
         (lit "abc") [])
  = fst (XiaoHongShu.parse_discovery (serving (lit "<html></html>"))
           (XiaoHongShu.site ++ sample_route) []).
Proof.
  apply (proj2 second_strategy_decides (serving (lit "<html></html>")) sample_route
           (lit "abc") [] [] XiaoHongShu.link_dead_message).
  reflexivity.
Defined.

End outcome_claims.

(** ** Missing keys and empty lists in a note *)

Section note_edges.
Import Async Base Media Worlds MoreWorlds Msgspec XiaoHongShu.

(** X10.  [Video.video_url] never raises [IndexError]: a stream list is
    indexed only after it was found not empty.  The one exception it can
    raise is [KeyError], when the first entry of the selected list has no
    [masterUrl]; and the selection goes by the lists, not by the URLs: with
    such an entry in h265, [KeyError] is raised even when h264 has a URL. *)
Theorem video_url_raises_only_KeyError :
  (forall (v : Video.t) (e : exn), Video.video_url v = Raise e -> e = KeyError)
  /\ (forall (v : Video.t) first rest,
        Stream.h265 (Media.stream (Video.media v)) = Some (first :: rest) ->
        dict_get first (lit "masterUrl") = None ->
        Video.video_url v = Raise KeyError).
Proof.
  split.
  - intros [[[h264 h265 av1 h266]]] e. unfold Video.video_url.
    cbn [Video.media Media.stream Stream.h264 Stream.h265 Stream.av1 Stream.h266].
    destruct h265 as [[|f1 r1]|], h264 as [[|f2 r2]|], av1 as [[|f3 r3]|],
      h266 as [[|f4 r4]|];
      cbn [Video.has_stream Video.first_master_url];
      repeat match goal with
             | |- context [dict_get ?d ?k] => destruct (dict_get d k)
             end; congruence.
  - intros v first rest Hs Hkey. unfold Video.video_url. rewrite Hs.
    cbn [Video.has_stream Video.first_master_url]. by rewrite Hkey.
Qed.

(** An h265 entry without a URL hides the h264 stream. *)
Lemma video_url_raises_only_KeyError_witness :
  Video.video_url
    {| Video.media :=
         {| Media.stream :=
              {| Stream.h264 := Some [[(lit "masterUrl", PStr (lit "v.mp4"))]];
                 Stream.h265 := Some [[(lit "backupUrl", PStr (lit "b.mp4"))]];
                 Stream.av1 := None;
                 Stream.h266 := None |} |} |}
  = Raise KeyError.
Proof.
  apply (proj2 video_url_raises_only_KeyError _
           [(lit "backupUrl", PStr (lit "b.mp4"))] []); reflexivity.
Defined.

(** X11.  [parse_explore] looks the note up on the way [note],
    [noteDetailMap], [xhs_id], [note] of the state.  When a key of the way
    is missing, or the way ends in a value that counts as false, it raises
    the [ParseException] can't find note detail in json_obj, which
    [_parse_discovery] answers with its second strategy.  When the state is
    not an object, it raises [AttributeError], which nothing catches. *)
Theorem explore_note_not_found (w : env) (url xhs_id html : list N)
    (status_code : N) (tr : list event) (json_obj : pyval) :
  http_get w (explore_request url) = Response status_code html ->
  _extract_initial_state_json html = Ok json_obj ->
  (forall d, json_obj = PDict d -> note_absent d xhs_id ->
     fst (parse_explore w url xhs_id tr)
     = Raise (ParseException no_note_detail_message))
  /\ ((forall d, json_obj <> PDict d) ->
      fst (parse_explore w url xhs_id tr) = Raise AttributeError).
Proof.
  intros Hget Hjson.
  unfold parse_explore, explore_note_detail, bind, emit, lift, raise.
  rewrite Hget, Hjson. split.
  - intros d -> Habsent. cbn [py_get].
    destruct Habsent as [->|(note & -> & Habsent)]; [done |]. cbn [py_get].
    destruct Habsent as [->|(detail_map & -> & Habsent)]; [done |]. cbn [py_get].
    destruct Habsent as [->|(entry & -> & Habsent)]; [done |]. cbn [py_get].
    destruct Habsent as [->|(note_data & -> & Hfalse)]; [done |].
    by rewrite Hfalse.
  - intros Hnot. destruct json_obj; try done. by destruct (Hnot d).
Qed.

(** A state whose map of notes is empty. *)
Lemma explore_note_not_found_witness :
  fst (parse_explore (serving empty_detail_map)
         (lit "https://www.xiaohongshu.com/explore/abc?x=1") (lit "abc") [])
  = Raise (ParseException no_note_detail_message).
Proof.
  eapply (proj1 (explore_note_not_found (serving empty_detail_map)
                   (lit "https://www.xiaohongshu.com/explore/abc?x=1") (lit "abc")
                   empty_detail_map 200 [] _ eq_refl eq_refl)).
  - reflexivity.
  - right. eexists. split; [reflexivity |].
    right. eexists. split; [reflexivity |]. by left.
Defined.

(** X12.  A video note without a cover image.  [parse_explore] guards the
    index: with no image the video gets no cover.  [parse_discovery] does
    not: when the list it takes the cover from is empty, it raises
    [IndexError].  That list is the one of the preload data whenever the
    preload data is there, so the images of the note itself do not help
    then. *)
Theorem video_note_without_cover :
  (forall (w : env) (url xhs_id : list N) (tr tr1 : list event)
          (nd : Explore.NoteDetail.t) (media_url : pyval),
     explore_note_detail w url xhs_id tr = (Ok nd, tr1) ->
     Explore.NoteDetail.video_url nd = Ok media_url ->
     truthy media_url = true ->
     Explore.NoteDetail.imageList nd = [] ->
     exists r,
       fst (parse_explore w url xhs_id tr) = Ok r
       /\ contents r = [VideoContent media_url None None])
  /\ (forall (w : env) (url : list N) (tr tr1 : list event) (preload_data : pyval)
             (nd : Discovery.NoteData.t) (media_url : pyval),
        discovery_note_data w url tr = (Ok (preload_data, nd), tr1) ->
        Discovery.NoteData.video_url nd = Ok media_url ->
        truthy media_url = true ->
        discovery_cover_urls preload_data nd [] ->
        fst (parse_discovery w url tr) = Raise IndexError).
Proof.
  split.
  - intros w url xhs_id tr tr1 nd media_url Hnd Hurl Htruthy Himg.
    unfold parse_explore. rewrite (bind_ok _ _ _ _ _ Hnd).
    destruct (explore_result_contents w nd media_url tr1 Hurl) as (r & Hr & Hvideo & _).
    exists r. split; [done |]. rewrite (Hvideo Htruthy).
    unfold Explore.NoteDetail.image_urls. by rewrite Himg.
  - intros w url tr tr1 preload_data nd media_url Hnd Hurl Htruthy Hcover.
    unfold parse_discovery. rewrite (bind_ok _ _ _ _ _ Hnd). cbn [fst snd].
    unfold discovery_result, bind, lift. rewrite Hurl, Htruthy.
    destruct Hcover as [[-> Himg]|(-> & preload & Hpre & Himg)].
    + by rewrite <- Himg.
    + unfold convert. rewrite Hpre. by rewrite <- Himg.
Qed.

(** A video note of the discovery page with no image and no preload data. *)
Lemma video_note_without_cover_witness :
  fst (parse_discovery (serving coverless_video_page)
         (lit "https://www.xiaohongshu.com/discovery/item/abc?x=1") [])
  = Raise IndexError.
Proof.
  eapply (proj2 video_note_without_cover (serving coverless_video_page)
            (lit "https://www.xiaohongshu.com/discovery/item/abc?x=1") []).
  - vm_compute. reflexivity.
  - vm_compute. reflexivity.
  - reflexivity.
  - left. split; reflexivity.
Defined.

End note_edges.

(** ** From the page to the state blob *)

Section page_facts.
Import Async Base Media Worlds MoreWorlds.

Lemma starts_with_take (p s : list N) :
  starts_with p s = starts_with p (take (length p) s).
Proof.
  revert s. induction p as [|a p IH]; intros s; [done |].
  destruct s as [|b s]; [done |]. cbn. by rewrite <- IH.
Qed.

Lemma contains_cons (p : list N) (c : N) (s : list N) :
  contains p (c :: s) = starts_with p (c :: s) || contains p s.
Proof. done. Qed.

(** Inside [pre], before the first occurrence, nothing starts. *)
Lemma first_after_cons (p : list N) (c : N) (pre rest : list N) :
  first_after p (c :: pre) = true ->
  starts_with p ((c :: pre) ++ p ++ rest) = false /\ first_after p pre = true.
Proof.
  unfold first_after. intros H. apply negb_true_iff in H.
  change ((c :: pre) ++ take (length p - 1) p)
    with (c :: (pre ++ take (length p - 1) p)) in H.
  rewrite contains_cons in H. apply orb_false_iff in H as [Hs Hc].
  split; [| by rewrite Hc].
  rewrite starts_with_take in Hs. rewrite starts_with_take.
  rewrite <- Hs. f_equal.
  change (c :: (pre ++ take (length p - 1) p))
    with ((c :: pre) ++ take (length p - 1) p).
  rewrite (take_app (c :: pre) (take (length p - 1) p) (length p)).
  rewrite (take_app (c :: pre) (p ++ rest) (length p)). f_equal.
  rewrite take_take, take_app. cbn [length].
  replace (length p - S (length pre) - length p) with 0 by lia.
  rewrite take_0, app_nil_r. f_equal. lia.
Qed.

Lemma lstrip_all_space (ws s : list N) :
  all_space ws = true -> lstrip (ws ++ s) = lstrip s.
Proof.
  induction ws as [|c ws IH]; [done |]. cbn.
  intros [-> H]%andb_true_iff. by apply IH.
Qed.

Lemma lstrip_app (p s : list N) (c : N) :
  is_space c = false -> lstrip (p ++ c :: s) = lstrip p ++ c :: s.
Proof.
  intros Hc. induction p as [|a p IH]; cbn; [by rewrite Hc |].
  by destruct (is_space a).
Qed.

Lemma lstrip_nil (p : list N) : lstrip p = [] <-> all_space p = true.
Proof.
  induction p as [|a p IH]; [done |]. cbn.
  destruct (is_space a); [done |]. split; [done | by intros ?].
Qed.

Lemma lstrip_lstrip (p : list N) : lstrip (lstrip p) = lstrip p.
Proof.
  induction p as [|a p IH]; [done |]. cbn.
  destruct (is_space a) eqn:Ha; [done |]. cbn. by rewrite Ha.
Qed.

(** A suffix that [lstrip] leaves has no earlier occurrence either. *)
Lemma first_after_lstrip (p s : list N) :
  first_after p s = true -> first_after p (lstrip s) = true.
Proof.
  induction s as [|c s IH]; [done |]. cbn [lstrip].
  destruct (is_space c); [| done].
  intros H. apply IH. unfold first_after in *.
  apply negb_true_iff in H. change ((c :: s) ++ ?x) with (c :: (s ++ x)) in H.
  rewrite contains_cons in H. apply orb_false_iff in H as [_ ->]. done.
Qed.

Lemma lazy_until_first (stop q rest : list N) :
  first_after stop q = true ->
  Re.lazy_until stop (q ++ stop ++ rest) = Some q.
Proof.
  induction q as [|c q IH]; intros H.
  - cbn [app]. destruct (stop ++ rest) eqn:Hs; cbn [Re.lazy_until];
      rewrite <- Hs, starts_with_app; done.
  - destruct (first_after_cons stop c q rest H) as [Hs Hq].
    change ((c :: q) ++ stop ++ rest) with (c :: (q ++ stop ++ rest)) in *.
    cbn [Re.lazy_until]. rewrite Hs, (IH Hq). done.
Qed.

Lemma lazy_until_in_line_first (stop q rest : list N) :
  first_after stop q = true -> one_line q = true ->
  Re.lazy_until_in_line stop (q ++ stop ++ rest) = Some q.
Proof.
  induction q as [|c q IH]; intros H Hline.
  - cbn [app]. destruct (stop ++ rest) eqn:Hs; cbn [Re.lazy_until_in_line];
      rewrite <- Hs, starts_with_app; done.
  - destruct (first_after_cons stop c q rest H) as [Hs Hq].
    change ((c :: q) ++ stop ++ rest) with (c :: (q ++ stop ++ rest)) in *.
    cbn in Hline. apply andb_true_iff in Hline as [Hc Hline].
    apply negb_true_iff in Hc.
    cbn [Re.lazy_until_in_line]. rewrite Hs, Hc, (IH Hq Hline). done.
Qed.

Lemma router_data_match_needs_marker (s : list N) :
  starts_with router_marker s = false -> Re.router_data_match s = None.
Proof. intros H. unfold Re.router_data_match. fold router_marker. by rewrite H. Qed.

Lemma router_data_search_skip (pre rest : list N) :
  first_after router_marker pre = true ->
  Re.router_data_search (pre ++ router_marker ++ rest)
  = Re.router_data_search (router_marker ++ rest).
Proof.
  induction pre as [|c pre IH]; intros H; [done |].
  destruct (first_after_cons _ c pre rest H) as [Hs Hpre].
  change ((c :: pre) ++ ?x) with (c :: (pre ++ x)) in *.
  cbn [Re.router_data_search].
  rewrite (router_data_match_needs_marker _ Hs). by apply IH.
Qed.

Lemma initial_state_match_needs_marker (s : list N) :
  starts_with state_marker s = false -> Re.initial_state_match s = None.
Proof. intros H. unfold Re.initial_state_match. fold state_marker. by rewrite H. Qed.

Lemma initial_state_search_skip (pre rest : list N) :
  first_after state_marker pre = true ->
  Re.initial_state_search (pre ++ state_marker ++ rest)
  = Re.initial_state_search (state_marker ++ rest).
Proof.
  induction pre as [|c pre IH]; intros H; [done |].
  destruct (first_after_cons _ c pre rest H) as [Hs Hpre].
  change ((c :: pre) ++ ?x) with (c :: (pre ++ x)) in *.
  cbn [Re.initial_state_search].
  rewrite (initial_state_match_needs_marker _ Hs). by apply IH.
Qed.

Lemma initial_state_search_none (s : list N) :
  contains state_marker s = false -> Re.initial_state_search s = None.
Proof.
  induction s as [|c s IH]; intros H.
  - done.
  - rewrite contains_cons in H. apply orb_false_iff in H as [Hs Hc].
    cbn [Re.initial_state_search].
    rewrite (initial_state_match_needs_marker _ Hs). by apply IH.
Qed.

End page_facts.

Section page_claims.
Import Async Base Media Worlds MoreWorlds.

Lemma router_data_search_here (s g : list N) :
  Re.router_data_match s = Some g -> Re.router_data_search s = Some g.
Proof. intros H. destruct s; cbn [Re.router_data_search]; by rewrite H. Qed.

Lemma initial_state_search_here (s g : list N) :
  Re.initial_state_match s = Some g -> Re.initial_state_search s = Some g.
Proof. intros H. destruct s; cbn [Re.initial_state_search]; by rewrite H. Qed.

Lemma router_data_search_page (pre ws1 ws2 payload post : list N) :
  first_after router_marker pre = true ->
  all_space ws1 = true -> all_space ws2 = true ->
  first_after Re.script_end payload = true ->
  Re.router_data_search
    (pre ++ router_marker ++ ws1 ++ lit "=" ++ ws2 ++ payload ++ Re.script_end ++ post)
  = Some (lstrip payload).
Proof.
  intros Hpre Hws1 Hws2 Hpayload.
  rewrite (router_data_search_skip pre _ Hpre).
  apply router_data_search_here. unfold Re.router_data_match.
  fold router_marker. rewrite starts_with_app.
  change 19 with (length router_marker). rewrite drop_app_length.
  rewrite (lstrip_all_space ws1 _ Hws1).
  change (lit "=" ++ ?x) with (61%N :: x).
  change (lstrip (61%N :: ?x)) with (61%N :: x). cbn [N.eqb Pos.eqb].
  change (N.eqb 61 61) with true. cbv iota.
  rewrite (lstrip_all_space ws2 _ Hws2).
  change (Re.script_end ++ post) with (60%N :: (lit "/script>" ++ post)).
  rewrite (lstrip_app payload _ 60 eq_refl).
  change (60%N :: (lit "/script>" ++ post)) with (Re.script_end ++ post).
  apply lazy_until_first. by apply first_after_lstrip.
Qed.

(** X13.  From the page to the decoder of [parse_video].  In a page served
    with 200 whose first [window._ROUTER_DATA] is followed by white space,
    [=], white space, a payload and [</script>] (the first one after the
    marker), the decoder is given the payload without the white space at
    its ends; text before the marker and after [</script>] plays no part.
    A payload that is empty or all white space is reported as a missing
    marker. *)
Theorem router_data_reaches_decoder
    (decode_RouterData : list N -> outcome Douyin.video.VideoData) (w : env)
    (url : list N) (tr : list event) (pre ws1 ws2 payload post : list N) :
  http_get w (Douyin.video_request url)
  = Response 200 (pre ++ router_marker ++ ws1 ++ lit "=" ++ ws2 ++ payload
                  ++ Re.script_end ++ post) ->
  first_after router_marker pre = true ->
  all_space ws1 = true ->
  all_space ws2 = true ->
  first_after Re.script_end payload = true ->
  Douyin.fetch_video_data decode_RouterData w url tr
  = (if all_space payload
     then Raise (ParseException Douyin.no_router_data_message)
     else decode_RouterData (strip payload),
     tr ++ [Requested (Douyin.video_request url)]).
Proof.
  intros Hget Hpre Hws1 Hws2 Hpayload.
  unfold Douyin.fetch_video_data, bind, emit. rewrite Hget.
  change (negb (N.eqb 200 200)) with false. cbv iota.
  rewrite (router_data_search_page pre ws1 ws2 payload post Hpre Hws1 Hws2 Hpayload).
  destruct (lstrip payload) as [|c g] eqn:Hstrip.
  - apply lstrip_nil in Hstrip as ->. done.
  - destruct (all_space payload) eqn:Hall.
    + apply lstrip_nil in Hall. by rewrite Hall in Hstrip.
    + unfold lift. rewrite <- Hstrip. unfold strip. by rewrite lstrip_lstrip.
Qed.

(** The page [router_page]: the decoder is given the two braces. *)
Lemma router_data_reaches_decoder_witness :
  Douyin.fetch_video_data reads_both_kinds (serving router_page)
    (lit "https://m.douyin.com/share/video/1") []
  = (if all_space (lit "{}")
     then Raise (ParseException Douyin.no_router_data_message)
     else reads_both_kinds (strip (lit "{}")),
     [] ++ [Requested (Douyin.video_request (lit "https://m.douyin.com/share/video/1"))]).
Proof.
  apply (router_data_reaches_decoder reads_both_kinds (serving router_page)
           (lit "https://m.douyin.com/share/video/1") []
           (lit "<script>") (lit " ") (lit " ") (lit "{}") []);
    reflexivity.
Defined.

Lemma initial_state_search_page (pre payload post : list N) :
  first_after state_marker pre = true ->
  first_after Re.script_end payload = true ->
  one_line payload = true ->
  Re.initial_state_search (pre ++ state_marker ++ payload ++ Re.script_end ++ post)
  = Some payload.
Proof.
  intros Hpre Hpayload Hline.
  rewrite (initial_state_search_skip pre _ Hpre).
  apply initial_state_search_here. unfold Re.initial_state_match.
  fold state_marker. rewrite starts_with_app.
  change 25 with (length state_marker). rewrite drop_app_length.
  by apply lazy_until_in_line_first.
Qed.

(** X14.  From the page to [json.loads] in [_extract_initial_state_json].
    When the first [window.__INITIAL_STATE__=] of the page is followed by a
    payload on one line and [</script>] (the first one after the marker),
    the result is the decoding of that payload, with [undefined] replaced;
    text before the marker and after [</script>] plays no part. *)
Theorem initial_state_reaches_decoder (pre payload post : list N) :
  first_after state_marker pre = true ->
  first_after Re.script_end payload = true ->
  one_line payload = true ->
  XiaoHongShu._extract_initial_state_json
    (pre ++ state_marker ++ payload ++ Re.script_end ++ post)
  = match Json.json_loads
            (str_replace XiaoHongShu.undefined XiaoHongShu.null payload) with
    | Some json_obj => Ok json_obj
    | None => Raise JSONDecodeError
    end.
Proof.
  intros Hpre Hpayload Hline. unfold XiaoHongShu._extract_initial_state_json.
  by rewrite (initial_state_search_page pre payload post Hpre Hpayload Hline).
Qed.

(** A page with two scripts; the state is in the second. *)
Lemma initial_state_reaches_decoder_witness :
  XiaoHongShu._extract_initial_state_json
    (lit "<script>var a;</script><script>" ++ state_marker ++ litq "{'a':undefined}"
     ++ Re.script_end ++ lit "<p>window</p>")
  = match Json.json_loads
            (str_replace XiaoHongShu.undefined XiaoHongShu.null
               (litq "{'a':undefined}")) with
    | Some json_obj => Ok json_obj
    | None => Raise JSONDecodeError
    end.
Proof.
  apply (initial_state_reaches_decoder (lit "<script>var a;</script><script>")
           (litq "{'a':undefined}") (lit "<p>window</p>"));
    reflexivity.
Defined.

(** A text without a line feed does not start across a line feed. *)
Lemma starts_with_one_line (p x b : list N) :
  one_line p = true ->
  starts_with p x = false -> starts_with p (x ++ 10%N :: b) = false.
Proof.
  revert x. induction p as [|q p IH]; intros x Hline Hs; [done |].
  cbn in Hline. apply andb_true_iff in Hline as [Hq Hline].
  apply negb_true_iff in Hq.
  destruct x as [|y x]; cbn [app starts_with] in *.
  - by rewrite Hq.
  - apply andb_false_iff in Hs as [->|Hs]; [done |].
    rewrite (IH x Hline Hs). apply andb_false_r.
Qed.

Lemma state_marker_has_no_border (s : list N) :
  contains state_marker (drop 1 (state_marker ++ s)) = contains state_marker s.
Proof.
  change (drop 1 (state_marker ++ s)) with (lit "indow.__INITIAL_STATE__=" ++ s).
  change (lit "indow.__INITIAL_STATE__=" ++ s)
    with (105 :: 110 :: 100 :: 111 :: 119 :: 46 :: 95 :: 95 :: 73 :: 78 :: 73
          :: 84 :: 73 :: 65 :: 76 :: 95 :: 83 :: 84 :: 65 :: 84 :: 69 :: 95
          :: 95 :: 61 :: s)%N.
  rewrite !contains_cons.
  unfold state_marker.
  change (lit "window.__INITIAL_STATE__=")
    with [119; 105; 110; 100; 111; 119; 46; 95; 95; 73; 78; 73; 84; 73; 65; 76;
          95; 83; 84; 65; 84; 69; 95; 95; 61]%N.
  cbn [starts_with N.eqb Pos.eqb andb orb]. reflexivity.
Qed.

(** X15.  The pattern of [_extract_initial_state_json] has no [re.DOTALL]:
    a state blob that goes over two lines is not matched.  When the page
    has one marker and a line feed comes after it before any [</script>],
    the [ParseException] of the dead link is raised, although the marker is
    there. *)
Theorem state_blob_over_two_lines (pre a b : list N) :
  first_after state_marker pre = true ->
  contains Re.script_end a = false ->
  contains state_marker (a ++ 10%N :: b) = false ->
  XiaoHongShu._extract_initial_state_json (pre ++ state_marker ++ a ++ 10%N :: b)
  = Raise (ParseException XiaoHongShu.link_dead_message).
Proof.
  intros Hpre Ha Hb. unfold XiaoHongShu._extract_initial_state_json.
  rewrite (initial_state_search_skip pre _ Hpre).
  assert (Hline : forall a', contains Re.script_end a' = false ->
                    Re.lazy_until_in_line Re.script_end (a' ++ 10%N :: b) = None).
  { clear. induction a' as [|c a' IH]; intros H.
    - done.
    - rewrite contains_cons in H. apply orb_false_iff in H as [Hs Hc].
      pose proof (starts_with_one_line Re.script_end (c :: a') b eq_refl Hs) as Hs'.
      change ((c :: a') ++ ?x) with (c :: (a' ++ x)) in *.
      cbn [Re.lazy_until_in_line]. rewrite Hs', (IH Hc).
      by destruct (N.eqb c 10). }
  change (state_marker ++ a ++ 10%N :: b)
    with (119%N :: drop 1 (state_marker ++ a ++ 10%N :: b)).
  cbn [Re.initial_state_search].
  change (119%N :: drop 1 (state_marker ++ a ++ 10%N :: b))
    with (state_marker ++ a ++ 10%N :: b).
  unfold Re.initial_state_match at 1. fold state_marker.
  rewrite starts_with_app.
  change 25 with (length state_marker). rewrite drop_app_length.
  rewrite (Hline a Ha).
  rewrite initial_state_search_none; [done |].
  by rewrite state_marker_has_no_border.
Qed.

(** The braces of the state stand on lines of their own. *)
Lemma state_blob_over_two_lines_witness :
  XiaoHongShu._extract_initial_state_json
    (lit "<script>" ++ state_marker ++ lit "{" ++ 10%N :: lit "}</script>")
  = Raise (ParseException XiaoHongShu.link_dead_message).
Proof.
  apply (state_blob_over_two_lines (lit "<script>") (lit "{") (lit "}</script>"));
    reflexivity.
Defined.

End page_claims.

(** ** The links the handlers take *)

Section handler_facts.
Import Handlers.

Lemma run_all (class : N -> bool) (s : list N) : forallb class (run class s) = true.
Proof.
  induction s as [|c s IH]; [done |]. cbn [run].
  destruct (class c) eqn:Hc; [| done]. cbn. by rewrite Hc.
Qed.

Lemma run_stop (class : N -> bool) (a : list N) (c : N) (r : list N) :
  forallb class a = true -> class c = false -> run class (a ++ c :: r) = a.
Proof.
  intros Ha Hc. induction a as [|x a IH]; cbn [app run]; [by rewrite Hc |].
  cbn in Ha. apply andb_true_iff in Ha as [-> Ha]. by rewrite IH.
Qed.

Lemma run_whole (class : N -> bool) (a : list N) :
  forallb class a = true -> run class a = a.
Proof.
  induction a as [|x a IH]; [done |]. cbn [run forallb].
  intros [-> Ha]%andb_true_iff. by rewrite IH.
Qed.

Lemma run_prefix (class : N -> bool) (s : list N) :
  s = run class s ++ drop (length (run class s)) s.
Proof.
  induction s as [|c s IH]; [done |]. cbn [run].
  destruct (class c); [| done]. cbn [length drop app]. by rewrite <- IH.
Qed.

Section douyin_links.
Variable is_decimal : N -> bool.

Lemma main_link_groups (prefix : list N) (types : list (list N)) (s ty vid : list N) :
  main_link is_decimal prefix types s = Some (ty, vid) ->
  In ty types /\ vid <> [] /\ forallb is_decimal vid = true.
Proof.
  unfold main_link. destruct (starts_with prefix s); [| done].
  destruct (List.find _ types) as [ty'|] eqn:Hfind; [| done].
  destruct (drop (length ty') _) as [|c s']; [done |].
  destruct (N.eqb c 47); [| done].
  destruct (run is_decimal s') as [|d vid'] eqn:Hrun; [done |].
  intros [= <- <-]. split; [| split; [done |]].
  - by apply List.find_some in Hfind as [Hin _].
  - rewrite <- Hrun. apply run_all.
Qed.

Lemma main_link_built (prefix ty vid : list N) :
  In ty [slides; video; note] -> vid <> [] -> forallb is_decimal vid = true ->
  main_link is_decimal prefix [slides; video; note] (prefix ++ ty ++ lit "/" ++ vid)
  = Some (ty, vid).
Proof.
  intros Hty Hvid Hdigits. unfold main_link.
  rewrite starts_with_app, drop_app_length.
  assert (Hfind : List.find (fun t => starts_with t (ty ++ lit "/" ++ vid))
                    [slides; video; note] = Some ty).
  { destruct Hty as [<-|[<-|[<-|[]]]]; reflexivity. }
  rewrite Hfind, drop_app_length.
  change (lit "/" ++ vid) with (47%N :: vid). change (N.eqb 47 47) with true.
  cbv iota. rewrite (run_whole _ _ Hdigits). by destruct vid.
Qed.

End douyin_links.

(** X16.  The URLs that [_parse_douyin] builds are links of its own kind.
    For the groups [ty] and [vid] of a match of any of the four patterns of
    [_parse_douyin], the m.douyin URL is matched by the m.douyin pattern and
    the iesdouyin URL by the iesdouyin pattern, each with the same [ty] and
    the same [vid].  A match of the douyin.com pattern never has the type
    slides, so such a link always goes through the two share pages. *)
Theorem built_urls_are_douyin_links (is_decimal : N -> bool) (s ty vid : list N) :
  douyin_match is_decimal s = Some (ty, vid)
  \/ iesdouyin_match is_decimal s = Some (ty, vid)
  \/ m_douyin_match is_decimal s = Some (ty, vid)
  \/ jingxuan_match is_decimal s = Some (ty, vid) ->
  m_douyin_match is_decimal (drop 8 (Douyin._build_m_douyin_url ty vid))
  = Some (ty, vid)
  /\ iesdouyin_match is_decimal (drop 12 (Douyin._build_iesdouyin_url ty vid))
     = Some (ty, vid)
  /\ (douyin_match is_decimal s = Some (ty, vid) -> ty <> lit "slides").
Proof.
  intros Hmatch.
  assert (Hgroups : In ty [slides; video; note] /\ vid <> []
                    /\ forallb is_decimal vid = true).
  { destruct Hmatch as [H|[H|[H|H]]].
    - apply main_link_groups in H as (Hin & Hvid & Hd).
      split; [| done]. right. exact Hin.
    - by apply main_link_groups in H.
    - by apply main_link_groups in H.
    - unfold jingxuan_match in H.
      destruct (starts_with _ s); [| done].
      destruct (drop 15 s) as [|c s']; [done |].
      destruct (N.eqb c 10); [done |].
      by apply main_link_groups in H. }
  destruct Hgroups as (Hin & Hvid & Hd).
  split; [| split].
  - unfold Douyin._build_m_douyin_url.
    change (drop 8 (lit "https://m.douyin.com/share/" ++ ?x))
      with (lit "m.douyin.com/share/" ++ x).
    by apply main_link_built.
  - unfold Douyin._build_iesdouyin_url.
    change (drop 12 (lit "https://www.iesdouyin.com/share/" ++ ?x))
      with (lit "iesdouyin.com/share/" ++ x).
    by apply main_link_built.
  - intros H. apply main_link_groups in H as (Hin' & _).
    by destruct Hin' as [<-|[<-|[]]].
Qed.

(** A link to a note on www.douyin.com. *)
Lemma built_urls_are_douyin_links_witness :
  m_douyin_match Json.is_digit
    (drop 8 (Douyin._build_m_douyin_url (lit "note") (lit "7469411074119322899")))
  = Some (lit "note", lit "7469411074119322899")
  /\ iesdouyin_match Json.is_digit
       (drop 12 (Douyin._build_iesdouyin_url (lit "note") (lit "7469411074119322899")))
     = Some (lit "note", lit "7469411074119322899")
  /\ (douyin_match Json.is_digit (lit "douyin.com/note/7469411074119322899?x=1")
      = Some (lit "note", lit "7469411074119322899") ->
      lit "note" <> lit "slides").
Proof.
  apply (built_urls_are_douyin_links Json.is_digit
           (lit "douyin.com/note/7469411074119322899?x=1")
           (lit "note") (lit "7469411074119322899")).
  left. reflexivity.
Defined.

(** X17.  The route that [_parse_discovery] hands to [parse_explore] is a
    link of the explore kind.  For group 0 and the group [xhs_id] of a match
    of the discovery pattern, replacing the first [discovery/item] by
    [explore] gives the same note id and the same query after [explore/],
    also when the query holds [discovery/item] again; the explore pattern
    matches the whole of it, with the same [xhs_id]. *)
Theorem discovery_route_becomes_explore_route (s route xhs_id : list N) :
  discovery_match s = Some (route, xhs_id) ->
  exists query,
    route = lit "discovery/item/" ++ xhs_id ++ lit "?" ++ query
    /\ explore_url route
       = XiaoHongShu.site ++ lit "explore/" ++ xhs_id ++ lit "?" ++ query
    /\ explore_match (lit "explore/" ++ xhs_id ++ lit "?" ++ query)
       = Some (lit "explore/" ++ xhs_id ++ lit "?" ++ query, xhs_id).
Proof.
  unfold discovery_match, note_link.
  destruct (starts_with _ s); [| done].
  destruct (run is_alnum _) as [|x id] eqn:Hid; [done |].
  destruct (drop (length (x :: id)) _) as [|c q]; [done |].
  destruct (N.eqb c 63) eqn:Hc; [| done].
  intros [= <- <-]. exists (run is_route_char q).
  split; [done |]. split; [done |].
  unfold explore_match, note_link.
  rewrite starts_with_app, drop_app_length.
  change (lit "?" ++ ?y) with (63%N :: y).
  assert (Hall : forallb is_alnum (x :: id) = true)
    by (rewrite <- Hid; apply run_all).
  rewrite (run_stop is_alnum (x :: id) 63 _ Hall eq_refl).
  rewrite drop_app_length. change (N.eqb 63 63) with true. cbv iota.
  by rewrite (run_whole is_route_char _ (run_all _ _)).
Qed.

(** A shared link whose query names the route once more. *)
Lemma discovery_route_becomes_explore_route_witness :
  exists query,
    lit "discovery/item/68e8e3fa?from=/discovery/item/1"
    = lit "discovery/item/" ++ lit "68e8e3fa" ++ lit "?" ++ query
    /\ explore_url (lit "discovery/item/68e8e3fa?from=/discovery/item/1")
       = XiaoHongShu.site ++ lit "explore/" ++ lit "68e8e3fa" ++ lit "?" ++ query
    /\ explore_match (lit "explore/" ++ lit "68e8e3fa" ++ lit "?" ++ query)
       = Some (lit "explore/" ++ lit "68e8e3fa" ++ lit "?" ++ query, lit "68e8e3fa").
Proof.
  apply (discovery_route_becomes_explore_route
           (lit "discovery/item/68e8e3fa?from=/discovery/item/1 and more")).
  reflexivity.
Defined.

End handler_facts.

Section more_concrete_inputs.
Import Async Base Media Worlds MoreWorlds.

(** No host can be reached: the slides link fails with the error of the
    HTTP client, after its one request. *)
Lemma slides_link_has_no_fallback_witness :
  fst (Douyin._parse_douyin no_router_data no_slides_info offline
         (lit "slides") (lit "7") []) = Raise HTTPError.
Proof.
  apply (proj1 (proj2 (proj2 (slides_link_has_no_fallback no_router_data
                                no_slides_info offline (lit "7") [])))).
  reflexivity.
Defined.

(** Every page answers 403: the two share pages are asked for, no more. *)
Lemma at_most_two_page_requests_witness :
  requests (snd (Douyin._parse_douyin no_router_data no_slides_info forbidden
                   (lit "video") (lit "7") []))
  = requests [] ++ [Douyin.video_request
                      (Douyin._build_m_douyin_url (lit "video") (lit "7"))]
  \/ requests (snd (Douyin._parse_douyin no_router_data no_slides_info forbidden
                      (lit "video") (lit "7") []))
     = requests [] ++ [Douyin.video_request
                         (Douyin._build_m_douyin_url (lit "video") (lit "7"));
                       Douyin.video_request
                         (Douyin._build_iesdouyin_url (lit "video") (lit "7"))].
Proof.
  apply (proj1 at_most_two_page_requests no_router_data no_slides_info forbidden
           (lit "video") (lit "7") []).
  discriminate.
Defined.

(** X18.  The cover of a video of [parse_discovery] comes from the preload
    data whenever the state has preload data, also when the note has images
    of its own: it is the first image of the preload data, by its large URL
    when that is there and not empty, and by its URL otherwise. *)
Theorem discovery_cover_comes_from_preload (w : env) (url : list N)
    (tr tr1 : list event) (preload_data : pyval)
    (nd : XiaoHongShu.Discovery.NoteData.t) (media_url : pyval)
    (preload : XiaoHongShu.Discovery.NormalNotePreloadData.t)
    (first : XiaoHongShu.Discovery.Image.t)
    (rest : list XiaoHongShu.Discovery.Image.t) :
  XiaoHongShu.discovery_note_data w url tr = (Ok (preload_data, nd), tr1) ->
  XiaoHongShu.Discovery.NoteData.video_url nd = Ok media_url ->
  truthy media_url = true ->
  truthy preload_data = true ->
  XiaoHongShu.Discovery.NormalNotePreloadData.of_py preload_data = Some preload ->
  XiaoHongShu.Discovery.NormalNotePreloadData.imagesList preload = first :: rest ->
  exists r,
    fst (XiaoHongShu.parse_discovery w url tr) = Ok r
    /\ contents r
       = [VideoContent media_url
            (Some (match XiaoHongShu.Discovery.Image.urlSizeLarge first with
                   | Some (c :: large) => c :: large
                   | Some [] | None => XiaoHongShu.Discovery.Image.url first
                   end))
            None].
Proof.
  intros Hnd Hurl Htruthy Hpre Hconv Himgs.
  unfold XiaoHongShu.parse_discovery. rewrite (bind_ok _ _ _ _ _ Hnd). cbn [fst snd].
  destruct (discovery_result_contents w preload_data nd media_url tr1 Hurl)
    as [Hvideo _].
  destruct (Hvideo Htruthy
              (match XiaoHongShu.Discovery.Image.urlSizeLarge first with
               | Some (c :: large) => c :: large
               | _ => XiaoHongShu.Discovery.Image.url first
               end)
              (map (fun item =>
                      match XiaoHongShu.Discovery.Image.urlSizeLarge item with
                      | Some (c :: large) => c :: large
                      | _ => XiaoHongShu.Discovery.Image.url item
                      end) rest)) as (r & Hr & Hc).
  { right. split; [done |]. exists preload. split; [done |].
    unfold XiaoHongShu.Discovery.NormalNotePreloadData.image_urls.
    by rewrite Himgs. }
  exists r. split; [done |]. rewrite Hc.
  by destruct (XiaoHongShu.Discovery.Image.urlSizeLarge first) as [[|c large]|].
Qed.

(** The preload image has an empty large URL: its URL is the cover, and the
    image of the note is not. *)
Lemma discovery_cover_comes_from_preload_witness :
  exists r,
    fst (XiaoHongShu.parse_discovery (serving preload_video_page)
           (lit "https://www.xiaohongshu.com/discovery/item/abc?x=1") []) = Ok r
    /\ contents r = [VideoContent (PStr (lit "v.mp4")) (Some (lit "p.jpg")) None].
Proof.
  edestruct (discovery_cover_comes_from_preload (serving preload_video_page)
               (lit "https://www.xiaohongshu.com/discovery/item/abc?x=1") [])
    as (r & Hr & Hc).
  - vm_compute. reflexivity.
  - vm_compute. reflexivity.
  - reflexivity.
  - reflexivity.
  - vm_compute. reflexivity.
  - reflexivity.
  - exists r. split; [exact Hr | exact Hc].
Defined.

End more_concrete_inputs.

(** ** The temporary files *)

Section temp_file_facts.
Import Base Media TempFiles.

Lemma read_app (fs fs' : list (list N * list byte)) (path : list N) :
  read (fs ++ fs') path
  = match read fs path with
    | Some content => Some content
    | None => read fs' path
    end.
Proof.
  induction fs as [|[p c] fs IH]; [done |]. cbn [app read].
  by destruct (str_eqb p path).
Qed.

Lemma str_eqb_refl (s : list N) : str_eqb s s = true.
Proof. unfold str_eqb. by apply bool_decide_eq_true. Qed.

Lemma str_eqb_ne (s t : list N) : s <> t -> str_eqb s t = false.
Proof. intros H. unfold str_eqb. by apply bool_decide_eq_false. Qed.

Lemma run_jpg_tasks_state (stems : list (list N)) :
  forall (tasks : list (list byte)) (st : state),
    length stems = length tasks ->
    run_jpg_tasks stems tasks st
    = (map temp_name stems,
       {| files := files st ++ zip (map temp_name stems) tasks;
          _temp_files :=
            match stems with
            | [] => _temp_files st
            | _ :: _ => Some (default [] (_temp_files st) ++ map temp_name stems)
            end |}).
Proof.
  induction stems as [|stem stems IH]; intros [|jpg tasks] st Hlen;
    try discriminate Hlen.
  - cbn. rewrite app_nil_r. by destruct st.
  - cbn [run_jpg_tasks _create_jpg_task]. rewrite IH by (by injection Hlen).
    cbn [files _temp_files map zip zip_with default]. f_equal. f_equal.
    + by rewrite <- app_assoc.
    + destruct stems; simpl; [done |].
      by rewrite <- app_assoc.
Qed.

Lemma read_zip_fresh (paths : list (list N)) :
  forall (tasks : list (list byte)) (i : nat) (path : list N) (jpg_data : list byte),
    NoDup paths ->
    paths !! i = Some path -> tasks !! i = Some jpg_data ->
    read (zip paths tasks) path = Some jpg_data.
Proof.
  induction paths as [|p paths IH]; intros [|t tasks] i path jpg Hnd Hp Ht;
    try (by destruct i).
  apply NoDup_cons in Hnd as [Hnotin Hnd]. cbn [zip zip_with read].
  destruct i as [|i]; cbn in Hp, Ht.
  - injection Hp as ->. injection Ht as ->. by rewrite str_eqb_refl.
  - rewrite str_eqb_ne.
    + by apply (IH tasks i).
    + intros ->. apply Hnotin. by eapply list_elem_of_lookup_2.
Qed.

(** X19.  [_create_jpg_task] only adds: after the tasks of one
    [create_image_contents] have run, [_temp_files] is what it was (the
    empty list when the attribute was not set) followed by the new paths, in
    the order of the JPEG sources; there is one new file per JPEG source,
    its name ends with .jpg, and it holds the bytes of that source; every
    file that was there before is still there with its content.  Nothing is
    deleted and no path is taken off the list. *)
Theorem temp_files_only_grow (stems : list (list N)) (image_sources : list source)
    (st : state) :
  length stems = length (jpg_tasks image_sources) ->
  fresh stems st ->
  exists paths st',
    run_jpg_tasks stems (jpg_tasks image_sources) st = (paths, st')
    /\ length paths = length (List.filter is_bytes image_sources)
    /\ (jpg_tasks image_sources = [] -> st' = st)
    /\ (jpg_tasks image_sources <> [] ->
        _temp_files st' = Some (default [] (_temp_files st) ++ paths))
    /\ (forall i path,
          paths !! i = Some path ->
          (exists stem, path = stem ++ lit ".jpg")
          /\ read (files st') path = jpg_tasks image_sources !! i)
    /\ (forall path content,
          read (files st) path = Some content ->
          read (files st') path = Some content).
Proof.
  intros Hlen [Hnodup Hnew].
  rewrite (run_jpg_tasks_state stems _ st Hlen).
  eexists _, _. split; [reflexivity |]. cbn [files _temp_files].
  split; [| split; [| split; [| split]]].
  - rewrite length_map, Hlen. clear.
    induction image_sources as [|[jpg|url] srcs IH]; [done | | done].
    cbn. by rewrite <- IH.
  - intros Htasks. rewrite Htasks in Hlen. destruct stems; [| done].
    cbn. rewrite app_nil_r. by destruct st.
  - intros Htasks. destruct stems; [| done].
    by destruct (jpg_tasks image_sources).
  - intros i path Hpath. split.
    + rewrite list_lookup_fmap in Hpath.
      destruct (stems !! i) as [stem|]; [| done]. injection Hpath as <-.
      by exists stem.
    + rewrite read_app.
      assert (Hold : read (files st) path = None).
      { rewrite list_lookup_fmap in Hpath.
        destruct (stems !! i) as [stem|] eqn:Hstem; [| done].
        injection Hpath as <-. apply Hnew.
        apply list_elem_of_In. by eapply list_elem_of_lookup_2. }
      rewrite Hold.
      destruct (lookup_lt_is_Some_2 (jpg_tasks image_sources) i) as [jpg Hjpg].
      { apply lookup_lt_Some in Hpath. rewrite length_map in Hpath. lia. }
      rewrite Hjpg. by apply (read_zip_fresh _ _ i).
  - intros path content Hread. by rewrite read_app, Hread.
Qed.

(** Two JPEG sources and a URL between them, in a directory with one file,
    before the attribute is set. *)
Lemma temp_files_only_grow_witness :
  exists paths st',
    run_jpg_tasks [lit "/tmp/tmpa"; lit "/tmp/tmpb"]
      (jpg_tasks [SrcBytes Worlds.jpeg_stub; SrcUrl (lit "u1"); SrcBytes []])
      {| files := [(lit "/tmp/old.jpg", [])]; _temp_files := None |}
    = (paths, st')
    /\ length paths
       = length (List.filter is_bytes
                   [SrcBytes Worlds.jpeg_stub; SrcUrl (lit "u1"); SrcBytes []])
    /\ (jpg_tasks [SrcBytes Worlds.jpeg_stub; SrcUrl (lit "u1"); SrcBytes []] = [] ->
        st' = {| files := [(lit "/tmp/old.jpg", [])]; _temp_files := None |})
    /\ (jpg_tasks [SrcBytes Worlds.jpeg_stub; SrcUrl (lit "u1"); SrcBytes []] <> [] ->
        _temp_files st'
        = Some (default [] (_temp_files
                              {| files := [(lit "/tmp/old.jpg", [])];
                                 _temp_files := None |}) ++ paths))
    /\ (forall i path,
          paths !! i = Some path ->
          (exists stem, path = stem ++ lit ".jpg")
          /\ read (files st') path
             = jpg_tasks [SrcBytes Worlds.jpeg_stub; SrcUrl (lit "u1"); SrcBytes []]
               !! i)
    /\ (forall path content,
          read (files {| files := [(lit "/tmp/old.jpg", [])]; _temp_files := None |})
            path = Some content ->
          read (files st') path = Some content).
Proof.
  apply (temp_files_only_grow [lit "/tmp/tmpa"; lit "/tmp/tmpb"]
           [SrcBytes Worlds.jpeg_stub; SrcUrl (lit "u1"); SrcBytes []]
           {| files := [(lit "/tmp/old.jpg", [])]; _temp_files := None |}).
  - reflexivity.
  - split.
    + apply (bool_decide_unpack _). by vm_compute.
    + intros stem [<-|[<-|[]]]; reflexivity.
Defined.

End temp_file_facts.
